(** * audio2text: the transcription pipeline of [transcribe_standalone.py]

    A shallow embedding of [Audio2TextTranscriber] (preprocessing, engine
    fallback, diarization merge, output formatting) and the properties of
    the pipeline that the specification states about it.

    Modelling conventions.
    - A Python [dict] with string keys is a [gmap string _]; the file system
      is the [gset string] of the paths that exist.
    - A Python [float] is an IEEE 754 binary64 value. A finite one is
      given by the rational it is ([VFloat q], [Finite q]), the infinities
      and NaN are values of their own. Comparisons are exact; an
      arithmetic operation is the exact operation followed by rounding to
      the nearest binary64 value, ties to even ([F64.round]). The sign of
      a zero is not recorded.
    - The libraries the script calls (soundfile, librosa, ffmpeg, the two
      engines, pyannote, json, the set iteration order) are the fields of a
      record [World]; the code under verification is everything between
      those calls.
    - A Python [str] is the string of the bytes of its UTF-8 encoding.
    - Statements that run, raise and mutate live in the monad [M]: a state
      ([State]) threaded through, and a result that is a value or a raised
      exception. *)

From Stdlib Require Import Ascii QArith Qround Qabs Qpower Lqa.
From stdpp Require Import gmap strings list fin_maps pretty.

(* [set_solver] clears hypotheses by name, some of which are gone by then. *)
#[local] Set Warnings "-clear-no-such-hyp".


(** * Python values, results and exceptions *)

(** The scalar values that occur in an engine's segment dictionaries. A
    float is a finite one, of value [q], an infinity or a NaN. *)
Inductive pyval : Type :=
| VNone
| VBool (b : bool)
| VInt (z : Z)
| VFloat (q : Q)
| VInf (negative : bool)
| VNaN
| VStr (s : string).

(** A transcript segment is a dict: ['start'], ['end'], ['text'], after
    the merge ['speaker'], and whatever else the engine put there. *)
Abbreviation segment_dict := (gmap string pyval).

(** A value of the engine's result dict: a scalar (['text'],
    ['language']) or the list under ['segments']. *)
Inductive rvalue : Type :=
| RVal (v : pyval)
| RSegments (l : list segment_dict).

Abbreviation result_dict := (gmap string rvalue).

(** One diarization track, as [itertracks(yield_label=True)] yields it. *)
Record turn : Type := Turn {
  turn_start : Q;
  turn_end : Q;
  turn_label : string
}.

(** A multi-dimensional sample array: only its shape matters here.
    [soundfile] and [librosa] return a one-dimensional array for mono
    audio and [(frames, channels)] otherwise. *)
Record ndarray : Type := NdArray {
  nd_frames : N;
  nd_channels : N;
  nd_payload : N
}.

(** An exception object: its class name and [str(e)]. Only subclasses of
    [Exception] are modelled. *)
Record exn : Type := Exn {
  exn_class : string;
  exn_str : string
}.

Definition FileNotFoundError := Exn "FileNotFoundError".
Definition RuntimeError := Exn "RuntimeError".
Definition KeyError (key : string) := Exn "KeyError" ("'" +:+ key +:+ "'").
Definition TypeError := Exn "TypeError".
Definition ValueError := Exn "ValueError".
Definition OverflowError := Exn "OverflowError".
Definition AttributeError := Exn "AttributeError".

Inductive res (A : Type) : Type :=
| Ok (a : A)
| Raise (e : exn).
Arguments Ok {A} a.
Arguments Raise {A} e.

(** The values of the dict that [transcribe_file] returns. *)
Inductive ovalue : Type :=
| OBool (b : bool)
| OStr (s : string)
| OResult (r : result_dict).

Abbreviation outcome_dict := (gmap string ovalue).

(** * Strings and paths *)

Module Str.

Definition lower_ascii (c : Ascii.ascii) : Ascii.ascii :=
  let n := Ascii.N_of_ascii c in
  if ((65 <=? n) && (n <=? 90))%N then Ascii.ascii_of_N (n + 32) else c.

(** [str.lower()], on ASCII letters. *)
Fixpoint lower (s : string) : string :=
  match s with
  | EmptyString => EmptyString
  | String c s' => String (lower_ascii c) (lower s')
  end.

(** [sub in s]. *)
Fixpoint contains (sub s : string) : bool :=
  String.prefix sub s ||
  match s with
  | EmptyString => false
  | String _ s' => contains sub s'
  end.

(** [s[n:]]. *)
Fixpoint drop (n : nat) (s : string) : string :=
  match n, s with
  | S n', String _ s' => drop n' s'
  | _, _ => s
  end.

(** The bytes [l] as a string. *)
Definition bytes (l : list N) : string :=
  fold_right (λ n s, String (Ascii.ascii_of_N n) s) EmptyString l.

(** The characters that [str.strip()] removes, each as its UTF-8 bytes:
    U+0009 to U+000D, U+001C to U+0020, U+0085, U+00A0, U+1680, U+2000
    to U+200A, U+2028, U+2029, U+202F, U+205F and U+3000. *)
Definition whitespace : list string :=
  (bytes <$> [[9]; [10]; [11]; [12]; [13]; [28]; [29]; [30]; [31]; [32];
              [194; 133]; [194; 160]; [225; 154; 128];
              [226; 128; 128]; [226; 128; 129]; [226; 128; 130]; [226; 128; 131];
              [226; 128; 132]; [226; 128; 133]; [226; 128; 134]; [226; 128; 135];
              [226; 128; 136]; [226; 128; 137]; [226; 128; 138];
              [226; 128; 168]; [226; 128; 169]; [226; 128; 175];
              [226; 129; 159]; [227; 128; 128]])%N.

(** Removes from the front of [s] the strings of [spaces] it starts
    with, at most [fuel] of them. *)
Fixpoint lstrip_with (spaces : list string) (fuel : nat) (s : string) : string :=
  match fuel with
  | O => s
  | S fuel' =>
      match List.find (λ w, String.prefix w s) spaces with
      | Some w => lstrip_with spaces fuel' (drop (String.length w) s)
      | None => s
      end
  end.

Definition lstrip (s : string) : string := lstrip_with whitespace (String.length s) s.

(** [str.strip()]: the end is stripped on the reversed bytes. *)
Definition strip (s : string) : string :=
  let s := lstrip s in
  String.rev (lstrip_with (String.rev <$> whitespace) (String.length s) (String.rev s)).

(** [sep.join(l)]. *)
Fixpoint join (sep : string) (l : list string) : string :=
  match l with
  | [] => ""
  | [x] => x
  | x :: l' => x +:+ sep +:+ join sep l'
  end.

(** [s.rpartition(c)] when [c] occurs: the text before and after the
    last occurrence of [c]. *)
Fixpoint rsplit (c : Ascii.ascii) (s : string) : option (string * string) :=
  match s with
  | EmptyString => None
  | String a s' =>
      match rsplit c s' with
      | Some (b, t) => Some (String a b, t)
      | None => if decide (a = c) then Some (EmptyString, s') else None
      end
  end.

(** [f"{z:0{w}d}"]: the sign, then the digits padded with zeros up to
    the width [w] (the sign counts in the width). *)
Fixpoint zeros (n : nat) : string :=
  match n with
  | O => ""
  | S n' => String "0" (zeros n')
  end.

Definition zfill (w : nat) (digits : string) : string :=
  zeros (w - String.length digits) +:+ digits.

Definition format_d (w : nat) (z : Z) : string :=
  if (z <? 0)%Z then "-" +:+ zfill (w - 1) (pretty (Z.abs z))
  else zfill w (pretty z).

Definition is_digit (c : Ascii.ascii) : bool :=
  ((48 <=? N_of_ascii c) && (N_of_ascii c <=? 57))%N.


End Str.

(** [pathlib.PurePosixPath] attributes, on a path in normal form (what
    [str(Path(p))] returns). *)
Module Path.

Definition name (p : string) : string :=
  match Str.rsplit "/"%char p with
  | Some (_, t) => t
  | None => p
  end.

Definition parent (p : string) : string :=
  match Str.rsplit "/"%char p with
  | Some (EmptyString, _) => "/"
  | Some (b, _) => b
  | None => "."
  end.

(** The last dot of the name splits it, unless it is the first or the
    last character. *)
Definition split_suffix (p : string) : string * string :=
  match Str.rsplit "."%char (name p) with
  | Some (EmptyString, _) => (name p, "")
  | Some (_, EmptyString) => (name p, "")
  | Some (b, t) => (b, "." +:+ t)
  | None => (name p, "")
  end.

Definition stem (p : string) : string := fst (split_suffix p).
Definition suffix (p : string) : string := snd (split_suffix p).

(** [dir / file] for a relative [file]. *)
Definition join (dir file : string) : string :=
  if decide (dir = ".") then file
  else if decide (dir = "/") then "/" +:+ file
  else dir +:+ "/" +:+ file.

End Path.


(** * The world outside the script *)

Inductive level : Type := INFO | WARNING | ERROR.

(** What the call does that is visible from outside, in order. *)
Inductive event : Type :=
| Log (lvl : level) (msg : string)
| SfRead (path : string)
| LibrosaLoad (path : string)
| SfWrite (path : string)
| MkTemp (path : string)
| Subprocess (cmd : list string)
| Unlink (path : string)
| MlxTranscribe (path model : string)
| WhisperxLoadModel (model : string)
| WhisperxTranscribe (model : nat)
| FromPretrained (source : string)
| Diarize (path : string)
| JsonDumps
| OpenW (path : string)
| FileWrite (path text : string).

(** The module-level availability flags, set once at import time, and
    the behaviour of every library the script calls. *)
Record World : Type := {
  MLX_AVAILABLE : bool;
  LIBROSA_AVAILABLE : bool;
  DIARIZATION_AVAILABLE : bool;
  WHISPERX_AVAILABLE : bool;
  (* soundfile *)
  sf_read : string → res (ndarray * Z);
  sf_write : string → ndarray → Z → res unit;
  (* librosa.load(path, sr=, mono=) *)
  librosa_load : string → Z → bool → res (ndarray * Z);
  (* tempfile.NamedTemporaryFile: the error when no file can be created *)
  tempfile_error : option exn;
  (* subprocess.run(cmd, capture_output=True, text=True): returncode, stderr *)
  subprocess_run : list string → res (Z * string);
  (* mlx_whisper.transcribe(path, path_or_hf_repo=) *)
  mlx_whisper_transcribe : string → string → res result_dict;
  (* whisperx.load_model(size, device=) and model.transcribe(audio) *)
  whisperx_load_model : string → string → res nat;
  whisperx_transcribe : nat → ndarray → res result_dict;
  (* pyannote: Pipeline.from_pretrained(source, use_auth_token=), which
     may return None, and pipeline(path).itertracks(yield_label=True) *)
  home : string;
  getenv_HF_TOKEN : option string;
  Pipeline_from_pretrained : string → option (option string) → res (option nat);
  pipeline_call : nat → string → res (list turn);
  (* the iteration order of set(l) *)
  set_iter : list string → list string;
  (* json.dumps(result, indent=2, ensure_ascii=False), str(result), repr of a float *)
  json_dumps : result_dict → res string;
  str_result : result_dict → string;
  float_repr : Q → string;
  (* open(path, 'w', encoding='utf-8') and f.write(text) *)
  open_w : string → res unit;
  file_write : string → string → res unit;
  (* traceback.format_exc() *)
  format_exc : exn → string
}.

(** [set(l)] holds the members of [l], each once; nothing else is known
    of the order in which it yields them. *)
Definition set_iter_ok (f : list string → list string) : Prop :=
  ∀ l, NoDup (f l) ∧ ∀ x, x ∈ f l ↔ x ∈ l.

(** The attributes given to [__init__]. *)
Record Config : Type := {
  model_size : string;
  language : option string;
  output_dir : option string
}.

(** What changes while the script runs: the files that exist, the two
    lazily loaded models of the transcriber, and what has been done. *)
Record State : Type := {
  fs : gset string;
  whisperx_model : option nat;
  diarization_pipeline : option nat;
  trace : list event
}.

Definition set_fs (f : gset string → gset string) (st : State) : State :=
  {| fs := f (fs st); whisperx_model := whisperx_model st;
     diarization_pipeline := diarization_pipeline st; trace := trace st |}.

Definition set_whisperx_model (m : option nat) (st : State) : State :=
  {| fs := fs st; whisperx_model := m;
     diarization_pipeline := diarization_pipeline st; trace := trace st |}.

Definition set_diarization_pipeline (m : option nat) (st : State) : State :=
  {| fs := fs st; whisperx_model := whisperx_model st;
     diarization_pipeline := m; trace := trace st |}.

Definition add_event (ev : event) (st : State) : State :=
  {| fs := fs st; whisperx_model := whisperx_model st;
     diarization_pipeline := diarization_pipeline st; trace := trace st ++ [ev] |}.

(** * The monad of statements *)

Definition M (A : Type) : Type := State → res A * State.

Definition ret {A} (a : A) : M A := λ st, (Ok a, st).
Definition raise {A} (e : exn) : M A := λ st, (Raise e, st).

Definition bind {A B} (m : M A) (k : A → M B) : M B :=
  λ st, match m st with
        | (Ok a, st') => k a st'
        | (Raise e, st') => (Raise e, st')
        end.

Declare Scope py_scope.
Delimit Scope py_scope with py.
Notation "'let*' x ':=' m 'in' k" := (bind m (λ x, k))
  (at level 10, x pattern, m at level 100, k at level 200,
   format "'[v' 'let*'  x  ':='  m  'in' '/' k ']'") : py_scope.
Notation "m >> k" := (bind m (λ _, k))
  (at level 100, k at level 200, right associativity,
   format "'[v' m  >> '/' k ']'") : py_scope.
Open Scope py_scope.

(** [try: body except Exception as e: handler e]. *)
Definition try_except {A} (body : M A) (handler : exn → M A) : M A :=
  λ st, match body st with
        | (Ok a, st') => (Ok a, st')
        | (Raise e, st') => handler e st'
        end.

(** [try: body finally: final]; an exception of [final] replaces the
    outcome of [body]. *)
Definition try_finally {A} (body : M A) (final : M unit) : M A :=
  λ st, match body st with
        | (r, st') =>
            match final st' with
            | (Ok _, st'') => (r, st'')
            | (Raise e, st'') => (Raise e, st'')
            end
        end.

(** The temporary files that a stretch of the trace created. *)
Definition temps (events : list event) : list string :=
  omap (λ ev, match ev with MkTemp p => Some p | _ => None end) events.

(** The engine attempts in a stretch of the trace. *)
Definition is_engine_call (ev : event) : bool :=
  match ev with
  | MlxTranscribe _ _ | WhisperxTranscribe _ => true
  | _ => false
  end.

Definition engine_calls (events : list event) : list event :=
  List.filter is_engine_call events.

(** A stretch of the trace in which no temporary file was created and no
    engine was run. *)
Definition uneventful (events : list event) : Prop :=
  temps events = [] ∧ engine_calls events = [].

(** What a run returned, when it did not raise. *)
Definition returned {A} (run : res A * State) : option A :=
  match fst run with
  | Ok a => Some a
  | Raise _ => None
  end.

(** What a run raised, when it did. *)
Definition raised {A} (run : res A * State) : option exn :=
  match fst run with
  | Ok _ => None
  | Raise e => Some e
  end.

(** A pure computation that may raise, run as a statement. *)
Definition lift {A} (r : res A) : M A := λ st, (r, st).

(** A library call: it is recorded, and its outcome is the world's. *)
Definition call {A} (ev : event) (r : res A) : M A :=
  λ st, (r, add_event ev st).

Definition logger (lvl : level) (msg : string) : M unit :=
  λ st, (Ok tt, add_event (Log lvl msg) st).

Definition get {A} (f : State → A) : M A := λ st, (Ok (f st), st).
Definition modify (f : State → State) : M unit := λ st, (Ok tt, f st).

(** ** Files *)

(** [Path.exists()] and [os.path.exists]. *)
Definition path_exists (p : string) : M bool :=
  get (λ st, bool_decide (p ∈ fs st)).

(** [os.unlink]: the file is gone afterwards; a file that is not there is
    a [FileNotFoundError]. *)
Definition os_unlink (p : string) : M unit :=
  λ st, if decide (p ∈ fs st)
        then (Ok tt, add_event (Unlink p) (set_fs (λ X, X ∖ {[p]}) st))
        else (Raise (FileNotFoundError p), add_event (Unlink p) st).

(** The names [tempfile] tries, in order. *)
Definition temp_candidate (suffix : string) (n : nat) : string :=
  "/tmp/tmp" +:+ pretty n +:+ suffix.

(** The first candidate that names no existing file. One of the first
    [size X + 1] candidates does. *)
Definition temp_name (suffix : string) (X : gset string) : string :=
  default (temp_candidate suffix 0)
    (snd <$> list_find (λ p, p ∉ X) (temp_candidate suffix <$> seq 0 (S (size X)))).

(** [tempfile.NamedTemporaryFile(suffix=, delete=False)]: creates a file
    under a name that was free, and returns the name. *)
Definition NamedTemporaryFile (W : World) (suffix : string) : M string :=
  λ st, match tempfile_error W with
        | Some e => (Raise e, st)
        | None =>
            let p := temp_name suffix (fs st) in
            (Ok p, add_event (MkTemp p) (set_fs (λ X, X ∪ {[p]}) st))
        end.


(** Exceptions without state: the monad of the pure helpers. *)
Definition rbind {A B} (r : res A) (k : A → res B) : res B :=
  match r with
  | Ok a => k a
  | Raise e => Raise e
  end.

Notation "'let?' x ':=' r 'in' k" := (rbind r (λ x, k))
  (at level 10, x pattern, r at level 100, k at level 200,
   format "'[v' 'let?'  x  ':='  r  'in' '/' k ']'") : py_scope.

(** * Numbers *)

Definition type_name (v : pyval) : string :=
  match v with
  | VNone => "NoneType"
  | VBool _ => "bool"
  | VInt _ => "int"
  | VFloat _ | VInf _ | VNaN => "float"
  | VStr _ => "str"
  end.

(** The finite number a value stands for; [None] for a value that is not
    a number, and for an infinity and a NaN. *)
Definition as_number (v : pyval) : option Q :=
  match v with
  | VFloat q => Some q
  | VInt z => Some (inject_Z z)
  | VBool b => Some (if b then 1 else 0)%Q
  | VNone | VInf _ | VNaN | VStr _ => None
  end.

(** [a // b] and [a % b] for [b > 0], and [int(q)], on exact numbers. *)
Definition py_floordiv (a b : Q) : Q := inject_Z (Qfloor (a / b)).
Definition py_int (q : Q) : Z := Z.quot (Qnum q) (Z.pos (Qden q)).

(** ** Floats *)

Inductive float64 : Type :=
| Finite (q : Q)
| Inf (negative : bool)
| NaN.

Module F64.

(** [floor(log2(q))] for [q > 0]. *)
Definition Qlog2 (q : Q) : Z :=
  let l := (Z.log2 (Qnum q) - Z.log2 (Z.pos (Qden q)))%Z in
  if Qle_bool (2 ^ l) q then l else (l - 1)%Z.

(** The integer nearest to [q], the even one of two that are as near. *)
Definition round_half_even (q : Q) : Z :=
  let f := Qfloor q in
  match Qcompare (q - inject_Z f) (1 # 2) with
  | Lt => f
  | Gt => (f + 1)%Z
  | Eq => if Z.even f then f else (f + 1)%Z
  end.

(** [q < 0]. *)
Definition negative (q : Q) : bool := negb (Qle_bool 0 q).

(** The binary64 value nearest to [q] (round to nearest, ties to even):
    53 bits of precision, the smallest exponent -1074, and an infinity
    from 2^1024 on. *)
Definition round (q : Q) : float64 :=
  let q := Qred q in
  if Qeq_bool q 0 then Finite 0
  else
    let a := Qabs q in
    let e := Z.max (Qlog2 a - 52) (-1074) in
    let r := Qred (inject_Z (round_half_even (a / 2 ^ e)) * 2 ^ e) in
    if Qle_bool (2 ^ 1024) r then Inf (negative q)
    else Finite (if negative q then - r else r).

Definition add (x y : float64) : float64 :=
  match x, y with
  | NaN, _ | _, NaN => NaN
  | Inf a, Inf b => if eqb a b then Inf a else NaN
  | Inf a, Finite _ => Inf a
  | Finite _, Inf b => Inf b
  | Finite p, Finite q => round (p + q)
  end.

Definition neg (x : float64) : float64 :=
  match x with
  | Finite q => Finite (- q)
  | Inf a => Inf (negb a)
  | NaN => NaN
  end.

Definition sub (x y : float64) : float64 := add x (neg y).

Definition mul (x y : float64) : float64 :=
  match x, y with
  | NaN, _ | _, NaN => NaN
  | Inf a, Inf b => Inf (xorb a b)
  | Inf a, Finite q | Finite q, Inf a =>
      if Qeq_bool q 0 then NaN else Inf (xorb a (negative q))
  | Finite p, Finite q => round (p * q)
  end.

(** [x / y] of C; Python tests [y == 0] before it divides. *)
Definition div (x y : float64) : float64 :=
  match x, y with
  | NaN, _ | _, NaN => NaN
  | Inf _, Inf _ => NaN
  | Inf a, Finite q => Inf (xorb a (negative q))
  | Finite _, Inf _ => Finite 0
  | Finite p, Finite q =>
      if Qeq_bool q 0 then (if Qeq_bool p 0 then NaN else Inf (negative p))
      else round (p / q)
  end.

(** [fmod(x, y)] of C: the remainder of the division truncated toward
    zero, with the sign of [x]; it is exact. *)
Definition fmod (x y : float64) : float64 :=
  match x, y with
  | NaN, _ | _, NaN => NaN
  | Inf _, _ => NaN
  | Finite p, Inf _ => Finite p
  | Finite p, Finite q =>
      if Qeq_bool q 0 then NaN
      else Finite (p - q * inject_Z (py_int (p / q)))
  end.

Definition floor (x : float64) : float64 :=
  match x with
  | Finite q => Finite (inject_Z (Qfloor q))
  | _ => x
  end.

(** [x < 0], [x > c] and [x != 0]. *)
Definition lt_0 (x : float64) : bool :=
  match x with
  | Finite q => negative q
  | Inf a => a
  | NaN => false
  end.

Definition gt (x : float64) (c : Q) : bool :=
  match x with
  | Finite q => negb (Qle_bool q c)
  | Inf a => negb a
  | NaN => false
  end.

Definition nonzero (x : float64) : bool :=
  match x with
  | Finite q => negb (Qeq_bool q 0)
  | _ => true
  end.

(** [_float_div_mod] of CPython's floatobject.c, which [//] calls when
    [wx != 0]: the floor division and the remainder. *)
Definition _float_div_mod (vx wx : float64) : float64 * float64 :=
  let mod_ := fmod vx wx in
  let div_ := div (sub vx mod_) wx in
  let '(mod_, div_) :=
    if nonzero mod_ then
      if negb (eqb (lt_0 wx) (lt_0 mod_))
      then (add mod_ wx, sub div_ (Finite 1))
      else (mod_, div_)
    else (Finite 0, div_) in
  let floordiv :=
    if nonzero div_ then
      let floordiv := floor div_ in
      if gt (sub div_ floordiv) (1 # 2) then add floordiv (Finite 1) else floordiv
    else Finite 0 in
  (floordiv, mod_).

(** [vx // wx] and [vx % wx] ([float_rem] of floatobject.c) for
    [wx != 0]. *)
Definition floordiv (vx wx : float64) : float64 := fst (_float_div_mod vx wx).

Definition rem (vx wx : float64) : float64 :=
  let mod_ := fmod vx wx in
  if nonzero mod_ then
    if negb (eqb (lt_0 wx) (lt_0 mod_)) then add mod_ wx else mod_
  else Finite 0.

(** [int(x)]. *)
Definition to_int (x : float64) : res Z :=
  match x with
  | Finite q => Ok (py_int q)
  | Inf _ => Raise (OverflowError "cannot convert float infinity to integer")
  | NaN => Raise (ValueError "cannot convert float NaN to integer")
  end.

End F64.

(** The binary64 values that are finite: [m * 2^e] with a mantissa [m]
    of at most 53 bits and an exponent [e] from -1074 to 971. *)
Definition binary64 (q : Q) : Prop :=
  ∃ m e : Z, (Z.abs m < 2 ^ 53)%Z ∧ (-1074 <= e <= 971)%Z ∧ (q == inject_Z m * 2 ^ e)%Q.

(** The float a value is, when it is one. *)
Definition as_float (v : pyval) : option float64 :=
  match v with
  | VFloat q => Some (Finite q)
  | VInf negative => Some (Inf negative)
  | VNaN => Some NaN
  | _ => None
  end.

(** The integer a value is, when it is one ([bool] is a subclass of
    [int]). *)
Definition as_int (v : pyval) : option Z :=
  match v with
  | VInt z => Some z
  | VBool b => Some (if b then 1 else 0)%Z
  | _ => None
  end.

(** ** format_timestamp_srt *)

(** [f"{hours:02d}:{minutes:02d}:{secs:02d},{millisecs:03d}"]. *)
Definition timestamp (hours minutes secs millisecs : Z) : string :=
  Str.format_d 2 hours +:+ ":" +:+ Str.format_d 2 minutes +:+ ":"
  +:+ Str.format_d 2 secs +:+ "," +:+ Str.format_d 3 millisecs.

(** On an [int] the four fields are computed in integers; on a [float]
    in floats, each [int()] raising on a NaN or an infinity; [//] is not
    defined on anything else. *)
Definition format_timestamp_srt (seconds : pyval) : res string :=
  match as_int seconds, as_float seconds with
  | Some seconds, _ =>
      let hours := (seconds / 3600)%Z in
      let minutes := ((seconds mod 3600) / 60)%Z in
      let secs := (seconds mod 60)%Z in
      let millisecs := ((seconds mod 1) * 1000)%Z in
      Ok (timestamp hours minutes secs millisecs)
  | None, Some seconds =>
      let? hours := F64.to_int (F64.floordiv seconds (Finite 3600)) in
      let? minutes :=
        F64.to_int (F64.floordiv (F64.rem seconds (Finite 3600)) (Finite 60)) in
      let? secs := F64.to_int (F64.rem seconds (Finite 60)) in
      let? millisecs := F64.to_int (F64.mul (F64.rem seconds (Finite 1)) (Finite 1000)) in
      Ok (timestamp hours minutes secs millisecs)
  | None, None =>
      Raise (TypeError ("unsupported operand type(s) for //: '" +:+ type_name seconds
                        +:+ "' and 'int'"))
  end.

(** * The diarization merge *)

(** [a <= v] and [v <= b] between a float of the diarization and a value
    of a segment. *)
Definition float_le (a : Q) (v : pyval) : res bool :=
  match v with
  | VInf negative => Ok (negb negative)
  | VNaN => Ok false
  | _ =>
      match as_number v with
      | Some q => Ok (Qle_bool a q)
      | None =>
          Raise (TypeError ("'<=' not supported between instances of 'float' and '"
                            +:+ type_name v +:+ "'"))
      end
  end.

Definition le_float (v : pyval) (b : Q) : res bool :=
  match v with
  | VInf negative => Ok negative
  | VNaN => Ok false
  | _ =>
      match as_number v with
      | Some q => Ok (Qle_bool q b)
      | None =>
          Raise (TypeError ("'<=' not supported between instances of '"
                            +:+ type_name v +:+ "' and 'float'"))
      end
  end.

(** [turn.start <= x <= turn.end]: the second comparison is made only
    when the first holds. *)
Definition inside_turn (t : turn) (x : pyval) : res bool :=
  let? c := float_le (turn_start t) x in
  if c then le_float x (turn_end t) else Ok false.

(** [turn.start <= start_time <= turn.end or turn.start <= end_time <= turn.end]. *)
Definition turn_matches (t : turn) (start_time end_time : pyval) : res bool :=
  let? c := inside_turn t start_time in
  if c then Ok true else inside_turn t end_time.

(** The inner loop: the labels of the matching turns, in the order of
    [itertracks]. *)
Fixpoint collect_speakers (turns : list turn) (start_time end_time : pyval)
    : res (list string) :=
  match turns with
  | [] => Ok []
  | t :: turns' =>
      let? c := turn_matches t start_time end_time in
      let? speakers := collect_speakers turns' start_time end_time in
      Ok (if c then turn_label t :: speakers else speakers)
  end.

(** [l.count(x)]. *)
Fixpoint count (x : string) (l : list string) : nat :=
  match l with
  | [] => 0
  | y :: l' => (if decide (y = x) then 1 else 0) + count x l'
  end.

(** [max(it, key=key)]: the first item of the iteration whose key no
    other item exceeds. *)
Fixpoint max_from {A} (key : A → nat) (best : A) (l : list A) : A :=
  match l with
  | [] => best
  | x :: l' => max_from key (if key best <? key x then x else best) l'
  end.

Definition py_max {A} (key : A → nat) (l : list A) : res A :=
  match l with
  | [] => Raise (Exn "ValueError" "max() arg is an empty sequence")
  | x :: l' => Ok (max_from key x l')
  end.

Definition getitem (d : segment_dict) (key : string) : res pyval :=
  match d !! key with
  | Some v => Ok v
  | None => Raise (KeyError key)
  end.

(** The body of the loop over the segments, up to the assignment: the
    label that the segment receives. *)
Definition segment_speaker (set_order : list string → list string)
    (turns : list turn) (segment : segment_dict) : res string :=
  let? start_time := getitem segment "start" in
  let? end_time := getitem segment "end" in
  let? speakers := collect_speakers turns start_time end_time in
  match speakers with
  | [] => Ok "UNKNOWN"
  | _ :: _ => py_max (λ x, count x speakers) (set_order speakers)
  end.

(** The loop over the segments. The dicts are updated in place, so when
    an iteration raises, the segments before it keep their new label: the
    list as the loop left it, and the exception that ended it, if any. *)
Fixpoint merge_speakers (set_order : list string → list string)
    (turns : list turn) (segments : list segment_dict)
    : list segment_dict * option exn :=
  match segments with
  | [] => ([], None)
  | segment :: rest =>
      match segment_speaker set_order turns segment with
      | Raise e => (segment :: rest, Some e)
      | Ok speaker =>
          let '(rest', e) := merge_speakers set_order turns rest in
          (<["speaker" := VStr speaker]> segment :: rest', e)
      end
  end.

(** [result.get('segments', [])], as far as a loop over it can tell: a
    value that is no list of segments cannot be iterated, or yields items
    that cannot be indexed by a key; only the empty string yields nothing. *)
Definition get_segments (r : result_dict) : res (list segment_dict) :=
  match r !! "segments" with
  | None => Ok []
  | Some (RSegments l) => Ok l
  | Some (RVal (VStr "")) => Ok []
  | Some (RVal v) =>
      Raise (TypeError ("'" +:+ type_name v +:+ "' object is not a list of segments"))
  end.

(** The result dict after its segments were updated in place. *)
Definition put_segments (r : result_dict) (segments : list segment_dict) : result_dict :=
  match r !! "segments" with
  | Some (RSegments _) => <["segments" := RSegments segments]> r
  | _ => r
  end.

(** ** What the merge is expected to compute *)

#[global] Instance Qle_dec (x y : Q) : Decision (x <= y)%Q := Z.le_dec _ _.

(** The boundary-touch test between a turn and a segment from [s] to [e]:
    one end of the segment lies in the turn. *)
Definition touches (s e : Q) (t : turn) : Prop :=
  (turn_start t <= s ∧ s <= turn_end t)%Q ∨ (turn_start t <= e ∧ e <= turn_end t)%Q.

(** Both ends of the segment lie in the turn. *)
Definition contains (s e : Q) (t : turn) : Prop :=
  (turn_start t <= s ∧ s <= turn_end t)%Q ∧ (turn_start t <= e ∧ e <= turn_end t)%Q.

#[global] Instance touches_dec s e t : Decision (touches s e t).
Proof. unfold touches. apply _. Defined.

#[global] Instance contains_dec s e t : Decision (contains s e t).
Proof. unfold contains. apply _. Defined.

(** The two times of a segment, when both are there and are finite
    numbers. *)
Definition segment_times (segment : segment_dict) : option (Q * Q) :=
  match segment !! "start", segment !! "end" with
  | Some a, Some b =>
      match as_number a, as_number b with
      | Some s, Some e => Some (s, e)
      | _, _ => None
      end
  | _, _ => None
  end.

(** The segments of a result, and the labels they carry. *)
Definition segments_of (r : result_dict) : list segment_dict :=
  match r !! "segments" with
  | Some (RSegments l) => l
  | _ => []
  end.

Definition speakers_of (r : result_dict) : list (option pyval) :=
  (λ segment : segment_dict, segment !! "speaker") <$> segments_of r.

(** Two dicts that agree on every key but ['speaker']. *)
Definition same_but_speaker (segment segment' : segment_dict) : Prop :=
  ∀ key, key ≠ "speaker" → segment' !! key = segment !! key.

(** Two results that differ at most in the ['speaker'] entries of their
    segments: the same keys and values, the same number of segments, and
    every segment with its other entries as they were. *)
Definition only_speakers_changed (r r' : result_dict) : Prop :=
  (∀ key, key ≠ "segments" → r' !! key = r !! key)
  ∧ Forall2 same_but_speaker (segments_of r) (segments_of r')
  ∧ ((∀ l, r !! "segments" ≠ Some (RSegments l)) → r' = r).

(** The label that comes first in [speakers] among those that occur most
    often in it. *)
Definition first_most_frequent (speakers : list string) : option string :=
  match speakers with
  | [] => None
  | x :: l => Some (max_from (λ y, count y speakers) x l)
  end.

(** * Audio2TextTranscriber *)

Section Transcriber.

Context (W : World) (self : Config).

(** ** load_diarization_model *)

Definition models_dir : string :=
  Path.join (Path.join (Path.join (Path.join (home W) "Applications") "Audio2Text") "models") "diarization".

Definition load_diarization_model : M bool :=
  if negb (DIARIZATION_AVAILABLE W) then ret false
  else
    try_except
      (logger INFO "Loading speaker diarization model..." >>
       let* d := path_exists models_dir in
       let* c := path_exists (Path.join models_dir "config.yaml") in
       let* b := path_exists (Path.join models_dir "pytorch_model.bin") in
       let* pipeline :=
         if d && c && b then
           logger INFO "Loading from local pipeline directory..." >>
           call (FromPretrained models_dir)
                (Pipeline_from_pretrained W models_dir None)
         else
           logger INFO "Loading from Hugging Face repository..." >>
           call (FromPretrained "pyannote/speaker-diarization-3.1")
                (Pipeline_from_pretrained W "pyannote/speaker-diarization-3.1"
                   (Some (getenv_HF_TOKEN W))) in
       modify (set_diarization_pipeline pipeline) >>
       logger INFO "✅ Speaker diarization model loaded" >>
       ret true)
      (λ e,
       logger ERROR ("Failed to load diarization model: " +:+ exn_str e) >>
       ret false).

(** ** load_whisperx_model *)

Definition load_whisperx_model : M bool :=
  if negb (WHISPERX_AVAILABLE W) then ret false
  else
    try_except
      (logger INFO ("Loading WhisperX model: " +:+ model_size self) >>
       let* m := call (WhisperxLoadModel (model_size self))
                      (whisperx_load_model W (model_size self) "cpu") in
       modify (set_whisperx_model (Some m)) >>
       logger INFO "✅ WhisperX model loaded" >>
       ret true)
      (λ e,
       logger ERROR ("Failed to load WhisperX model: " +:+ exn_str e) >>
       ret false).

(** ** preprocess_audio *)

(** The [except Exception as e] clause of the conversion; [temp_wav] is
    the local variable as the failing statement left it. *)
Definition preprocess_failed {A} (temp_wav : option string) (e : exn) : M A :=
  match temp_wav with
  | Some name =>
      let* there := path_exists name in
      if there then os_unlink name else ret tt
  | None => ret tt
  end >>
  raise (RuntimeError ("Audio preprocessing failed: " +:+ exn_str e)).

Definition ffmpeg_cmd (audio_path temp_wav : string) : list string :=
  ["ffmpeg"; "-i"; audio_path; "-ar"; "16000"; "-ac"; "1"; "-f"; "wav"; "-y"; temp_wav].

(** The conversion is one [try] block; it is cut here where [temp_wav]
    changes, each piece under the same [except] clause. *)
Definition convert_audio (audio_path : string) : M (string * ndarray * Z) :=
  if LIBROSA_AVAILABLE W then
    let* (audio_data, sample_rate) :=
      try_except
        (logger INFO "Converting audio with librosa..." >>
         call (LibrosaLoad audio_path) (librosa_load W audio_path 16000 true))
        (preprocess_failed None) in
    let* temp_wav := try_except (NamedTemporaryFile W ".wav") (preprocess_failed None) in
    try_except
      (call (SfWrite temp_wav) (sf_write W temp_wav audio_data 16000) >>
       logger INFO "✅ Audio converted successfully" >>
       ret (temp_wav, audio_data, 16000%Z))
      (preprocess_failed (Some temp_wav))
  else
    let* temp_wav :=
      try_except
        (logger INFO "Converting audio with ffmpeg..." >>
         NamedTemporaryFile W ".wav")
        (preprocess_failed None) in
    try_except
      (let cmd := ffmpeg_cmd audio_path temp_wav in
       let* (returncode, stderr) := call (Subprocess cmd) (subprocess_run W cmd) in
       if bool_decide (returncode ≠ 0%Z) then
         raise (RuntimeError ("FFmpeg conversion failed: " +:+ stderr))
       else
         let* (audio_data, sample_rate) := call (SfRead temp_wav) (sf_read W temp_wav) in
         logger INFO "✅ Audio converted with ffmpeg" >>
         ret (temp_wav, audio_data, sample_rate))
      (preprocess_failed (Some temp_wav)).

(** The direct load: [Some] when the function returns from the first
    [try], [None] when control falls through to the conversion. *)
Definition direct_load (audio_path : string) : M (option (string * ndarray * Z)) :=
  if bool_decide (Str.lower (Path.suffix audio_path) ∈ [".wav"; ".flac"])
     && LIBROSA_AVAILABLE W
  then
    try_except
      (let* (audio_data, sample_rate) := call (SfRead audio_path) (sf_read W audio_path) in
       if bool_decide (sample_rate = 16000%Z) then
         logger INFO "✅ Audio already in correct format" >>
         ret (Some (audio_path, audio_data, sample_rate))
       else ret None)
      (λ _, ret None)
  else ret None.

Definition preprocess_audio (audio_path : string) : M (string * ndarray * Z) :=
  let* there := path_exists audio_path in
  if negb there then
    raise (FileNotFoundError ("Audio file not found: " +:+ audio_path))
  else
    logger INFO ("Processing audio file: " +:+ audio_path) >>
    let* direct := direct_load audio_path in
    match direct with
    | Some r => ret r
    | None => convert_audio audio_path
    end.

(** The input is one that the direct load returns as it is: a WAV or
    FLAC name, librosa installed, and soundfile reading it at 16 kHz. *)
Definition fast_path (audio_path : string) : bool :=
  bool_decide (Str.lower (Path.suffix audio_path) ∈ [".wav"; ".flac"])
  && LIBROSA_AVAILABLE W
  && match sf_read W audio_path with
     | Ok (_, sample_rate) => bool_decide (sample_rate = 16000%Z)
     | Raise _ => false
     end.

(** ** transcribe_with_mlx *)

Definition mlx_model_name : string :=
  if Str.contains "turbo" (model_size self)
  then "mlx-community/whisper-" +:+ model_size self
  else "mlx-community/whisper-" +:+ model_size self +:+ "-mlx".

(** [if s:] for a string or None. *)
Definition truthy_str (s : option string) : bool :=
  match s with
  | Some s => negb (bool_decide (s = ""))
  | None => false
  end.

Definition transcribe_with_mlx (audio_path : string) : M result_dict :=
  try_except
    (logger INFO "Transcribing with MLX Whisper..." >>
     let* result := call (MlxTranscribe audio_path mlx_model_name)
                         (mlx_whisper_transcribe W audio_path mlx_model_name) in
     let result : result_dict :=
       if truthy_str (language self)
       then <["language" := RVal (VStr (default "" (language self)))]> result
       else result in
     logger INFO "✅ MLX transcription completed" >>
     ret result)
    (λ e,
     logger ERROR ("MLX transcription failed: " +:+ exn_str e) >>
     raise e).

(** ** transcribe_with_whisperx *)

Definition transcribe_with_whisperx (audio_path : string) (audio_data : ndarray)
    (sample_rate : Z) : M result_dict :=
  let* loaded := get whisperx_model in
  match loaded with
  | Some _ => ret tt
  | None =>
      let* ok := load_whisperx_model in
      if ok then ret tt else raise (RuntimeError "Failed to load WhisperX model")
  end >>
  try_except
    (logger INFO "Transcribing with WhisperX..." >>
     let* model := get whisperx_model in
     let* result :=
       match model with
       | Some m => call (WhisperxTranscribe m) (whisperx_transcribe W m audio_data)
       | None => raise (AttributeError "'NoneType' object has no attribute 'transcribe'")
       end in
     logger INFO "✅ WhisperX transcription completed" >>
     ret result)
    (λ e,
     logger ERROR ("WhisperX transcription failed: " +:+ exn_str e) >>
     raise e).

(** What the WhisperX attempt comes to when WhisperX is installed: the
    model is the one already loaded, or it is loaded first. *)
Definition whisperx_attempt (st : State) (audio_data : ndarray) : res result_dict :=
  match whisperx_model st with
  | Some m => whisperx_transcribe W m audio_data
  | None =>
      match whisperx_load_model W (model_size self) "cpu" with
      | Ok m => whisperx_transcribe W m audio_data
      | Raise _ => Raise (RuntimeError "Failed to load WhisperX model")
      end
  end.

(** ** add_speaker_diarization *)

(** The statements of the [try] block after the diarization ran. *)
Definition merge_diarization (diarization : list turn)
    (transcription_result : result_dict) : M result_dict :=
  match get_segments transcription_result with
  | Raise e =>
      logger ERROR ("Speaker diarization failed: " +:+ exn_str e) >>
      ret transcription_result
  | Ok segments =>
      let '(segments, e) := merge_speakers (set_iter W) diarization segments in
      let transcription_result := put_segments transcription_result segments in
      match e with
      | Some e =>
          logger ERROR ("Speaker diarization failed: " +:+ exn_str e) >>
          ret transcription_result
      | None =>
          logger INFO "✅ Speaker diarization completed" >>
          ret transcription_result
      end
  end.

Definition add_speaker_diarization (audio_path : string)
    (transcription_result : result_dict) : M result_dict :=
  let* pipeline := get diarization_pipeline in
  let* available :=
    match pipeline with
    | Some _ => ret true
    | None =>
        let* ok := load_diarization_model in
        if ok then ret true
        else logger WARNING "Speaker diarization not available" >> ret false
    end in
  if negb available then ret transcription_result
  else
    let* diarization :=
      try_except
        (logger INFO "Adding speaker diarization..." >>
         let* pipeline := get diarization_pipeline in
         match pipeline with
         | Some p => let* d := call (Diarize audio_path) (pipeline_call W p audio_path) in
                     ret (Some d)
         | None => raise (TypeError "'NoneType' object is not callable")
         end)
        (λ e,
         logger ERROR ("Speaker diarization failed: " +:+ exn_str e) >>
         ret None) in
    match diarization with
    | None => ret transcription_result
    | Some diarization => merge_diarization diarization transcription_result
    end.

(** ** format_output *)

Definition newline : string := String (ascii_of_nat 10) "".

(** [str(v)], as an f-string renders a value. *)
Definition str_val (v : pyval) : string :=
  match v with
  | VNone => "None"
  | VBool true => "True"
  | VBool false => "False"
  | VInt z => pretty z
  | VFloat q => float_repr W q
  | VInf false => "inf"
  | VInf true => "-inf"
  | VNaN => "nan"
  | VStr s => s
  end.

(** [segment['text'].strip()]. *)
Definition segment_text (segment : segment_dict) : res string :=
  let? text := getitem segment "text" in
  match text with
  | VStr s => Ok (Str.strip s)
  | v => Raise (AttributeError ("'" +:+ type_name v +:+ "' object has no attribute 'strip'"))
  end.

(** [if include_speakers and 'speaker' in segment: text = f"[...] {text}"]. *)
Definition with_speaker (include_speakers : bool) (segment : segment_dict)
    (text : string) : string :=
  if include_speakers then
    match segment !! "speaker" with
    | Some speaker => "[" +:+ str_val speaker +:+ "] " +:+ text
    | None => text
    end
  else text.

(** The lines of the subtitle blocks of [segments], numbered from [i]. *)
Fixpoint srt_content (include_speakers : bool) (i : nat) (segments : list segment_dict)
    : res (list string) :=
  match segments with
  | [] => Ok []
  | segment :: rest =>
      let? start := rbind (getitem segment "start") format_timestamp_srt in
      let? end_ := rbind (getitem segment "end") format_timestamp_srt in
      let? text := segment_text segment in
      let text := with_speaker include_speakers segment text in
      let? lines := srt_content include_speakers (S i) rest in
      Ok ([pretty i; start +:+ " --> " +:+ end_; text; ""] ++ lines)
  end.

Fixpoint txt_lines (include_speakers : bool) (segments : list segment_dict)
    : res (list string) :=
  match segments with
  | [] => Ok []
  | segment :: rest =>
      let? text := segment_text segment in
      let text := with_speaker include_speakers segment text in
      let? lines := txt_lines include_speakers rest in
      Ok (text :: lines)
  end.

(** What [format_output] returns is a string, except for the ['text']
    entry of the result, which is returned as it is. *)
Definition format_output (result : result_dict) (format_type : string)
    (include_speakers : bool) : res rvalue :=
  if decide (format_type = "json") then
    let? text := json_dumps W result in
    Ok (RVal (VStr text))
  else if decide (format_type = "srt") then
    let? segments := get_segments result in
    let? lines := srt_content include_speakers 1 segments in
    Ok (RVal (VStr (Str.join newline lines)))
  else if decide (format_type = "txt") then
    match result !! "text" with
    | Some text => Ok text
    | None =>
        let? segments := get_segments result in
        let? lines := txt_lines include_speakers segments in
        Ok (RVal (VStr (Str.join newline lines)))
    end
  else Ok (RVal (VStr (str_result W result))).

(** ** transcribe_file *)

(** [if result:] for a dict or None. *)
Definition truthy_result (result : option result_dict) : bool :=
  match result with
  | Some r => negb (size r =? 0)
  | None => false
  end.

(** The two engine attempts; [result] and [engine_used] are the local
    variables, [None] while unassigned. *)
Definition try_engines (processed_audio_path : string) (audio_data : ndarray)
    (sample_rate : Z) : M (option result_dict * option string) :=
  let* (result, engine_used) :=
    if MLX_AVAILABLE W then
      try_except
        (let* r := transcribe_with_mlx processed_audio_path in
         ret (Some r, Some "MLX Whisper"))
        (λ e,
         logger WARNING ("MLX transcription failed, trying fallback: " +:+ exn_str e) >>
         ret (None, None))
    else ret (None, None) in
  if negb (truthy_result result) && WHISPERX_AVAILABLE W then
    try_except
      (let* r := transcribe_with_whisperx processed_audio_path audio_data sample_rate in
       ret (Some r, Some "WhisperX"))
      (λ e,
       logger WARNING ("WhisperX transcription failed: " +:+ exn_str e) >>
       ret (result, engine_used))
  else ret (result, engine_used).

Definition output_path_of (audio_path output_format : string) : string :=
  let output_filename := Path.stem audio_path +:+ "_transcript." +:+ output_format in
  if truthy_str (output_dir self)
  then Path.join (default "" (output_dir self)) output_filename
  else Path.join (Path.parent audio_path) output_filename.

(** [with open(output_path, 'w', encoding='utf-8') as f: f.write(text)]. *)
Definition write_output (output_path : string) (formatted_result : rvalue) : M unit :=
  call (OpenW output_path) (open_w W output_path) >>
  modify (set_fs (λ X, X ∪ {[output_path]})) >>
  match formatted_result with
  | RVal (VStr text) => call (FileWrite output_path text) (file_write W output_path text)
  | RVal v => raise (TypeError ("write() argument must be str, not " +:+ type_name v))
  | RSegments _ => raise (TypeError "write() argument must be str, not list")
  end.

(** The two dict displays of [transcribe_file]. *)
Definition success_outcome (output_path engine_used : string) (result : result_dict)
    : outcome_dict :=
  <["result" := OResult result]>
    (<["engine" := OStr engine_used]>
       (<["output_path" := OStr output_path]>
          (<["success" := OBool true]> ∅))).

Definition failure_outcome (e : exn) : outcome_dict :=
  <["error" := OStr (exn_str e)]> (<["success" := OBool false]> ∅).

(** The [try] block from [if not result] on, with the local variables
    as the engine attempts left them. *)
Definition after_engines (audio_path output_format : string) (include_speakers : bool)
    (processed_audio_path : string)
    (result : option result_dict) (engine_used : option string) : M outcome_dict :=
  if negb (truthy_result result) then
    raise (RuntimeError "All transcription engines failed")
  else
    let result := default ∅ result in
    let* result :=
      if include_speakers then add_speaker_diarization processed_audio_path result
      else ret result in
    let* formatted_result := lift (format_output result output_format include_speakers) in
    let output_path := output_path_of audio_path output_format in
    write_output output_path formatted_result >>
    logger INFO "✅ Transcription completed successfully!" >>
    match engine_used with
    | Some engine_used =>
        logger INFO ("   Engine: " +:+ engine_used) >>
        logger INFO ("   Language: " +:+
                     (if truthy_str (language self) then default "" (language self)
                      else "auto-detected")) >>
        logger INFO ("   Output: " +:+ output_path) >>
        ret (success_outcome output_path engine_used result)
    | None =>
        raise (Exn "UnboundLocalError"
                   "cannot access local variable 'engine_used' where it is not associated with a value")
    end.

(** The [try] block after preprocessing returned. *)
Definition transcribe_body (audio_path output_format : string) (include_speakers : bool)
    (processed_audio_path : string) (audio_data : ndarray) (sample_rate : Z)
    : M outcome_dict :=
  let* (result, engine_used) := try_engines processed_audio_path audio_data sample_rate in
  after_engines audio_path output_format include_speakers processed_audio_path
    result engine_used.

(** The [except Exception as e] clause. *)
Definition transcription_failed (e : exn) : M outcome_dict :=
  logger ERROR ("❌ Transcription failed: " +:+ exn_str e) >>
  logger ERROR (format_exc W e) >>
  ret (failure_outcome e).

(** The [finally] clause; [None] when preprocessing did not return. *)
Definition cleanup (audio_path : string) (processed_audio_path : option string) : M unit :=
  if truthy_str processed_audio_path
     && negb (bool_decide (default "" processed_audio_path = audio_path))
  then try_except (os_unlink (default "" processed_audio_path)) (λ _, ret tt)
  else ret tt.

(** The [try] statement is cut after the call of [preprocess_audio],
    where [processed_audio_path] is assigned; both pieces are under the
    same [except] and [finally] clauses. *)
Definition transcribe_file (audio_path output_format : string) (include_speakers : bool)
    : M outcome_dict :=
  logger INFO ("🎙️  Starting transcription: " +:+ audio_path) >>
  let* preprocessed :=
    try_except
      (let* r := preprocess_audio audio_path in ret (inl r))
      (λ e, let* o := transcription_failed e in ret (inr o)) in
  match preprocessed with
  | inr failure => try_finally (ret failure) (cleanup audio_path None)
  | inl (processed_audio_path, audio_data, sample_rate) =>
      try_finally
        (try_except
           (transcribe_body audio_path output_format include_speakers
              processed_audio_path audio_data sample_rate)
           transcription_failed)
        (cleanup audio_path (Some processed_audio_path))
  end.

End Transcriber.

(** * Concrete worlds *)

Module Scenario.

Definition unavailable {A} (what : string) : res A :=
  Raise (Exn "RuntimeError" (what +:+ " is not part of this scenario")).

(** A machine on which every library does as it is told: the four
    availability flags, what soundfile reads, what librosa, ffmpeg and
    the two engines answer, the order of set iteration and whether the
    output file can be opened. Everything else works. *)
Definition make_world (mlx librosa diarization whisperx : bool)
    (read : string → res (ndarray * Z))
    (load : res (ndarray * Z))
    (ffmpeg : res (Z * string))
    (mlx_result whisperx_result : res result_dict)
    (turns : res (list turn))
    (order : list string → list string)
    (open_result : res unit) : World :=
  {| MLX_AVAILABLE := mlx;
     LIBROSA_AVAILABLE := librosa;
     DIARIZATION_AVAILABLE := diarization;
     WHISPERX_AVAILABLE := whisperx;
     sf_read := read;
     sf_write := λ _ _ _, Ok tt;
     librosa_load := λ _ _ _, load;
     tempfile_error := None;
     subprocess_run := λ _, ffmpeg;
     mlx_whisper_transcribe := λ _ _, mlx_result;
     whisperx_load_model := λ _ _, Ok 1;
     whisperx_transcribe := λ _ _, whisperx_result;
     home := "/Users/me";
     getenv_HF_TOKEN := None;
     Pipeline_from_pretrained := λ _ _, Ok (Some 2);
     pipeline_call := λ _ _, turns;
     set_iter := order;
     json_dumps := λ _, Ok "{}";
     str_result := λ _, "{}";
     float_repr := λ _, "0.0";
     open_w := λ _, open_result;
     file_write := λ _ _, Ok tt;
     format_exc := λ e, "Traceback (most recent call last): " +:+ exn_str e |}.

Definition config : Config :=
  {| model_size := "large-v3-turbo"; language := None; output_dir := None |}.

Definition start (files : list string) : State :=
  {| fs := list_to_set files; whisperx_model := None;
     diarization_pipeline := None; trace := [] |}.

Definition mono_16k : ndarray := NdArray 48000 1 7.
Definition stereo_16k : ndarray := NdArray 48000 2 7.

Definition segment_of (start_time end_time : Q) (text : string) : segment_dict :=
  <["start" := VFloat start_time]> (<["end" := VFloat end_time]> (<["text" := VStr text]> ∅)).

Definition one_segment : result_dict :=
  <["text" := RVal (VStr "test")]>
    (<["segments" := RSegments [segment_of 0 3 "test"]]> ∅).

(** Both engines installed and both crash on a mono 16 kHz file. *)
Definition both_crash : World :=
  make_world true true false true
    (λ _, Ok (mono_16k, 16000%Z)) (Ok (mono_16k, 16000%Z)) (Ok (0%Z, ""))
    (Raise (Exn "RuntimeError" "Metal device out of memory"))
    (Raise (Exn "ValueError" "decoder crashed"))
    (Ok []) remove_dups (Ok tt).

(** No engine is installed. *)
Definition none_installed : World :=
  make_world false true false false
    (λ _, Ok (mono_16k, 16000%Z)) (Ok (mono_16k, 16000%Z)) (Ok (0%Z, ""))
    (Ok one_segment) (Ok one_segment) (Ok []) remove_dups (Ok tt).

(** A stereo file whose sample rate is already 16 kHz. *)
Definition stereo_wav : World :=
  make_world true true false true
    (λ _, Ok (stereo_16k, 16000%Z)) (Ok (mono_16k, 16000%Z)) (Ok (0%Z, ""))
    (Ok one_segment) (Ok one_segment) (Ok []) remove_dups (Ok tt).

(** librosa is installed but cannot decode the file; ffmpeg could. *)
Definition librosa_fails : World :=
  make_world true true false true
    (λ _, Ok (mono_16k, 16000%Z))
    (Raise (Exn "NoBackendError" "no audio backend can decode this file"))
    (Ok (0%Z, ""))
    (Ok one_segment) (Ok one_segment) (Ok []) remove_dups (Ok tt).

(** librosa is not installed and ffmpeg rejects the file. *)
Definition ffmpeg_fails : World :=
  make_world true false false true
    (λ _, Ok (mono_16k, 16000%Z)) (Ok (mono_16k, 16000%Z))
    (Ok (1%Z, "Invalid data found when processing input"))
    (Ok one_segment) (Ok one_segment) (Ok []) remove_dups (Ok tt).

(** MLX crashes, WhisperX transcribes, the output directory is read-only. *)
Definition read_only_output : World :=
  make_world true true false true
    (λ _, Ok (mono_16k, 16000%Z)) (Ok (mono_16k, 16000%Z)) (Ok (0%Z, ""))
    (Raise (Exn "RuntimeError" "Metal device out of memory"))
    (Ok one_segment) (Ok []) remove_dups
    (Raise (Exn "PermissionError" "[Errno 13] Permission denied")).

(** MLX crashes, WhisperX transcribes, everything else works. *)
Definition fallback_works : World :=
  make_world true true false true
    (λ _, Ok (mono_16k, 16000%Z)) (Ok (mono_16k, 16000%Z)) (Ok (0%Z, ""))
    (Raise (Exn "RuntimeError" "Metal device out of memory"))
    (Ok one_segment) (Ok []) remove_dups (Ok tt).

(** Diarization of overlapping speech: one long turn of a first
    speaker, two short turns of a second one inside it. *)
Definition overlapping_turns : list turn :=
  [Turn 0 10 "SPEAKER_00"; Turn 4 6 "SPEAKER_01"; Turn 7 9 "SPEAKER_01"].

Definition diarized (turns : list turn) (order : list string → list string) : World :=
  make_world true true true true
    (λ _, Ok (mono_16k, 16000%Z)) (Ok (mono_16k, 16000%Z)) (Ok (0%Z, ""))
    (Ok one_segment) (Ok one_segment) (Ok turns) order (Ok tt).

(** Two turns of two speakers, one around each end of a segment. *)
Definition two_turns : list turn :=
  [Turn 0 5 "SPEAKER_00"; Turn 5 10 "SPEAKER_01"].

(** An iteration order of sets: the members, last seen first. *)
Definition last_first (l : list string) : list string := reverse (remove_dups l).

Definition one_segment_from (s e : Q) : result_dict :=
  <["segments" := RSegments [segment_of s e "test"]]> ∅.

End Scenario.


(** * Further parts of the script and further notions *)

(** A segment that the merge can index: it has a ['start'] and an ['end']. *)
Definition has_times (segment : segment_dict) : Prop :=
  is_Some (segment !! "start") ∧ is_Some (segment !! "end").

(** The kinds of events: reading and converting audio, running the
    engines, diarization, and writing the output. *)
Definition is_audio_event (ev : event) : bool :=
  match ev with
  | SfRead _ | LibrosaLoad _ | SfWrite _ | MkTemp _ | Subprocess _ | Unlink _ => true
  | _ => false
  end.

Definition is_engine_event (ev : event) : bool :=
  match ev with
  | MlxTranscribe _ _ | WhisperxLoadModel _ | WhisperxTranscribe _ => true
  | _ => false
  end.

Definition is_diarization_event (ev : event) : bool :=
  match ev with
  | FromPretrained _ | Diarize _ => true
  | _ => false
  end.

Definition is_output_event (ev : event) : bool :=
  match ev with
  | JsonDumps | OpenW _ | FileWrite _ _ => true
  | _ => false
  end.

Definition is_log (ev : event) : bool :=
  match ev with
  | Log _ _ => true
  | _ => false
  end.

Definition engine_events (events : list event) : list event :=
  List.filter is_engine_event events.

Definition diarization_events (events : list event) : list event :=
  List.filter is_diarization_event events.

Definition output_events (events : list event) : list event :=
  List.filter is_output_event events.

(** A segment that a subtitle block can be made of: finite numbers for
    its times, and a string for its text. *)
Definition subtitle_ready (segment : segment_dict) : Prop :=
  is_Some (segment_times segment) ∧ ∃ s, segment !! "text" = Some (VStr s).

(** The exponent of the grid on which a positive [a] is rounded to
    binary64, and the rounded value on it. *)
Definition grid (a : Q) : Z := Z.max (F64.Qlog2 (Qred a) - 52) (-1074).
Definition rounded (a : Q) : Q :=
  Qred (inject_Z (F64.round_half_even (Qred a / 2 ^ grid a)) * 2 ^ grid a)%Q.

(** Every float of the segment that is finite is a binary64 value, as
    every Python float is. *)
Definition binary64_segment (segment : segment_dict) : Prop :=
  ∀ key q, segment !! key = Some (VFloat q) → binary64 q.


(** What is left of a stretch of the trace without the log lines. *)
Definition actions (events : list event) : list event :=
  List.filter (λ ev, negb (is_log ev)) events.

(** [c in s], for a character. *)
Fixpoint has_char (c : Ascii.ascii) (s : string) : bool :=
  match s with
  | EmptyString => false
  | String a s' => bool_decide (a = c) || has_char c s'
  end.

(** Whether the [finally] clause deletes the processed file. *)
Definition cleanup_needed (audio_path processed : string) : bool :=
  truthy_str (Some processed) && negb (bool_decide (processed = audio_path)).

(** The line of a text transcript that a segment gives. *)
Definition txt_line (W : World) (include_speakers : bool) (segment : segment_dict)
    : string :=
  with_speaker W include_speakers segment
    (Str.strip match segment !! "text" with
               | Some (VStr s) => s
               | _ => ""
               end).

(** * load_config *)

(** [s.split(c, 1)[1]]: what follows the first [c]. *)
Fixpoint split_1 (c : Ascii.ascii) (s : string) : res string :=
  match s with
  | EmptyString => Raise (Exn "IndexError" "list index out of range")
  | String a s' => if decide (a = c) then Ok s' else split_1 c s'
  end.

(** What [load_config] asks of the machine: [Path.home()],
    [config_file.exists()], and [open(config_file)] with the iteration
    over its lines, which gives the lines that are read and the exception
    that ends the reading, if one does. *)
Record ConfigWorld : Type := {
  Path_home : res string;
  config_exists : string → res bool;
  config_open : string → res (list string * option exn)
}.

(** The loop over the lines of the config file: the value of the first
    line that starts with [HF_TOKEN=], stripped; later lines are not
    read. [stop] is the exception that ends the reading after [lines]. *)
Fixpoint scan_config (lines : list string) (stop : option exn) : res (option string) :=
  match lines with
  | [] =>
      match stop with
      | Some e => Raise e
      | None => Ok None
      end
  | line :: rest =>
      if String.prefix "HF_TOKEN=" line then
        let? value := split_1 "=" line in
        Ok (Some (Str.strip value))
      else scan_config rest stop
  end.

Definition config_file (home : string) : string :=
  Path.join (Path.join (Path.join (Path.join home "Applications") "Audio2Text") "config") "env".

(** [os.environ[key] = value] for one of the two keys of the script: a
    value with a NUL byte is refused. *)
Definition setenv (key value : string) (environ : gmap string string)
    : res (gmap string string) :=
  if has_char "000" value then Raise (ValueError "embedded null byte")
  else Ok (<[key := value]> environ).

(** The first half of [load_config]: the token, and the environment
    after the assignment of the loop. *)
Definition find_token (W : ConfigWorld) (environ : gmap string string)
    : res (option string * gmap string string) :=
  let hf_token := environ !! "HF_TOKEN" in
  if negb (truthy_str hf_token) then
    let? home := Path_home W in
    let? there := config_exists W (config_file home) in
    if there then
      let? (lines, stop) := config_open W (config_file home) in
      let? found := scan_config lines stop in
      match found with
      | Some token =>
          let? environ := setenv "HF_TOKEN" token environ in
          Ok (Some token, environ)
      | None => Ok (hf_token, environ)
      end
    else Ok (hf_token, environ)
  else Ok (hf_token, environ).

(** [load_config], on the environment variables: what it returns or
    raises, the environment as it leaves it, and what it logs. *)
Definition load_config (W : ConfigWorld) (environ : gmap string string)
    : res unit * (gmap string string * list event) :=
  match find_token W environ with
  | Raise e => (Raise e, (environ, []))
  | Ok (hf_token, environ) =>
      if truthy_str hf_token then
        match setenv "HUGGING_FACE_HUB_TOKEN" (default "" hf_token) environ with
        | Ok environ' => (Ok tt, (environ', [Log INFO "✅ Hugging Face token configured"]))
        | Raise e => (Raise e, (environ, []))
        end
      else
        (Ok tt,
         (environ,
          [Log WARNING "⚠️  No Hugging Face token found - some models may not download"]))
  end.

(** The ways in which [load_config] fails, each with the exception. *)
Inductive config_fault (W : ConfigWorld) (environ : gmap string string) : exn → Prop :=
| fault_environment (token : string) :
    environ !! "HF_TOKEN" = Some token →
    has_char "000" token = true →
    config_fault W environ (ValueError "embedded null byte")
| fault_home (e : exn) :
    truthy_str (environ !! "HF_TOKEN") = false →
    Path_home W = Raise e →
    config_fault W environ e
| fault_exists (home : string) (e : exn) :
    truthy_str (environ !! "HF_TOKEN") = false →
    Path_home W = Ok home →
    config_exists W (config_file home) = Raise e →
    config_fault W environ e
| fault_open (home : string) (e : exn) :
    truthy_str (environ !! "HF_TOKEN") = false →
    Path_home W = Ok home →
    config_exists W (config_file home) = Ok true →
    config_open W (config_file home) = Raise e →
    config_fault W environ e
| fault_read (home : string) (lines : list string) (e : exn) :
    truthy_str (environ !! "HF_TOKEN") = false →
    Path_home W = Ok home →
    config_exists W (config_file home) = Ok true →
    config_open W (config_file home) = Ok (lines, Some e) →
    Forall (λ line, String.prefix "HF_TOKEN=" line = false) lines →
    config_fault W environ e
| fault_token (home : string) (before after : list string) (value : string)
    (stop : option exn) :
    truthy_str (environ !! "HF_TOKEN") = false →
    Path_home W = Ok home →
    config_exists W (config_file home) = Ok true →
    config_open W (config_file home)
    = Ok (before ++ ("HF_TOKEN=" +:+ value) :: after, stop) →
    Forall (λ line, String.prefix "HF_TOKEN=" line = false) before →
    has_char "000" (Str.strip value) = true →
    config_fault W environ (ValueError "embedded null byte").

(** * npz_loading_fix *)

Module Npz.

(** The first argument of [numpy.load]: a path (a [str] or a [Path]), or
    a file-like object. *)
Inductive file_arg : Type :=
| FilePath (p : string)
| FileObject (id : nat).

(** Where the module runs and what it calls: whether the environment is
    a bundle, what numpy's own [load] makes of its argument (the other
    arguments are passed on as they are), and whether [tempfile] and
    [shutil.copy2] work. *)
Record World : Type := {
  _is_bundled_environment : bool;
  numpy_load : file_arg → res nat;
  tempfile_error : option exn;
  shutil_copy2 : string → string → res unit
}.

(** The files that exist, the module's list of temporary files, and what
    has been printed. *)
Record State : Type := {
  fs : gset string;
  _temp_files : list string;
  stdout : list string
}.

Section Patch.

Context (W : World).

Definition _copy_to_temp (file_path : string) (st : State) : res string * State :=
  match tempfile_error W with
  | Some e => (Raise e, st)
  | None =>
      let name := temp_name ".npz" (fs st) in
      let st := {| fs := fs st ∪ {[name]}; _temp_files := _temp_files st;
                   stdout := stdout st |} in
      match shutil_copy2 W file_path name with
      | Raise e => (Raise e, st)
      | Ok _ =>
          (Ok name, {| fs := fs st; _temp_files := _temp_files st ++ [name];
                       stdout := stdout st |})
      end
  end.

(** The test of the [except] clause: the error mentions zip or
    file-like. *)
Definition zip_error (e : exn) : bool :=
  Str.contains "zip" (Str.lower (exn_str e))
  || Str.contains "file-like" (Str.lower (exn_str e)).

Definition _patched_numpy_load (file : file_arg) (st : State) : res nat * State :=
  if negb (_is_bundled_environment W) then (numpy_load W file, st)
  else
    match file with
    | FilePath file_path =>
        if bool_decide (Str.lower (Path.suffix file_path) = ".npz")
           && bool_decide (file_path ∈ fs st)
        then
          match numpy_load W file with
          | Ok a => (Ok a, st)
          | Raise e =>
              if zip_error e then
                let st := {| fs := fs st; _temp_files := _temp_files st;
                             stdout := stdout st
                                       ++ ["NPZ loading fix: copying " +:+ file_path
                                           +:+ " to temp location..."] |} in
                match _copy_to_temp file_path st with
                | (Ok temp_path, st) => (numpy_load W (FilePath temp_path), st)
                | (Raise e, st) => (Raise e, st)
                end
              else (Raise e, st)
          end
        else (numpy_load W file, st)
    | FileObject _ => (numpy_load W file, st)
    end.

End Patch.

(** The loop of [cleanup_temp_files]; in this model [os.unlink] of a file
    that exists does not raise. *)
Fixpoint unlink_all (temp_files : list string) (files : gset string) : gset string :=
  match temp_files with
  | [] => files
  | temp_file :: rest =>
      unlink_all rest (if bool_decide (temp_file ∈ files) then files ∖ {[temp_file]}
                       else files)
  end.

Definition cleanup_temp_files (st : State) : State :=
  {| fs := unlink_all (_temp_files st) (fs st); _temp_files := []; stdout := stdout st |}.

(** A session: the loads of a program, one after the other, each
    returning or raising. *)
Fixpoint loads (W : World) (files : list file_arg) (st : State) : State :=
  match files with
  | [] => st
  | file :: rest => loads W rest (_patched_numpy_load W file st).2
  end.

(** The load makes a copy: the environment is a bundle, the argument is
    the path of an existing [.npz] file, and numpy's own load of it
    raises an error about zip or file-like objects. *)
Definition copies (W : World) (file : file_arg) (st : State) : bool :=
  _is_bundled_environment W
  && match file with
     | FilePath file_path =>
         bool_decide (Str.lower (Path.suffix file_path) = ".npz")
         && bool_decide (file_path ∈ fs st)
         && match numpy_load W file with
            | Ok _ => false
            | Raise e => zip_error e
            end
     | FileObject _ => false
     end.

End Npz.

(** * Further scenarios *)

Module Cases.


(** Everything is installed and works; the diarization finds two turns. *)
Definition all_work : World := Scenario.diarized Scenario.two_turns remove_dups.


(** MLX Whisper returns an empty dict and WhisperX is not installed. *)
Definition mlx_empty : World :=
  Scenario.make_world true true false false
    (λ _, Ok (Scenario.mono_16k, 16000%Z)) (Ok (Scenario.mono_16k, 16000%Z)) (Ok (0%Z, ""))
    (Ok ∅) (Ok Scenario.one_segment) (Ok []) remove_dups (Ok tt).

(** A state in which the diarization pipeline is loaded. *)
Definition pipeline_loaded : State :=
  set_diarization_pipeline (Some 2) (Scenario.start ["talk.wav"]).

(** A segment without times, between two segments that have them. *)
Definition no_times : segment_dict := <["text" := VStr "b"]> ∅.

Definition three_segments : result_dict :=
  <["segments" := RSegments ([Scenario.segment_of 1 2 "a"]
                             ++ no_times :: [Scenario.segment_of 6 8 "c"])]> ∅.

(** A result with segments only, as WhisperX gives it. *)
Definition two_segments : list segment_dict :=
  [Scenario.segment_of 1 2 " Good morning. "; Scenario.segment_of 6 8 "Hello."].

Definition segments_only : result_dict := <["segments" := RSegments two_segments]> ∅.

(** A config file with a comment, a token between blanks, and a second
    token. *)
Definition config_lines : list string :=
  ["# settings" +:+ newline; "HF_TOKEN= hf_abc " +:+ newline; "HF_TOKEN=hf_other"].

Definition config_machine : ConfigWorld :=
  {| Path_home := Ok "/Users/me";
     config_exists := λ path, Ok (bool_decide (path = config_file "/Users/me"));
     config_open := λ _, Ok (config_lines, None) |}.

(** The same machine, on which the config file cannot be opened. *)
Definition locked_machine : ConfigWorld :=
  {| Path_home := Ok "/Users/me";
     config_exists := λ path, Ok (bool_decide (path = config_file "/Users/me"));
     config_open := λ _, Raise (Exn "PermissionError" "[Errno 13] Permission denied") |}.

(** A bundle in which numpy cannot open the archive in place, and can
    open every copy of it. *)
Definition bundle : Npz.World :=
  {| Npz._is_bundled_environment := true;
     Npz.numpy_load := λ file,
       match file with
       | Npz.FilePath "weights.npz" => Raise (Exn "BadZipFile" "File is not a zip file")
       | _ => Ok 7
       end;
     Npz.tempfile_error := None;
     Npz.shutil_copy2 := λ _ _, Ok tt |}.

Definition bundle_start : Npz.State :=
  {| Npz.fs := {["weights.npz"]}; Npz._temp_files := []; Npz.stdout := [] |}.


End Cases.

(** * Properties *)

(** ** Strings and paths on examples *)

Example suffix_upper : Str.lower (Path.suffix "/data/Talk.WAV") = ".wav".
Proof. reflexivity. Qed.

Example stem_dotfile : Path.stem ".hidden" = ".hidden" ∧ Path.suffix ".hidden" = "".
Proof. split; reflexivity. Qed.

Example parent_relative : Path.parent "talk.mp3" = "." ∧ Path.parent "/a/b.c.d" = "/a".
Proof. split; reflexivity. Qed.

Example format_d_pad :
  Str.format_d 2 5 = "05" ∧ Str.format_d 3 (-1) = "-01" ∧ Str.format_d 2 123 = "123".
Proof. repeat split; reflexivity. Qed.

(** ** Timestamps *)

Section Timestamps.

Local Open Scope Z_scope.


Lemma py_int_inject (z : Z) : py_int (inject_Z z) = z.
Proof. unfold py_int, inject_Z. simpl. apply Z.quot_1_r. Qed.


Lemma Qfloor_minus_Z (q : Q) (z : Z) : Qfloor (q - inject_Z z) = Qfloor q - z.
Proof.
  destruct q as [n d]. unfold Qminus, Qplus, Qopp, inject_Z, Qfloor. simpl.
  rewrite Pos.mul_1_r, Z.mul_1_r.
  replace (n + - z * Z.pos d) with (n + (- z) * Z.pos d) by lia.
  rewrite Z.div_add by lia. lia.
Qed.




End Timestamps.

Section TimestampFormat.

Local Open Scope Z_scope.






End TimestampFormat.

Section TimestampTheorem.

Local Open Scope Z_scope.

Lemma millis_range (seconds : Q) :
  let whole := Qfloor seconds in
  let millis := Qfloor ((seconds - inject_Z whole) * 1000) in
  0 ≤ millis < 1000 ∧ whole * 1000 + millis = Qfloor (seconds * 1000).
Proof.
  intros whole millis.
  assert (Hlo : (inject_Z whole <= seconds)%Q) by apply Qfloor_le.
  assert (Hhi : (seconds < inject_Z (whole + 1))%Q) by apply Qlt_floor.
  rewrite inject_Z_plus in Hhi.
  split.
  - split.
    + change 0 with (Qfloor 0). apply Qfloor_resp_le.
      apply Qmult_le_0_compat; [| discriminate].
      apply (Qplus_le_l _ _ (inject_Z whole)). ring_simplify. exact Hlo.
    + assert (Hlt : ((seconds - inject_Z whole) * 1000 < inject_Z 1000)%Q).
      { change (inject_Z 1000) with (1 * 1000)%Q.
        apply Qmult_lt_compat_r; [reflexivity |].
        apply (Qplus_lt_l _ _ (inject_Z whole)). ring_simplify.
        eapply Qlt_le_trans; [exact Hhi |].
        apply Qle_lteq. right. change (inject_Z 1) with 1%Q. ring. }
      apply Z.lt_nge. intros Hge.
      apply (Qlt_not_le _ _ Hlt).
      eapply Qle_trans; [| apply Qfloor_le].
      rewrite <- Zle_Qle. exact Hge.
  - unfold millis.
    rewrite <- (Qfloor_comp (seconds * 1000 - inject_Z (whole * 1000))).
    + rewrite Qfloor_minus_Z. lia.
    + rewrite inject_Z_mult. change (inject_Z 1000) with 1000%Q. ring.
Qed.

End TimestampTheorem.

Section TimestampWidth.

Local Open Scope Z_scope.

Lemma length_append (s1 s2 : string) :
  String.length (s1 +:+ s2) = (String.length s1 + String.length s2)%nat.
Proof. induction s1 as [| c s1 IH]; simpl; [reflexivity | rewrite IH; reflexivity]. Qed.


End TimestampWidth.

(** ** Rounding to binary64 *)

Section Rounding.

Local Open Scope Q_scope.

Lemma pow2_pos (e : Z) : 0 < 2 ^ e.
Proof. apply Qpower_0_lt. reflexivity. Qed.

Lemma pow2_plus (a b : Z) : 2 ^ (a + b) == 2 ^ a * 2 ^ b.
Proof. apply Qpower_plus. discriminate. Qed.

Lemma pow2_le (a b : Z) : (a <= b)%Z → 2 ^ a <= 2 ^ b.
Proof. intros H. apply Qpower_le_compat_l; [exact H | discriminate]. Qed.

Lemma pow2_lt (a b : Z) : (a < b)%Z → 2 ^ a < 2 ^ b.
Proof. intros H. apply Qpower_lt_compat_l; [exact H | reflexivity]. Qed.

Lemma pow2_lt_inv (a b : Z) : 2 ^ a < 2 ^ b → (a < b)%Z.
Proof.
  intros H. destruct (Z_lt_le_dec a b) as [Hlt | Hge]; [exact Hlt |].
  apply pow2_le in Hge. lra.
Qed.

Lemma pow2_inject (n : Z) : (0 <= n)%Z → 2 ^ n == inject_Z (2 ^ n).
Proof. intros H. symmetry. apply (Zpower_Qpower 2 n H). Qed.

(** A scaling by a power of two that is not negative is an integer. *)
Lemma pow2_scale (m a b : Z) :
  (b <= a)%Z → inject_Z m * 2 ^ a / 2 ^ b == inject_Z (m * 2 ^ (a - b)).
Proof.
  intros H. pose proof (pow2_pos b) as Hb.
  replace a with ((a - b) + b)%Z at 1 by lia.
  rewrite pow2_plus, pow2_inject, inject_Z_mult by lia.
  field. lra.
Qed.

Lemma Qlog2_spec (a : Q) : 0 < a → 2 ^ F64.Qlog2 a <= a ∧ a < 2 ^ (F64.Qlog2 a + 1).
Proof.
  intros Ha. destruct a as [n d]. unfold F64.Qlog2. cbn [Qnum Qden].
  assert (Hn : (0 < n)%Z) by (unfold Qlt in Ha; simpl in Ha; lia).
  destruct (Z.log2_spec n Hn) as [Hn1 Hn2].
  destruct (Z.log2_spec (Z.pos d) (Pos2Z.is_pos d)) as [Hd1 Hd2].
  pose proof (Z.log2_nonneg n) as Hln. pose proof (Z.log2_nonneg (Z.pos d)) as Hld.
  set (ln := Z.log2 n) in *. set (ld := Z.log2 (Z.pos d)) in *.
  assert (Heq : n # d == inject_Z n / inject_Z (Z.pos d)) by apply Qmake_Qdiv.
  assert (Hdpos : 0 < inject_Z (Z.pos d)) by (rewrite <- (Zlt_Qlt 0); lia).
  assert (Hlow : 2 ^ (ln - ld - 1) < n # d).
  { rewrite Heq. apply Qlt_shift_div_l; [exact Hdpos |].
    apply Qlt_le_trans with (2 ^ (ln - ld - 1) * 2 ^ (ld + 1)).
    - apply Qmult_lt_l; [apply pow2_pos |].
      rewrite pow2_inject by lia. rewrite <- Zlt_Qlt. exact Hd2.
    - rewrite <- pow2_plus. replace (ln - ld - 1 + (ld + 1))%Z with ln by lia.
      rewrite pow2_inject by lia. rewrite <- Zle_Qle. exact Hn1. }
  assert (Hhigh : n # d < 2 ^ (ln - ld + 1)).
  { rewrite Heq. apply Qlt_shift_div_r; [exact Hdpos |].
    apply Qlt_le_trans with (2 ^ (ln - ld + 1) * 2 ^ ld).
    - rewrite <- pow2_plus. replace (ln - ld + 1 + ld)%Z with (ln + 1)%Z by lia.
      rewrite pow2_inject by lia. rewrite <- Zlt_Qlt. exact Hn2.
    - apply Qmult_le_l; [apply pow2_pos |].
      rewrite pow2_inject by lia. rewrite <- Zle_Qle. exact Hd1. }
  destruct (Qle_bool (2 ^ (ln - ld)) (n # d)) eqn:E.
  - apply Qle_bool_iff in E. split; [exact E | exact Hhigh].
  - assert (Hlt : n # d < 2 ^ (ln - ld)).
    { apply Qnot_le_lt. intros Hle. apply Qle_bool_iff in Hle. congruence. }
    replace (ln - ld - 1 + 1)%Z with (ln - ld)%Z by lia.
    split; [apply Qlt_le_weak; exact Hlow | exact Hlt].
Qed.

Lemma round_half_even_ge (q : Q) (n : Z) : inject_Z n <= q → (n <= F64.round_half_even q)%Z.
Proof.
  intros H. assert (Hf : (n <= Qfloor q)%Z).
  { rewrite <- (Qfloor_Z n). apply Qfloor_resp_le. exact H. }
  unfold F64.round_half_even.
  destruct (Qcompare _ _); [destruct (Z.even _) | |]; lia.
Qed.

Lemma round_half_even_le_half (q : Q) (n : Z) :
  q < inject_Z n + (1 # 2) → (F64.round_half_even q <= n)%Z.
Proof.
  intros H.
  assert (Hf : (Qfloor q <= n)%Z).
  { apply Z.lt_succ_r. apply Z.lt_nge. intros Hge.
    assert (Hq : inject_Z (n + 1) <= q).
    { eapply Qle_trans; [| apply Qfloor_le]. rewrite <- Zle_Qle. lia. }
    rewrite inject_Z_plus in Hq. change (inject_Z 1) with 1 in Hq. lra. }
  unfold F64.round_half_even.
  destruct (Z.eq_dec (Qfloor q) n) as [Heq | Hne].
  - assert (Hlt : q - inject_Z (Qfloor q) < 1 # 2) by (rewrite Heq; lra).
    destruct (Qcompare (q - inject_Z (Qfloor q)) (1 # 2)) eqn:E; [| lia |].
    + apply Qeq_alt in E. lra.
    + apply Qgt_alt in E. lra.
  - destruct (Qcompare _ _); [destruct (Z.even _) | |]; lia.
Qed.

Lemma round_half_even_le (q : Q) (n : Z) : q <= inject_Z n → (F64.round_half_even q <= n)%Z.
Proof. intros H. apply round_half_even_le_half. lra. Qed.

End Rounding.

Section RoundBounds.

Local Open Scope Q_scope.

Lemma round_comp (a b : Q) : a == b → F64.round a = F64.round b.
Proof. intros H. unfold F64.round. rewrite (Qred_complete a b H). reflexivity. Qed.

Lemma round_zero (a : Q) : a == 0 → F64.round a = Finite 0.
Proof. intros H. rewrite (round_comp a 0 H). reflexivity. Qed.

Lemma Qabs_of_pos (a : Q) : 0 < a → Qabs a = a.
Proof.
  destruct a as [n d]. unfold Qlt. simpl. intros H.
  rewrite Z.abs_eq by lia. reflexivity.
Qed.

Lemma negative_false (a : Q) : 0 <= a → F64.negative a = false.
Proof.
  intros H. unfold F64.negative. apply Qle_bool_iff in H. rewrite H. reflexivity.
Qed.

Lemma negative_true (a : Q) : a < 0 → F64.negative a = true.
Proof.
  intros H. unfold F64.negative. destruct (Qle_bool 0 a) eqn:E; [| reflexivity].
  apply Qle_bool_iff in E. lra.
Qed.

Lemma round_pos (a : Q) :
  0 < a →
  F64.round a = if Qle_bool (2 ^ 1024) (rounded a) then Inf false else Finite (rounded a).
Proof.
  intros Ha. assert (Hr : 0 < Qred a) by (rewrite Qred_correct; exact Ha).
  unfold F64.round, rounded, grid. cbv zeta.
  destruct (Qeq_bool (Qred a) 0) eqn:E; [apply Qeq_bool_eq in E; lra |].
  rewrite (Qabs_of_pos _ Hr), (negative_false (Qred a)) by lra. reflexivity.
Qed.

Lemma round_opp (a : Q) : 0 < a → F64.round (- a) = F64.neg (F64.round a).
Proof.
  intros Ha. assert (Hr : 0 < Qred a) by (rewrite Qred_correct; exact Ha).
  rewrite (round_pos a Ha). unfold F64.round, rounded, grid. cbv zeta.
  rewrite Qred_opp.
  destruct (Qeq_bool (- Qred a) 0) eqn:E; [apply Qeq_bool_eq in E; lra |].
  assert (Habs : Qabs (- Qred a) = Qred a).
  { rewrite <- (Qabs_of_pos _ Hr) at 2. destruct (Qred a) as [n d]. simpl.
    unfold Qabs, Qopp. simpl. rewrite Z.abs_opp. reflexivity. }
  rewrite Habs, (negative_true (- Qred a)) by lra.
  destruct (Qle_bool _ _); reflexivity.
Qed.

Lemma rounded_eq (a : Q) :
  rounded a == inject_Z (F64.round_half_even (Qred a / 2 ^ grid a)) * 2 ^ grid a.
Proof. unfold rounded. apply Qred_correct. Qed.

(** Rounding does not cross a point of the grid. *)
Lemma rounded_le (a : Q) (n : Z) :
  a <= inject_Z n * 2 ^ grid a → rounded a <= inject_Z n * 2 ^ grid a.
Proof.
  intros H. pose proof (pow2_pos (grid a)) as Hp. rewrite rounded_eq.
  apply Qmult_le_r; [exact Hp |]. rewrite <- Zle_Qle.
  apply round_half_even_le. apply Qle_shift_div_r; [exact Hp |].
  rewrite Qred_correct. exact H.
Qed.

Lemma rounded_ge (a : Q) (n : Z) :
  inject_Z n * 2 ^ grid a <= a → inject_Z n * 2 ^ grid a <= rounded a.
Proof.
  intros H. pose proof (pow2_pos (grid a)) as Hp. rewrite rounded_eq.
  apply Qmult_le_r; [exact Hp |]. rewrite <- Zle_Qle.
  apply round_half_even_ge. apply Qle_shift_div_l; [exact Hp |].
  rewrite Qred_correct. exact H.
Qed.

Lemma grid_le (a : Q) (k : Z) : 0 < a → a < 2 ^ (k + 53) → (-1074 <= k)%Z → (grid a <= k)%Z.
Proof.
  intros Ha Hlt Hk. unfold grid.
  assert (Hr : 0 < Qred a) by (rewrite Qred_correct; exact Ha).
  destruct (Qlog2_spec (Qred a) Hr) as [Hlow _]. pose proof (Qred_correct a) as Hred.
  assert (H : (F64.Qlog2 (Qred a) < k + 53)%Z) by (apply pow2_lt_inv; lra).
  lia.
Qed.

(** A value that is not above a binary64 value is not rounded above it. *)
Lemma round_pos_le (a b : Q) :
  0 < a → a <= b → binary64 b →
  ∃ r, F64.round a = Finite r ∧ 0 <= r ∧ r <= b.
Proof.
  intros Ha Hab (m & e & Hm & He & Hb).
  pose proof (pow2_pos e) as Hpe. pose proof (pow2_pos (grid a)) as Hpg.
  assert (Hmpos : (0 < m)%Z).
  { apply Z.lt_nge. intros Hle.
    assert (inject_Z m <= 0) by (change 0 with (inject_Z 0); rewrite <- Zle_Qle; exact Hle).
    assert (inject_Z m * 2 ^ e <= 0) by nra. lra. }
  assert (Hm' : inject_Z m < 2 ^ 53).
  { rewrite pow2_inject by lia. rewrite <- Zlt_Qlt. lia. }
  assert (Hgrid : (grid a <= e)%Z).
  { apply grid_le; [exact Ha | | lia]. rewrite Z.add_comm, pow2_plus. 
    apply Qle_lt_trans with (inject_Z m * 2 ^ e); [lra |].
    apply Qmult_lt_r; assumption. }
  assert (Hscale : b == inject_Z (m * 2 ^ (e - grid a)) * 2 ^ grid a).
  { rewrite Hb, <- (pow2_scale m e (grid a) Hgrid). field. lra. }
  assert (Hle : rounded a <= b).
  { rewrite Hscale. apply rounded_le. rewrite <- Hscale. exact Hab. }
  assert (Hge : 0 <= rounded a).
  { assert (H0 : inject_Z 0 * 2 ^ grid a <= rounded a).
    { apply rounded_ge. change (inject_Z 0) with 0. lra. }
    change (inject_Z 0) with 0 in H0. lra. }
  assert (Hmax : b < 2 ^ 1024).
  { rewrite Hb. apply Qlt_le_trans with (2 ^ 53 * 2 ^ e).
    - apply Qmult_lt_r; assumption.
    - rewrite <- pow2_plus. apply pow2_le. lia. }
  rewrite (round_pos a Ha).
  destruct (Qle_bool (2 ^ 1024) (rounded a)) eqn:E; [apply Qle_bool_iff in E; lra |].
  exists (rounded a). auto.
Qed.

Lemma binary64_opp (b : Q) : binary64 b → binary64 (- b).
Proof.
  intros (m & e & Hm & He & Hb). exists (- m)%Z, e.
  split; [lia |]. split; [exact He |]. rewrite Hb, inject_Z_opp. ring.
Qed.

Lemma binary64_integer (n : Z) : (Z.abs n <= 2 ^ 53)%Z → binary64 (inject_Z n).
Proof.
  intros Hn. destruct (Z.eq_dec (Z.abs n) (2 ^ 53)%Z) as [Heq | Hne].
  - change (2 ^ 53)%Z with 9007199254740992%Z in Heq.
    assert (Hcases : n = 9007199254740992%Z ∨ n = (-9007199254740992)%Z) by lia.
    destruct Hcases as [-> | ->];
      [exists 4503599627370496%Z, 1%Z | exists (-4503599627370496)%Z, 1%Z];
      (split; [vm_compute; reflexivity | split; [lia | vm_compute; reflexivity]]).
  - exists n, 0%Z. split; [lia |]. split; [lia |]. change (2 ^ 0) with 1. ring.
Qed.

(** A value whose size is not above a binary64 value rounds to a finite
    value, of a size not above it either. *)
Lemma round_abs_le (a b : Q) :
  Qabs a <= b → binary64 b → ∃ r, F64.round a = Finite r ∧ Qabs r <= b.
Proof.
  intros Hab Hb. pose proof (Qabs_nonneg a) as H0.
  destruct (Q_dec a 0) as [[Hneg | Hpos] | Hzero].
  - assert (Ha : 0 < - a) by lra.
    assert (Hle : - a <= b) by (rewrite (Qabs_neg a) in Hab by lra; exact Hab).
    destruct (round_pos_le (- a) b Ha Hle Hb) as (r & Hr & Hr0 & Hrb).
    rewrite (round_comp a (- - a)) by ring. rewrite (round_opp _ Ha), Hr. simpl.
    exists (- r). split; [reflexivity |]. rewrite Qabs_opp, Qabs_pos; assumption.
  - assert (Hle : a <= b) by (rewrite (Qabs_pos a) in Hab by lra; exact Hab).
    destruct (round_pos_le a b Hpos Hle Hb) as (r & Hr & Hr0 & Hrb).
    exists r. split; [exact Hr |]. rewrite Qabs_pos; assumption.
  - rewrite (round_zero a Hzero). exists 0. split; [reflexivity |].
    change (Qabs 0) with 0. lra.
Qed.


End RoundBounds.

(** ** The fields of a timestamp, on a float *)

Section FloatFields.

Local Open Scope Q_scope.

Lemma Qeq_bool_pos (w : positive) : Qeq_bool (Z.pos w # 1) 0 = false.
Proof. reflexivity. Qed.








End FloatFields.

Section FloatTimestamp.

Local Open Scope Q_scope.






End FloatTimestamp.

(** ** A timestamp of every finite float *)

Section FloatTotal.

Local Open Scope Q_scope.

Lemma py_int_bounds (x : Q) :
  (0 <= x → 0 <= inject_Z (py_int x) ∧ inject_Z (py_int x) <= x)
  ∧ (x <= 0 → inject_Z (py_int x) <= 0 ∧ x <= inject_Z (py_int x))
  ∧ x - 1 < inject_Z (py_int x) ∧ inject_Z (py_int x) < x + 1.
Proof.
  destruct x as [n d]. unfold Qminus. unfold py_int, Qle, Qlt, Qplus, Qopp, inject_Z.
  cbn [Qnum Qden]. rewrite ?Z.mul_1_r, ?Pos.mul_1_r.
  pose proof (Z.quot_rem' n (Z.pos d)) as Hqr.
  set (k := (n ÷ Z.pos d)%Z) in *.
  assert (Hd : (0 < Z.pos d)%Z) by lia.
  destruct (Z_le_gt_dec 0 n) as [Hn | Hn].
  - pose proof (Z.rem_bound_pos_pos n (Z.pos d) Hd Hn) as Hb.
    set (r := Z.rem n (Z.pos d)) in *. clearbody k r.
    assert (0 <= k)%Z by nia.
    repeat split; intros; nia.
  - pose proof (Z.rem_bound_pos_neg n (Z.pos d) Hd ltac:(lia)) as Hb.
    set (r := Z.rem n (Z.pos d)) in *. clearbody k r.
    assert (k <= 0)%Z by nia.
    repeat split; intros; nia.
Qed.

(** C's [fmod]: the sign of the dividend, and smaller than the divisor. *)
Lemma fmod_finite (q : Q) (w : positive) :
  ∃ m, F64.fmod (Finite q) (Finite (Z.pos w # 1)) = Finite m
       ∧ (0 <= q → 0 <= m ∧ m < (Z.pos w # 1) ∧ m <= q)
       ∧ (q <= 0 → - (Z.pos w # 1) < m ∧ m <= 0 ∧ q <= m).
Proof.
  exists (q - (Z.pos w # 1) * inject_Z (py_int (q / (Z.pos w # 1)))).
  split; [unfold F64.fmod; rewrite Qeq_bool_pos; reflexivity |].
  assert (Hw : 0 < Z.pos w # 1) by reflexivity.
  set (W := Z.pos w # 1) in *.
  assert (Hx : q == q / W * W) by (field; lra).
  destruct (py_int_bounds (q / W)) as (Hpos & Hneg & Hlow & Hhigh).
  set (x := q / W) in *. set (k := inject_Z (py_int x)) in *.
  split; intros Hq.
  - assert (H0 : 0 <= x) by (unfold x; apply Qle_shift_div_l; lra).
    destruct (Hpos H0). repeat split; nra.
  - assert (H0 : x <= 0) by (unfold x; apply Qle_shift_div_r; lra).
    destruct (Hneg H0). repeat split; nra.
Qed.

Lemma rem_finite (q : Q) (w : positive) :
  (Z.pos w <= 2 ^ 53)%Z →
  ∃ r, F64.rem (Finite q) (Finite (Z.pos w # 1)) = Finite r ∧ Qabs r <= (Z.pos w # 1).
Proof.
  intros Hw53. destruct (fmod_finite q w) as (m & Hm & Hpos & Hneg).
  assert (Hw : 0 < Z.pos w # 1) by reflexivity.
  unfold F64.rem. rewrite Hm. simpl.
  change (F64.negative (Z.pos w # 1)) with false.
  destruct (Qeq_bool m 0) eqn:E; simpl.
  { exists 0. split; [reflexivity |]. apply Qabs_Qle_condition. lra. }
  destruct (Qlt_le_dec m 0) as [Hlt | Hge].
  - rewrite (negative_true m Hlt). simpl.
    assert (Hq : q <= 0).
    { destruct (Qlt_le_dec 0 q) as [H | H]; [| exact H].
      destruct Hpos; lra. }
    destruct (Hneg Hq) as (H1 & H2 & H3).
    apply round_abs_le; [apply Qabs_Qle_condition; lra |].
    apply (binary64_integer (Z.pos w)). lia.
  - rewrite (negative_false m Hge). simpl. exists m. split; [reflexivity |].
    assert (Hq : 0 <= q).
    { destruct (Qlt_le_dec q 0) as [H | H]; [| exact H].
      destruct Hneg as (H1 & H2 & H3); [lra |].
      assert (Hz : m == 0) by lra. apply Qeq_bool_neq in E. contradiction. }
    destruct (Hpos Hq) as (H1 & H2 & H3). apply Qabs_Qle_condition. lra.
Qed.

Lemma binary64_scaled (c : Z) : (Z.abs c < 2 ^ 53)%Z → binary64 (inject_Z c * 2 ^ 971).
Proof. intros Hc. exists c, 971%Z. split; [exact Hc |]. split; [lia | reflexivity]. Qed.

(** No finite binary64 value is above [(2^53 - 1) * 2^971]. *)
Lemma binary64_max (q : Q) :
  binary64 q → Qabs q <= 9007199254740991 * 2 ^ 971.
Proof.
  intros (m & e & Hm & He & Heq).
  pose proof (pow2_pos e) as Hp. pose proof (pow2_le e 971 (proj2 He)) as Hle.
  change (2 ^ 53)%Z with 9007199254740992%Z in Hm.
  assert (H1 : inject_Z m <= 9007199254740991).
  { change 9007199254740991 with (inject_Z 9007199254740991). rewrite <- Zle_Qle. lia. }
  assert (H2 : - (9007199254740991) <= inject_Z m).
  { change (- (9007199254740991)) with (inject_Z (-9007199254740991)). rewrite <- Zle_Qle. lia. }
  set (t := 2 ^ 971) in *. set (p := 2 ^ e) in *. set (x := inject_Z m) in *.
  apply Qabs_Qle_condition. rewrite Heq. split; nra.
Qed.

Lemma floordiv_finite (q : Q) (w : positive) :
  (2 <= Z.pos w)%Z → Qabs q <= 9007199254740991 * 2 ^ 971 →
  ∃ r, F64.floordiv (Finite q) (Finite (Z.pos w # 1)) = Finite r.
Proof.
  intros Hw2 Hmax. destruct (fmod_finite q w) as (m & Hm & Hpos & Hneg).
  assert (Hw : 2 <= Z.pos w # 1).
  { change 2 with (inject_Z 2). change (Z.pos w # 1) with (inject_Z (Z.pos w)).
    rewrite <- Zle_Qle. exact Hw2. }
  assert (Ht : 1 <= 2 ^ 971) by (change 1 with (2 ^ 0); apply pow2_le; lia).
  pose proof (binary64_scaled 9007199254740991 eq_refl) as Hbmax.
  pose proof (binary64_scaled 4503599627370496 eq_refl) as Hbhalf.
  pose proof (binary64_scaled 4503599627370497 eq_refl) as Hbnext.
  change (inject_Z 9007199254740991) with 9007199254740991 in Hbmax.
  change (inject_Z 4503599627370496) with 4503599627370496 in Hbhalf.
  change (inject_Z 4503599627370497) with 4503599627370497 in Hbnext.
  set (W := Z.pos w # 1) in *. set (t := 2 ^ 971) in *.
  apply Qabs_Qle_condition in Hmax.
  destruct (round_abs_le (q + - m) (9007199254740991 * t)) as (r1 & Hr1 & Hv1);
    [| exact Hbmax |].
  { apply Qabs_Qle_condition.
    destruct (Qlt_le_dec q 0) as [H | H];
      [destruct Hneg as (? & ? & ?) | destruct Hpos as (? & ? & ?)]; lra. }
  apply Qabs_Qle_condition in Hv1.
  destruct (round_abs_le (r1 / W) (4503599627370496 * t)) as (r2 & Hr2 & Hv2);
    [| exact Hbhalf |].
  { apply Qabs_Qle_condition. split.
    - apply Qle_shift_div_l; [lra |]. nra.
    - apply Qle_shift_div_r; [lra |]. nra. }
  apply Qabs_Qle_condition in Hv2.
  destruct (round_abs_le (r2 + - 1) (4503599627370497 * t)) as (r3 & Hr3 & Hv3);
    [| exact Hbnext |].
  { apply Qabs_Qle_condition. lra. }
  apply Qabs_Qle_condition in Hv3.
  unfold F64.floordiv, F64._float_div_mod. rewrite Hm.
  assert (Hsub : F64.sub (Finite q) (Finite m) = Finite r1) by exact Hr1.
  rewrite Hsub. unfold F64.div. fold W.
  assert (HW0 : Qeq_bool W 0 = false) by apply Qeq_bool_pos.
  rewrite HW0, Hr2.
  assert (Hone : F64.sub (Finite r2) (Finite 1) = Finite r3) by exact Hr3.
  rewrite Hone.
  assert (Hdiv : ∃ d, (if F64.nonzero (Finite m)
                       then if negb (eqb (F64.lt_0 (Finite W)) (F64.lt_0 (Finite m)))
                            then (F64.add (Finite m) (Finite W), Finite r3)
                            else (Finite m, Finite r2)
                       else (Finite 0, Finite r2)).2 = Finite d
                      ∧ - (4503599627370497 * t) <= d ∧ d <= 4503599627370497 * t).
  { destruct (F64.nonzero (Finite m));
      [destruct (negb (eqb (F64.lt_0 (Finite W)) (F64.lt_0 (Finite m)))) |];
      simpl; eexists; (split; [reflexivity | lra]). }
  destruct (if F64.nonzero (Finite m) then _ else _) as [mod_ div_].
  destruct Hdiv as (d & Hd & Hlow & Hhigh). simpl in Hd. subst div_. simpl.
  destruct (Qeq_bool d 0); simpl; [eexists; reflexivity |].
  destruct (F64.gt _ _); [| eexists; reflexivity].
  destruct (round_abs_le (inject_Z (Qfloor d) + 1) (9007199254740991 * t))
    as (r & Hr & _); [| exact Hbmax | exists r; exact Hr].
  pose proof (Qfloor_le d) as H1. pose proof (Qlt_floor d) as H2.
  rewrite inject_Z_plus in H2. change (inject_Z 1) with 1 in H2.
  apply Qabs_Qle_condition. lra.
Qed.

Lemma to_int_finite (x : float64) (r : Q) : x = Finite r → F64.to_int x = Ok (py_int r).
Proof. intros ->. reflexivity. Qed.

(** Every finite float has a timestamp. *)
Lemma timestamp_of_float (q : Q) :
  binary64 q → ∃ text, format_timestamp_srt (VFloat q) = Ok text.
Proof.
  intros Hbin. pose proof (binary64_max q Hbin) as Hmax.
  destruct (floordiv_finite q 3600) as (h & Hh); [lia | exact Hmax |].
  destruct (rem_finite q 3600) as (r & Hr & Hrb); [change (2 ^ 53)%Z with 9007199254740992%Z; lia |].
  destruct (floordiv_finite r 60) as (m & Hmin); [lia | |].
  { assert (Ht : 1 <= 2 ^ 971) by (change 1 with (2 ^ 0); apply pow2_le; lia).
    eapply Qle_trans; [exact Hrb |]. change (Z.pos 3600 # 1) with 3600.
    set (t := 2 ^ 971) in *. lra. }
  destruct (rem_finite q 60) as (s & Hs & _); [change (2 ^ 53)%Z with 9007199254740992%Z; lia |].
  destruct (rem_finite q 1) as (f & Hf & Hfb); [change (2 ^ 53)%Z with 9007199254740992%Z; lia |].
  destruct (round_abs_le (f * 1000) 1000) as (ms & Hms & _).
  { apply Qabs_Qle_condition. apply Qabs_Qle_condition in Hfb.
    change (Z.pos 1 # 1) with 1 in Hfb. lra. }
  { apply (binary64_integer 1000). change (2 ^ 53)%Z with 9007199254740992%Z. lia. }
  unfold format_timestamp_srt. simpl as_int. simpl as_float. cbv iota.
  change (Finite 3600) with (Finite (Z.pos 3600 # 1)).
  change (Finite 60) with (Finite (Z.pos 60 # 1)).
  change (Finite 1) with (Finite (Z.pos 1 # 1)).
  rewrite Hh, Hr, Hmin, Hs, Hf.
  assert (Hmul : F64.mul (Finite f) (Finite 1000) = Finite ms) by exact Hms.
  rewrite Hmul. simpl. eexists. reflexivity.
Qed.

End FloatTotal.

Section TimestampClaim.

Local Open Scope Z_scope.





End TimestampClaim.

(** ** The diarization merge *)

Section Merge.

Lemma Qle_bool_decide (x y : Q) : Qle_bool x y = bool_decide (x <= y)%Q.
Proof.
  destruct (Qle_bool x y) eqn:E.
  - symmetry. apply bool_decide_eq_true, Qle_bool_iff, E.
  - symmetry. apply bool_decide_eq_false. intros H.
    apply Qle_bool_iff in H. congruence.
Qed.

(** The comparisons of a float with a finite number. *)
Lemma float_le_number (a : Q) (v : pyval) (q : Q) :
  as_number v = Some q → float_le a v = Ok (Qle_bool a q).
Proof. destruct v; simpl; intros H; try discriminate; injection H as <-; reflexivity. Qed.

Lemma le_float_number (v : pyval) (b q : Q) :
  as_number v = Some q → le_float v b = Ok (Qle_bool q b).
Proof. destruct v; simpl; intros H; try discriminate; injection H as <-; reflexivity. Qed.

(** The inner loop collects the labels of the turns that touch the
    segment, in the order of the turns. *)
Lemma collect_speakers_touches (turns : list turn) (a b : pyval) (s e : Q) :
  as_number a = Some s → as_number b = Some e →
  collect_speakers turns a b = Ok (turn_label <$> filter (touches s e) turns).
Proof.
  intros Ha Hb. induction turns as [| t turns IH]; [reflexivity |].
  simpl. rewrite IH. unfold turn_matches, inside_turn.
  rewrite !(float_le_number _ _ _ Ha), !(float_le_number _ _ _ Hb),
    !(le_float_number _ _ _ Ha), !(le_float_number _ _ _ Hb).
  simpl. rewrite !Qle_bool_decide, filter_cons.
  unfold touches.
  repeat case_bool_decide; simpl; case_decide; simpl; try reflexivity; tauto.
Qed.

(** [max] returns the first item of the iteration that no item exceeds. *)
Lemma max_from_first {A} (key : A → nat) (best : A) (l : list A) :
  ∃ pre post,
    best :: l = pre ++ max_from key best l :: post
    ∧ (∀ x, x ∈ pre → key x < key (max_from key best l))
    ∧ (∀ x, x ∈ post → key x ≤ key (max_from key best l)).
Proof.
  revert best. induction l as [| x l IH]; intros best; simpl.
  - exists [], []. repeat split; intros y Hy; inversion Hy.
  - destruct (IH (if key best <? key x then x else best)) as (pre & post & Heq & Hpre & Hpost).
    remember (max_from key (if key best <? key x then x else best) l) as m eqn:Em.
    clear Em. destruct (key best <? key x) eqn:E.
    + apply Nat.ltb_lt in E.
      exists (best :: pre), post. rewrite Heq. repeat split; [| exact Hpost].
      intros y Hy. apply elem_of_cons in Hy as [-> | Hy]; [| auto].
      assert (Hx : x ∈ pre ++ m :: post) by (rewrite <- Heq; left).
      apply elem_of_app in Hx as [Hx | Hx]; [specialize (Hpre _ Hx); lia |].
      apply elem_of_cons in Hx as [-> | Hx]; [lia | specialize (Hpost _ Hx); lia].
    + apply Nat.ltb_ge in E.
      destruct pre as [| b pre]; simpl in Heq; injection Heq as Hb Hl.
      * subst m. exists [], (x :: l). repeat split.
        -- intros y Hy. inversion Hy.
        -- intros y Hy. apply elem_of_cons in Hy as [-> | Hy]; [lia |].
           apply Hpost. rewrite <- Hl. exact Hy.
      * exists (b :: x :: pre), post. rewrite Hl. subst b. repeat split; [| exact Hpost].
        intros y Hy. assert (Hb : key best < key m) by (apply Hpre; left).
        apply elem_of_cons in Hy as [-> | Hy]; [exact Hb |].
        apply elem_of_cons in Hy as [-> | Hy]; [lia |].
        apply Hpre. right. exact Hy.
Qed.

Lemma count_not_in (x : string) (l : list string) : x ∉ l → count x l = 0.
Proof.
  induction l as [| y l IH]; [reflexivity |]. intros Hx. simpl.
  apply not_elem_of_cons in Hx as [Hxy Hx]. rewrite IH by exact Hx.
  case_decide; [congruence | reflexivity].
Qed.

Lemma count_in (x : string) (l : list string) : x ∈ l → 0 < count x l.
Proof.
  induction l as [| y l IH]; intros Hx; [inversion Hx |]. simpl.
  case_decide; [lia |].
  apply elem_of_cons in Hx as [-> | Hx]; [congruence | apply IH in Hx; lia].
Qed.

(** The vote among the collected labels: the winner is a label that
    occurs most often; among the labels that do, it is the one that the
    iteration of the set yields first. *)
Lemma vote_most_frequent (order : list string → list string) (speakers : list string) :
  set_iter_ok order → speakers ≠ [] →
  ∃ speaker pre post,
    py_max (λ x, count x speakers) (order speakers) = Ok speaker
    ∧ order speakers = pre ++ speaker :: post
    ∧ speaker ∈ speakers
    ∧ (∀ l, count l speakers ≤ count speaker speakers)
    ∧ (∀ l, l ∈ pre → count l speakers < count speaker speakers).
Proof.
  intros Hok Hne. destruct (Hok speakers) as [Hdup Hmem].
  destruct (order speakers) as [| x l] eqn:E.
  { destruct speakers as [| y speakers]; [congruence |].
    assert (H : y ∈ @nil string) by (apply Hmem; left). inversion H. }
  simpl. destruct (max_from_first (λ x, count x speakers) x l) as (pre & post & Heq & Hpre & Hpost).
  set (m := max_from (λ x, count x speakers) x l) in *.
  assert (Hm : m ∈ x :: l) by (rewrite Heq; apply elem_of_app; right; left).
  exists m, pre, post. repeat split; [exact Heq | apply Hmem, Hm | | exact Hpre].
  intros lbl. destruct (decide (lbl ∈ speakers)) as [Hin | Hout].
  - apply Hmem in Hin. rewrite Heq in Hin.
    apply elem_of_app in Hin as [Hin | Hin]; [specialize (Hpre _ Hin); simpl in Hpre; lia |].
    apply elem_of_cons in Hin as [-> | Hin]; [lia | apply (Hpost _ Hin)].
  - rewrite (count_not_in _ _ Hout). lia.
Qed.

Lemma segment_times_inv (segment : segment_dict) (s e : Q) :
  segment_times segment = Some (s, e) →
  ∃ a b, segment !! "start" = Some a ∧ segment !! "end" = Some b
         ∧ as_number a = Some s ∧ as_number b = Some e.
Proof.
  unfold segment_times. intros H.
  destruct (segment !! "start") as [a |]; [| discriminate].
  destruct (segment !! "end") as [b |]; [| discriminate].
  destruct (as_number a) as [s' |] eqn:Ea; [| discriminate].
  destruct (as_number b) as [e' |] eqn:Eb; [| discriminate].
  injection H as -> ->. exists a, b. repeat split; assumption.
Qed.

(** One iteration of the loop over the segments. *)
Lemma segment_speaker_spec (order : list string → list string) (turns : list turn)
    (segment : segment_dict) (s e : Q) :
  set_iter_ok order →
  segment_times segment = Some (s, e) →
  let speakers := turn_label <$> filter (touches s e) turns in
  ∃ speaker,
    segment_speaker order turns segment = Ok speaker
    ∧ (speakers = [] → speaker = "UNKNOWN")
    ∧ (speakers ≠ [] →
       ∃ pre post, order speakers = pre ++ speaker :: post
         ∧ speaker ∈ speakers
         ∧ (∀ l, count l speakers ≤ count speaker speakers)
         ∧ (∀ l, l ∈ pre → count l speakers < count speaker speakers)).
Proof.
  intros Hok Ht speakers.
  destruct (segment_times_inv _ _ _ Ht) as (a & b & Ha & Hb & Hs & He).
  unfold segment_speaker, getitem. rewrite Ha, Hb. simpl.
  rewrite (collect_speakers_touches turns a b s e Hs He). simpl.
  fold speakers. destruct speakers as [| x l] eqn:E.
  - exists "UNKNOWN". split; [reflexivity |]. split; [reflexivity | congruence].
  - destruct (vote_most_frequent order (x :: l) Hok) as (spk & pre & post & Hmax & Hrest);
      [discriminate |].
    exists spk. split; [exact Hmax |]. split; [discriminate |].
    intros _. exists pre, post. exact Hrest.
Qed.

(** C3, as the code has it. For every segment with a start and an end
    time, the merge collects the labels of exactly the turns [t] with
    [t.start <= s.start <= t.end] or [t.start <= s.end <= t.end], in the
    order of the turns, and stores a label under ['speaker']: "UNKNOWN"
    when no turn matches; the label of the turn when exactly one turn
    matches, or when every matching turn carries the label of a turn that
    contains the segment; in general a label that no other label of the
    matching turns outnumbers. *)
Theorem C3_merge_assigns_speakers (order : list string → list string)
    (turns : list turn) (segments : list segment_dict) :
  set_iter_ok order →
  Forall (λ segment, is_Some (segment_times segment)) segments →
  ∃ segments',
    merge_speakers order turns segments = (segments', None)
    ∧ length segments' = length segments
    ∧ ∀ i segment s e,
        segments !! i = Some segment → segment_times segment = Some (s, e) →
        let matched := filter (touches s e) turns in
        (∃ a b, segment !! "start" = Some a ∧ segment !! "end" = Some b
                ∧ collect_speakers turns a b = Ok (turn_label <$> matched))
        ∧ ∃ speaker,
            segments' !! i = Some (<["speaker" := VStr speaker]> segment)
            ∧ (matched = [] → speaker = "UNKNOWN")
            ∧ (∀ t, matched = [t] → speaker = turn_label t)
            ∧ (∀ t, t ∈ turns → contains s e t →
                    (∀ t', t' ∈ matched → turn_label t' = turn_label t) →
                    speaker = turn_label t)
            ∧ (matched ≠ [] →
               speaker ∈ turn_label <$> matched
               ∧ ∀ l, count l (turn_label <$> matched)
                      ≤ count speaker (turn_label <$> matched)).
Proof.
  intros Hok Hall. induction Hall as [| segment segments [[s e] Ht] Hall IH].
  - exists []. split; [reflexivity |]. split; [reflexivity |].
    intros i segment s e Hi. inversion Hi.
  - destruct IH as (segments' & Hrun & Hlen & Hspec).
    destruct (segment_speaker_spec order turns segment s e Hok Ht)
      as (speaker & Hspk & Hnone & Hsome).
    exists (<["speaker" := VStr speaker]> segment :: segments').
    simpl. rewrite Hspk, Hrun. split; [reflexivity |]. split; [rewrite Hlen; reflexivity |].
    intros [| j] seg s' e' Hi Ht'; [| apply (Hspec j seg s' e' Hi Ht')].
    injection Hi as <-. rewrite Ht in Ht'. injection Ht' as <- <-.
    set (matched := filter (touches s e) turns) in *. split.
    { destruct (segment_times_inv _ _ _ Ht) as (a & b & Ha & Hb & Hs & He).
      exists a, b. repeat split; [exact Ha | exact Hb |].
      apply collect_speakers_touches; assumption. }
    exists speaker. split; [reflexivity |].
    assert (Hlabels : matched ≠ [] → turn_label <$> matched ≠ []).
    { intros Hne Hnil. apply fmap_nil_inv in Hnil. contradiction. }
    split; [intros Hm; apply Hnone; rewrite Hm; reflexivity |].
    split; [| split].
    + intros t Hm. destruct Hsome as (pre & post & _ & Hin & _);
        [apply Hlabels; rewrite Hm; discriminate |].
      rewrite Hm in Hin. simpl in Hin.
      apply list_elem_of_singleton in Hin. exact Hin.
    + intros t Hin Hct Hsame.
      assert (Htm : t ∈ matched).
      { apply list_elem_of_filter. split; [| exact Hin]. left. apply Hct. }
      destruct Hsome as (pre & post & _ & Hspeaker & _).
      { apply Hlabels. intros Hnil. rewrite Hnil in Htm. inversion Htm. }
      apply list_elem_of_fmap in Hspeaker as (t' & -> & Ht'in). apply Hsame, Ht'in.
    + intros Hne. destruct (Hsome (Hlabels Hne)) as (pre & post & _ & Hin & Hmax & _).
      split; assumption.
Qed.

Lemma set_iter_ok_remove_dups : set_iter_ok remove_dups.
Proof.
  intros l. split; [apply NoDup_remove_dups |]. intros x. apply elem_of_remove_dups.
Qed.

Lemma set_iter_ok_last_first : set_iter_ok Scenario.last_first.
Proof.
  intros l. unfold Scenario.last_first. split.
  - rewrite reverse_Permutation. apply NoDup_remove_dups.
  - intros x. rewrite elem_of_reverse. apply elem_of_remove_dups.
Qed.

Lemma C3_merge_witness :
  set_iter_ok remove_dups
  ∧ Forall (λ segment, is_Some (segment_times segment)) [Scenario.segment_of 5 8 "test"]
  ∧ ∃ segments',
      merge_speakers remove_dups Scenario.overlapping_turns [Scenario.segment_of 5 8 "test"]
      = (segments', None).
Proof.
  assert (H : Forall (λ segment, is_Some (segment_times segment))
                [Scenario.segment_of 5 8 "test"]).
  { repeat constructor. exists (5%Q, 8%Q). vm_compute. reflexivity. }
  split; [exact set_iter_ok_remove_dups |]. split; [exact H |].
  destruct (C3_merge_assigns_speakers remove_dups Scenario.overlapping_turns
              [Scenario.segment_of 5 8 "test"] set_iter_ok_remove_dups H)
    as (segments' & Hrun & _).
  exists segments'. exact Hrun.
Defined.

(** C3 as it is stated fails. The segment from 5 to 8 lies within
    exactly one turn, that of SPEAKER_00 from 0 to 10; two short turns
    of SPEAKER_01 each hold one of its ends, and it is labelled
    SPEAKER_01, whatever the order of set iteration. *)
Lemma C3_contained_segment_other_label :
  filter (contains 5 8) Scenario.overlapping_turns = [Turn 0 10 "SPEAKER_00"]
  ∧ speakers_of <$> returned
      (add_speaker_diarization (Scenario.diarized Scenario.overlapping_turns remove_dups)
         "talk.wav" (Scenario.one_segment_from 5 8) (Scenario.start ["talk.wav"]))
    = Some [Some (VStr "SPEAKER_01")]
  ∧ speakers_of <$> returned
      (add_speaker_diarization (Scenario.diarized Scenario.overlapping_turns Scenario.last_first)
         "talk.wav" (Scenario.one_segment_from 5 8) (Scenario.start ["talk.wav"]))
    = Some [Some (VStr "SPEAKER_01")].
Proof. repeat split; vm_compute; reflexivity. Qed.

(** C4, as the code has it. When one or more turns match a segment, the
    label it receives is one that occurs most often among the matching
    turns, so with a tie it is one of the tied labels; which one is
    decided by the order in which [set(speakers)] yields its members
    (the winner is the first of them there that no label outnumbers),
    not by the order of the turns. *)
Theorem C4_tie_broken_by_set_order (order : list string → list string)
    (turns : list turn) (segment : segment_dict) (s e : Q) :
  set_iter_ok order →
  segment_times segment = Some (s, e) →
  let speakers := turn_label <$> filter (touches s e) turns in
  speakers ≠ [] →
  ∃ speaker pre post,
    segment_speaker order turns segment = Ok speaker
    ∧ speaker ∈ speakers
    ∧ (∀ l, count l speakers ≤ count speaker speakers)
    ∧ order speakers = pre ++ speaker :: post
    ∧ (∀ l, l ∈ pre → count l speakers < count speaker speakers).
Proof.
  intros Hok Ht speakers Hne.
  destruct (segment_speaker_spec order turns segment s e Hok Ht)
    as (speaker & Hrun & _ & Hsome).
  destruct (Hsome Hne) as (pre & post & Horder & Hin & Hmax & Hpre).
  exists speaker, pre, post. repeat split; assumption.
Qed.

Lemma C4_tie_witness :
  set_iter_ok Scenario.last_first
  ∧ segment_times (Scenario.segment_of 3 7 "test") = Some (3%Q, 7%Q)
  ∧ turn_label <$> filter (touches 3 7) Scenario.two_turns ≠ []
  ∧ ∃ speaker,
      segment_speaker Scenario.last_first Scenario.two_turns
        (Scenario.segment_of 3 7 "test") = Ok speaker
      ∧ count "SPEAKER_00" ["SPEAKER_00"; "SPEAKER_01"]
        ≤ count speaker ["SPEAKER_00"; "SPEAKER_01"].
Proof.
  assert (Ht : segment_times (Scenario.segment_of 3 7 "test") = Some (3%Q, 7%Q))
    by (vm_compute; reflexivity).
  assert (Hne : turn_label <$> filter (touches 3 7) Scenario.two_turns ≠ [])
    by (vm_compute; discriminate).
  split; [exact set_iter_ok_last_first |]. split; [exact Ht |]. split; [exact Hne |].
  destruct (C4_tie_broken_by_set_order Scenario.last_first Scenario.two_turns
              (Scenario.segment_of 3 7 "test") 3 7 set_iter_ok_last_first Ht Hne)
    as (speaker & pre & post & Hrun & _ & Hmax & _).
  exists speaker. split; [exact Hrun |]. apply (Hmax "SPEAKER_00").
Defined.

(** C4 as it is stated fails. A segment from 3 to 7 starts in a turn of
    SPEAKER_00 and ends in a turn of SPEAKER_01: the labels are collected
    in this order and are tied, one to one. With a set that yields
    SPEAKER_01 first, the segment is labelled SPEAKER_01, which is not the
    label that was met first. *)
Lemma C4_tie_not_first_encountered :
  set_iter_ok Scenario.last_first
  ∧ collect_speakers Scenario.two_turns (VFloat 3) (VFloat 7)
    = Ok ["SPEAKER_00"; "SPEAKER_01"]
  ∧ first_most_frequent ["SPEAKER_00"; "SPEAKER_01"] = Some "SPEAKER_00"
  ∧ Scenario.last_first ["SPEAKER_00"; "SPEAKER_01"] = ["SPEAKER_01"; "SPEAKER_00"]
  ∧ speakers_of <$> returned
      (add_speaker_diarization (Scenario.diarized Scenario.two_turns Scenario.last_first)
         "talk.wav" (Scenario.one_segment_from 3 7) (Scenario.start ["talk.wav"]))
    = Some [Some (VStr "SPEAKER_01")].
Proof.
  split; [exact set_iter_ok_last_first |]. repeat split; vm_compute; reflexivity.
Qed.

(** The loop over the segments changes nothing but ['speaker']. *)
Lemma merge_speakers_frame (order : list string → list string) (turns : list turn)
    (segments : list segment_dict) :
  Forall2 same_but_speaker segments (merge_speakers order turns segments).1.
Proof.
  induction segments as [| segment segments IH]; simpl; [constructor |].
  destruct (segment_speaker order turns segment) as [speaker | err].
  - destruct (merge_speakers order turns segments) as [rest err]. simpl in *.
    constructor; [| exact IH].
    intros key Hkey. apply lookup_insert_ne. congruence.
  - simpl. apply Forall2_same_length_lookup. split; [reflexivity |].
    intros i x y Hx Hy key _. congruence.
Qed.

End Merge.

(** ** Temporary files *)

Section TempFiles.

Lemma append_inv_tail (s1 s2 t : string) : s1 +:+ t = s2 +:+ t → s1 = s2.
Proof.
  revert s2. induction s1 as [| c s1 IH]; intros [| d s2] H; simpl in *.
  - reflexivity.
  - apply (f_equal String.length) in H. rewrite !length_append in H. simpl in H. lia.
  - apply (f_equal String.length) in H. rewrite !length_append in H. simpl in H. lia.
  - injection H as -> H. f_equal. apply IH, H.
Qed.

Lemma temp_candidate_inj (suffix : string) : Inj (=) (=) (temp_candidate suffix).
Proof.
  intros n m H. unfold temp_candidate in H.
  apply (inj (String.app "/tmp/tmp")) in H.
  apply append_inv_tail in H. apply (inj pretty) in H. exact H.
Qed.

Lemma temp_name_find (suffix : string) (X : gset string) :
  ∃ n, temp_name suffix X = temp_candidate suffix n ∧ temp_candidate suffix n ∉ X.
Proof.
  unfold temp_name.
  set (candidates := temp_candidate suffix <$> seq 0 (S (size X))).
  destruct (list_find (λ p, p ∉ X) candidates) as [[i p] |] eqn:E; simpl.
  - apply list_find_Some in E as (Hi & Hp & _).
    apply list_lookup_fmap_Some in Hi as (n & -> & _). eauto.
  - exfalso. apply list_find_None in E.
    assert (Hsub : list_to_set candidates ⊆ X).
    { intros p Hp. apply elem_of_list_to_set in Hp.
      rewrite Forall_forall in E. specialize (E p Hp).
      destruct (decide (p ∈ X)); [assumption | contradiction]. }
    apply subseteq_size in Hsub.
    rewrite size_list_to_set in Hsub.
    + unfold candidates in Hsub. rewrite length_fmap, length_seq in Hsub. lia.
    + apply NoDup_fmap; [apply temp_candidate_inj | apply NoDup_seq].
Qed.

(** The name of a new temporary file is not the name of a file that
    exists, and it is not the empty string. *)
Lemma temp_name_fresh (suffix : string) (X : gset string) : temp_name suffix X ∉ X.
Proof. destruct (temp_name_find suffix X) as (n & -> & H). exact H. Qed.

Lemma temp_name_nonempty (suffix : string) (X : gset string) : temp_name suffix X ≠ "".
Proof. destruct (temp_name_find suffix X) as (n & -> & _). discriminate. Qed.

End TempFiles.

(** ** Running the statements *)

(** Unfolds the statements of the monad down to functions of the state. *)
Ltac unfold_monad :=
  unfold bind, ret, raise, try_except, try_finally, lift, call, logger, get, modify,
    path_exists in *.

(** Symbolic execution: the monad is unfolded and every test that the
    code makes on the world or on the state is split in two. *)
Ltac run_cases :=
  unfold_monad; simpl in *;
  repeat (case_match; simpl in *; simplify_eq; try done).

(** Brings a trace back to the form [trace st ++ new]. *)
Ltac trace_tail :=
  simpl; rewrite <- ?app_assoc; simpl;
  lazymatch goal with
  | |- ∃ new, ?t ++ ?l = ?t ++ new ∧ _ => exists l; split; [reflexivity |]
  | |- ∃ new, ?t = ?t ++ new ∧ _ => exists []; split; [symmetry; apply app_nil_r |]
  end.

(** Closes [t = trace st ++ ?new] by reading [new] off [t]. *)
Ltac solve_trace :=
  simpl; rewrite <- ?app_assoc; simpl;
  first [reflexivity | symmetry; apply app_nil_r].

(** Finds an event in a list that is written out. *)
Ltac find_event :=
  repeat first [apply list_elem_of_here | apply list_elem_of_further].

Lemma temps_app (l1 l2 : list event) : temps (l1 ++ l2) = temps l1 ++ temps l2.
Proof. apply omap_app. Qed.

Lemma temps_cons (ev : event) (l : list event) :
  temps (ev :: l) = match ev with MkTemp p => [p] | _ => [] end ++ temps l.
Proof. destruct ev; reflexivity. Qed.

Lemma engine_calls_app (l1 l2 : list event) :
  engine_calls (l1 ++ l2) = engine_calls l1 ++ engine_calls l2.
Proof. apply List.filter_app. Qed.

Lemma uneventful_app (l1 l2 : list event) :
  uneventful l1 → uneventful l2 → uneventful (l1 ++ l2).
Proof.
  intros [Ht1 He1] [Ht2 He2]. split.
  - rewrite temps_app, Ht1, Ht2. reflexivity.
  - rewrite engine_calls_app, He1, He2. reflexivity.
Qed.

Section Diarization.

Context (W : World).

Lemma same_but_speaker_refl (segments : list segment_dict) :
  Forall2 same_but_speaker segments segments.
Proof. apply Forall2_same_length_lookup. split; [done |]. intros i x y ? ? key _. congruence. Qed.

Lemma only_speakers_changed_refl (r : result_dict) : only_speakers_changed r r.
Proof. split; [done |]. split; [apply same_but_speaker_refl | done]. Qed.

Lemma put_segments_changed (r : result_dict) (segments segments' : list segment_dict) :
  get_segments r = Ok segments →
  Forall2 same_but_speaker segments segments' →
  (r !! "segments" = None → segments' = []) →
  only_speakers_changed r (put_segments r segments').
Proof.
  unfold get_segments, put_segments, only_speakers_changed, segments_of.
  intros Hget Hsame Hnone.
  destruct (r !! "segments") as [[v | l] |] eqn:E.
  - rewrite E. split; [done |]. split; [constructor | done].
  - injection Hget as ->. rewrite lookup_insert_eq.
    split; [intros key Hkey; apply lookup_insert_ne; congruence |].
    split; [exact Hsame |]. intros Hno. destruct (Hno segments). done.
  - rewrite E. split; [done |]. split; [constructor | done].
Qed.

Lemma merge_diarization_changed (diarization : list turn) (r : result_dict) (st : State) :
  ∃ r' st', merge_diarization W diarization r st = (Ok r', st')
            ∧ only_speakers_changed r r'
            ∧ fs st' = fs st
            ∧ ∃ ev, trace st' = trace st ++ [Log ev.1 ev.2].
Proof.
  unfold merge_diarization.
  destruct (get_segments r) as [segments | e] eqn:Hget.
  - pose proof (merge_speakers_frame (set_iter W) diarization segments) as Hframe.
    destruct (merge_speakers (set_iter W) diarization segments) as [segments' err] eqn:Hrun.
    simpl in Hframe.
    assert (Hchanged : only_speakers_changed r (put_segments r segments')).
    { apply (put_segments_changed r segments segments' Hget Hframe).
      intros Hnone. unfold get_segments in Hget. rewrite Hnone in Hget.
      injection Hget as <-. simpl in Hrun. congruence. }
    destruct err; run_cases; eexists _, _; (split; [reflexivity |]);
      (split; [exact Hchanged |]); (split; [reflexivity |]); simpl;
      [exists (ERROR, "Speaker diarization failed: " +:+ exn_str e)
      | exists (INFO, "✅ Speaker diarization completed")]; reflexivity.
  - run_cases. eexists _, _. split; [done |]. split; [apply only_speakers_changed_refl |].
    split; [reflexivity |]. exists (ERROR, "Speaker diarization failed: " +:+ exn_str e).
    reflexivity.
Qed.

(** [add_speaker_diarization] always returns; it creates and deletes no
    file and runs no engine. *)
Lemma add_speaker_diarization_quiet (audio_path : string) (r : result_dict) (st : State) :
  ∃ r' st' new,
    add_speaker_diarization W audio_path r st = (Ok r', st')
    ∧ only_speakers_changed r r'
    ∧ fs st' = fs st
    ∧ trace st' = trace st ++ new
    ∧ uneventful new.
Proof.
  unfold add_speaker_diarization, load_diarization_model.
  run_cases.
  all: lazymatch goal with
       | |- context [merge_diarization _ ?d ?r0 ?s0] =>
           destruct (merge_diarization_changed d r0 s0)
             as (r' & st' & Heq & Hchanged & Hfs & [lvl msg] & Htrace);
           exists r', st'; eexists;
           split; [exact Heq |]; split; [exact Hchanged |];
           split; [rewrite Hfs; reflexivity |];
           split; [rewrite Htrace; solve_trace |]; split; reflexivity
       | |- _ =>
           eexists _, _, _; split; [reflexivity |];
           split; [apply only_speakers_changed_refl |];
           split; [reflexivity |]; split; [solve_trace |]; split; reflexivity
       end.
Qed.

(** C9. Whatever the diarization does (not installed, fails to load,
    raises, or yields turns), [add_speaker_diarization] returns, and the
    result it returns differs from the one it was given at most in the
    ['speaker'] entries of the segments: every other key of the result,
    the number and order of the segments, and every other entry of each
    segment (['start'], ['end'], ['text'], ...) are as they were. *)
Theorem C9_merge_only_sets_speaker (audio_path : string) (r : result_dict) (st : State) :
  ∃ r' st',
    add_speaker_diarization W audio_path r st = (Ok r', st')
    ∧ (∀ key, key ≠ "segments" → r' !! key = r !! key)
    ∧ length (segments_of r') = length (segments_of r)
    ∧ (∀ i segment segment' key,
         segments_of r !! i = Some segment → segments_of r' !! i = Some segment' →
         key ≠ "speaker" → segment' !! key = segment !! key)
    ∧ only_speakers_changed r r'.
Proof.
  destruct (add_speaker_diarization_quiet audio_path r st)
    as (r' & st' & new & Hrun & Hchanged & _).
  exists r', st'. split; [exact Hrun |].
  pose proof Hchanged as (Hkeys & Hsegs & Hother).
  split; [exact Hkeys |]. split; [symmetry; eapply Forall2_length, Hsegs |].
  split; [| exact Hchanged].
  intros i segment segment' key Hi Hi' Hkey.
  eapply Forall2_lookup_lr in Hsegs; [| exact Hi | exact Hi']. apply Hsegs, Hkey.
Qed.

End Diarization.

(** ** preprocess_audio *)

Section Preprocess.

Context (W : World).

(** What [preprocess_audio] does to the files. It returns the path it
    was given and creates nothing, or it returns the path of a new
    temporary file, the only one it created; when it raises, the
    temporary file it may have created is gone again. The models of the
    transcriber are not touched. *)
Lemma preprocess_audio_files (audio_path : string) (st : State) :
  let run := preprocess_audio W audio_path st in
  ∃ new,
    trace run.2 = trace st ++ new
    ∧ engine_calls new = []
    ∧ whisperx_model run.2 = whisperx_model st
    ∧ diarization_pipeline run.2 = diarization_pipeline st
    ∧ match run.1 with
      | Ok (processed, _, _) =>
          audio_path ∈ fs st
          ∧ ((processed = audio_path ∧ fs run.2 = fs st ∧ temps new = [])
             ∨ ((processed ∉ fs st) ∧ processed ≠ ""
                ∧ fs run.2 = fs st ∪ {[processed]} ∧ temps new = [processed]))
      | Raise _ => fs run.2 = fs st ∧ ∀ t, t ∈ temps new → t ∉ fs st
      end.
Proof.
  pose proof (temp_name_fresh ".wav" (fs st)) as Hfresh.
  pose proof (temp_name_nonempty ".wav" (fs st)) as Hne.
  unfold preprocess_audio, direct_load, convert_audio, preprocess_failed,
    NamedTemporaryFile, os_unlink.
  cbv zeta; run_cases; trace_tail; repeat case_bool_decide; simplify_eq;
    first
      [ exfalso; set_solver
      | solve [repeat split; first [done | set_solver]]
      | solve [repeat split; try done; left; repeat split; first [done | set_solver]]
      | solve [repeat split; try done; try set_solver; right; repeat split;
               first [done | set_solver]] ].
Qed.

(** The direct load hands back what soundfile read, whatever its shape. *)
Lemma preprocess_audio_fast_path (audio_path : string) (st : State)
    (audio_data : ndarray) (sample_rate : Z) :
  audio_path ∈ fs st →
  fast_path W audio_path = true →
  sf_read W audio_path = Ok (audio_data, sample_rate) →
  (preprocess_audio W audio_path st).1 = Ok (audio_path, audio_data, 16000%Z).
Proof.
  intros Hin Hfast Hread. unfold fast_path in Hfast. rewrite Hread in Hfast.
  apply andb_true_iff in Hfast as [Hfast Hrate].
  apply bool_decide_eq_true in Hrate as ->.
  unfold preprocess_audio, direct_load. rewrite Hfast.
  unfold_monad. simpl. rewrite bool_decide_eq_true_2 by exact Hin. simpl.
  rewrite Hread. simpl. reflexivity.
Qed.

(** With librosa installed, what [preprocess_audio] returns is at 16 kHz. *)
Lemma preprocess_audio_rate (audio_path : string) (st : State)
    (processed : string) (audio_data : ndarray) (sample_rate : Z) :
  LIBROSA_AVAILABLE W = true →
  (preprocess_audio W audio_path st).1 = Ok (processed, audio_data, sample_rate) →
  sample_rate = 16000%Z.
Proof.
  intros Hlib. unfold preprocess_audio, direct_load, convert_audio, preprocess_failed,
    NamedTemporaryFile, os_unlink.
  rewrite Hlib. run_cases; intros; simpl in *; simplify_eq; try done.
  all: repeat case_bool_decide; simplify_eq; done.
Qed.

(** C5, as the code has it. Which converter runs is settled by whether
    librosa is installed, not by how the conversion goes. With librosa
    installed and the input not returned by the direct load, a failure
    of [librosa.load] ends the call: [preprocess_audio] raises
    "Audio preprocessing failed: " followed by the message of that one
    failure, no ffmpeg process is started and no temporary file is
    made. Without librosa, ffmpeg is the only attempt, librosa is never
    called, and when ffmpeg exits with an error the call raises with
    ffmpeg's diagnostic, the temporary file deleted again. *)
Theorem C5_converter_chosen_by_availability (audio_path : string) (st : State) :
  audio_path ∈ fs st →
  (LIBROSA_AVAILABLE W = true → fast_path W audio_path = false →
   ∀ e, librosa_load W audio_path 16000 true = Raise e →
   ∃ st' new,
     preprocess_audio W audio_path st
     = (Raise (RuntimeError ("Audio preprocessing failed: " +:+ exn_str e)), st')
     ∧ trace st' = trace st ++ new
     ∧ (∀ cmd, Subprocess cmd ∉ new)
     ∧ temps new = [] ∧ fs st' = fs st)
  ∧ (LIBROSA_AVAILABLE W = false → tempfile_error W = None →
     ∀ returncode stderr,
     subprocess_run W (ffmpeg_cmd audio_path (temp_name ".wav" (fs st)))
     = Ok (returncode, stderr) →
     returncode ≠ 0%Z →
     ∃ st' new,
       preprocess_audio W audio_path st
       = (Raise (RuntimeError ("Audio preprocessing failed: "
                               +:+ "FFmpeg conversion failed: " +:+ stderr)), st')
       ∧ trace st' = trace st ++ new
       ∧ Subprocess (ffmpeg_cmd audio_path (temp_name ".wav" (fs st))) ∈ new
       ∧ (∀ path, LibrosaLoad path ∉ new)
       ∧ fs st' = fs st).
Proof.
  intros Hin. pose proof (temp_name_fresh ".wav" (fs st)) as Hfresh. split.
  - intros Hlib Hfast e Hload. unfold fast_path in Hfast. rewrite Hlib in Hfast.
    unfold preprocess_audio, direct_load, convert_audio, preprocess_failed.
    rewrite Hlib. unfold_monad. simpl.
    rewrite bool_decide_eq_true_2 by exact Hin. simpl.
    destruct (bool_decide (Str.lower (Path.suffix audio_path) ∈ [".wav"; ".flac"]));
      simpl in *.
    + destruct (sf_read W audio_path) as [[d r] | e']; simpl.
      * rewrite Hfast. simpl. rewrite Hload. simpl.
        eexists _, _. split; [reflexivity |]. simpl. rewrite <- !app_assoc. simpl.
        split; [reflexivity |]. repeat split. intros cmd Hcmd. set_solver.
      * rewrite Hload. simpl.
        eexists _, _. split; [reflexivity |]. simpl. rewrite <- !app_assoc. simpl.
        split; [reflexivity |]. repeat split. intros cmd Hcmd. set_solver.
    + rewrite Hload. simpl.
      eexists _, _. split; [reflexivity |]. simpl. rewrite <- !app_assoc. simpl.
      split; [reflexivity |]. repeat split. intros cmd Hcmd. set_solver.
  - intros Hlib Htmp returncode stderr Hrun Hcode.
    unfold preprocess_audio, direct_load, convert_audio, preprocess_failed,
      NamedTemporaryFile, os_unlink.
    rewrite Hlib, Htmp, andb_false_r. unfold_monad. simpl.
    rewrite bool_decide_eq_true_2 by exact Hin. simpl.
    rewrite Hrun. simpl. rewrite bool_decide_eq_true_2 by exact Hcode. simpl.
    rewrite bool_decide_eq_true_2 by set_solver. simpl.
    destruct (decide (temp_name ".wav" (fs st) ∈ fs st ∪ {[temp_name ".wav" (fs st)]}))
      as [_ | Hout]; [| exfalso; set_solver].
    eexists _, _. split; [reflexivity |]. simpl. rewrite <- !app_assoc. simpl.
    split; [reflexivity |]. split; [set_solver |]. split; [set_solver |]. set_solver.
Qed.

End Preprocess.

Lemma C5_converter_witness :
  "talk.mp3" ∈ fs (Scenario.start ["talk.mp3"])
  ∧ raised (preprocess_audio Scenario.librosa_fails "talk.mp3" (Scenario.start ["talk.mp3"]))
    = Some (RuntimeError "Audio preprocessing failed: no audio backend can decode this file")
  ∧ raised (preprocess_audio Scenario.ffmpeg_fails "talk.mp3" (Scenario.start ["talk.mp3"]))
    = Some (RuntimeError ("Audio preprocessing failed: FFmpeg conversion failed: "
                          +:+ "Invalid data found when processing input")).
Proof.
  assert (Hin : "talk.mp3" ∈ fs (Scenario.start ["talk.mp3"])) by (vm_compute; set_solver).
  split; [exact Hin |]. split.
  - destruct (C5_converter_chosen_by_availability Scenario.librosa_fails "talk.mp3"
                (Scenario.start ["talk.mp3"]) Hin) as [Hlibrosa _].
    destruct (Hlibrosa eq_refl eq_refl _ eq_refl) as (st' & new & Hrun & _).
    unfold raised. rewrite Hrun. reflexivity.
  - destruct (C5_converter_chosen_by_availability Scenario.ffmpeg_fails "talk.mp3"
                (Scenario.start ["talk.mp3"]) Hin) as [_ Hffmpeg].
    destruct (Hffmpeg eq_refl eq_refl 1%Z "Invalid data found when processing input" eq_refl)
      as (st' & new & Hrun & _); [discriminate |].
    unfold raised. rewrite Hrun. reflexivity.
Defined.

(** C5 as it is stated fails. librosa is installed and cannot decode
    talk.mp3; ffmpeg is installed and would convert it. [preprocess_audio]
    raises after the librosa attempt alone: the trace ends at
    [librosa.load], no process was started, and the message carries the
    one diagnostic. *)
Lemma C5_librosa_failure_is_final :
  fast_path Scenario.librosa_fails "talk.mp3" = false
  ∧ subprocess_run Scenario.librosa_fails (ffmpeg_cmd "talk.mp3" "/tmp/tmp0.wav") = Ok (0%Z, "")
  ∧ raised (preprocess_audio Scenario.librosa_fails "talk.mp3" (Scenario.start ["talk.mp3"]))
    = Some (RuntimeError "Audio preprocessing failed: no audio backend can decode this file")
  ∧ trace (preprocess_audio Scenario.librosa_fails "talk.mp3" (Scenario.start ["talk.mp3"])).2
    = [Log INFO "Processing audio file: talk.mp3";
       Log INFO "Converting audio with librosa...";
       LibrosaLoad "talk.mp3"].
Proof. repeat split; vm_compute; reflexivity. Qed.

(** C2 at its failing input. A stereo WAV file at 16 kHz, with librosa
    installed: the direct load sees the sample rate it wants and returns
    the file as it is, two channels and all; nothing is converted. *)
Lemma C2_stereo_16k_returned_as_is :
  fast_path Scenario.stereo_wav "talk.wav" = true
  ∧ returned (preprocess_audio Scenario.stereo_wav "talk.wav" (Scenario.start ["talk.wav"]))
    = Some ("talk.wav", Scenario.stereo_16k, 16000%Z)
  ∧ nd_channels Scenario.stereo_16k = 2%N
  ∧ temps (trace (preprocess_audio Scenario.stereo_wav "talk.wav"
                    (Scenario.start ["talk.wav"])).2) = [].
Proof. repeat split; vm_compute; reflexivity. Qed.

(** ** The engine attempts *)

Section Engines.

Context (W : World) (self : Config).

(** The engine attempts always return; they touch no file, and when
    they leave a result that counts, [engine_used] names the engine. *)
Lemma try_engines_quiet (processed : string) (audio_data : ndarray) (sample_rate : Z)
    (st : State) :
  ∃ result engine_used st' new,
    try_engines W self processed audio_data sample_rate st
    = (Ok (result, engine_used), st')
    ∧ fs st' = fs st
    ∧ trace st' = trace st ++ new
    ∧ temps new = []
    ∧ (truthy_result result = true →
       engine_used = Some "MLX Whisper" ∨ engine_used = Some "WhisperX").
Proof.
  unfold try_engines, transcribe_with_mlx, transcribe_with_whisperx, load_whisperx_model.
  run_cases.
  all: eexists _, _, _, _; split; [reflexivity |]; split; [reflexivity |];
    split; [solve_trace |]; split; [reflexivity |]; simpl; intros; auto; done.
Qed.

Lemma whisperx_attempt_model (st st1 : State) (audio_data : ndarray) :
  whisperx_model st1 = whisperx_model st →
  whisperx_attempt W self st1 audio_data = whisperx_attempt W self st audio_data.
Proof. unfold whisperx_attempt. intros ->. reflexivity. Qed.

(** When each installed engine raises (or none is installed), the
    attempts leave no result; each failure is logged as a warning with
    its reason. *)
Lemma try_engines_all_fail (processed : string) (audio_data : ndarray) (sample_rate : Z)
    (st : State) :
  (MLX_AVAILABLE W = true →
   ∃ e, mlx_whisper_transcribe W processed (mlx_model_name self) = Raise e) →
  (WHISPERX_AVAILABLE W = true →
   ∃ e, whisperx_attempt W self st audio_data = Raise e) →
  ∃ st' new,
    try_engines W self processed audio_data sample_rate st = (Ok (None, None), st')
    ∧ fs st' = fs st
    ∧ trace st' = trace st ++ new
    ∧ temps new = []
    ∧ (∀ e, MLX_AVAILABLE W = true →
            mlx_whisper_transcribe W processed (mlx_model_name self) = Raise e →
            Log WARNING ("MLX transcription failed, trying fallback: " +:+ exn_str e) ∈ new)
    ∧ (∀ e, WHISPERX_AVAILABLE W = true →
            whisperx_attempt W self st audio_data = Raise e →
            Log WARNING ("WhisperX transcription failed: " +:+ exn_str e) ∈ new).
Proof.
  intros Hmlx Hwx.
  unfold try_engines, transcribe_with_mlx, transcribe_with_whisperx, load_whisperx_model.
  unfold whisperx_attempt in *.
  destruct (MLX_AVAILABLE W); [destruct (Hmlx eq_refl) as [e1 He1]; rewrite He1 |];
    (destruct (WHISPERX_AVAILABLE W); [destruct (Hwx eq_refl) as [e2 He2] |]);
    clear Hmlx Hwx; run_cases.
  all: try congruence.
  all: eexists _, _; split; [reflexivity |]; split; [reflexivity |];
    split; [solve_trace |]; split; [reflexivity |].
  all: split; intros err ? Herr; simplify_eq; repeat (case_match; simplify_eq); try done.
  all: repeat match goal with
              | H1 : ?x = Raise ?a, H2 : ?x = Raise ?b |- _ =>
                  rewrite H1 in H2; injection H2 as ->
              end.
  all: simpl; find_event.
Qed.

(** When MLX raises and WhisperX returns a result, the result is that
    of WhisperX, [engine_used] says so, and each engine ran once, MLX
    first. *)
Lemma try_engines_fallback (processed : string) (audio_data : ndarray) (sample_rate : Z)
    (st : State) (e : exn) (r : result_dict) :
  MLX_AVAILABLE W = true →
  mlx_whisper_transcribe W processed (mlx_model_name self) = Raise e →
  WHISPERX_AVAILABLE W = true →
  whisperx_attempt W self st audio_data = Ok r →
  ∃ st' new m,
    try_engines W self processed audio_data sample_rate st
    = (Ok (Some r, Some "WhisperX"), st')
    ∧ fs st' = fs st
    ∧ trace st' = trace st ++ new
    ∧ temps new = []
    ∧ engine_calls new = [MlxTranscribe processed (mlx_model_name self);
                          WhisperxTranscribe m].
Proof.
  intros Hmlx He Hwx Hrun.
  unfold try_engines, transcribe_with_mlx, transcribe_with_whisperx, load_whisperx_model.
  unfold whisperx_attempt in Hrun.
  rewrite Hmlx, He, Hwx. run_cases.
  all: try congruence.
  all: repeat match goal with
              | H1 : ?x = Ok ?a, H2 : ?x = Ok ?b |- _ =>
                  rewrite H1 in H2; injection H2 as ->
              end.
  all: eexists _, _, _; split; [reflexivity |]; split; [reflexivity |];
    split; [solve_trace |]; split; reflexivity.
Qed.

(** The statements after the engine attempts: diarization, formatting
    and writing create no temporary file and run no engine; the only file
    they may add is the output file. What they return is the success
    dict; without a result that counts they raise the fixed message. *)
Lemma after_engines_spec (audio_path output_format : string) (include_speakers : bool)
    (processed : string) (result : option result_dict) (engine_used : option string)
    (st : State) :
  ∃ res st' new,
    after_engines W self audio_path output_format include_speakers processed
      result engine_used st = (res, st')
    ∧ trace st' = trace st ++ new
    ∧ uneventful new
    ∧ (fs st' = fs st ∨ fs st' = fs st ∪ {[output_path_of self audio_path output_format]})
    ∧ match res with
      | Ok o =>
          ∃ engine r r',
            result = Some r ∧ truthy_result result = true ∧ engine_used = Some engine
            ∧ only_speakers_changed r r'
            ∧ o = success_outcome (output_path_of self audio_path output_format) engine r'
      | Raise e =>
          truthy_result result = false → e = RuntimeError "All transcription engines failed"
      end.
Proof.
  unfold after_engines.
  destruct (truthy_result result) eqn:Htruthy; simpl.
  2: { unfold_monad. exists (Raise (RuntimeError "All transcription engines failed")), st, [].
       split; [reflexivity |]. split; [symmetry; apply app_nil_r |].
       split; [split; reflexivity |]. split; [left; reflexivity |]. reflexivity. }
  destruct result as [r |]; [| discriminate]. simpl.
  assert (Hdiar : ∃ r' st1 new1,
             (if include_speakers then add_speaker_diarization W processed r else ret r) st
             = (Ok r', st1)
             ∧ only_speakers_changed r r' ∧ fs st1 = fs st
             ∧ trace st1 = trace st ++ new1 ∧ uneventful new1).
  { destruct include_speakers; [apply add_speaker_diarization_quiet |].
    exists r, st, []. split; [reflexivity |]. split; [apply only_speakers_changed_refl |].
    split; [reflexivity |]. split; [symmetry; apply app_nil_r |]. split; reflexivity. }
  destruct Hdiar as (r' & st1 & new1 & Hrun & Hchanged & Hfs & Htrace & Hquiet).
  unfold bind at 1. rewrite Hrun. clear Hrun. unfold write_output.
  run_cases.
  all: eexists _, _, _; split; [reflexivity |].
  all: split; [simpl; rewrite Htrace, <- ?app_assoc; simpl; reflexivity |].
  all: split; [first [exact Hquiet
                     | apply uneventful_app; [exact Hquiet | split; reflexivity]] |].
  all: simpl; rewrite ?Hfs.
  all: split; [first [left; reflexivity | right; reflexivity] |].
  all: try (intros; discriminate).
  all: eexists _, _, _; split; [reflexivity |]; split; [reflexivity |];
    split; [reflexivity |]; split; [exact Hchanged | reflexivity].
Qed.

(** With a result that counts, an engine name, and formatting and
    writing that work, the statements after the engines return the
    success dict. *)
Lemma after_engines_succeeds (audio_path output_format : string) (include_speakers : bool)
    (processed engine : string) (r : result_dict) (st : State) :
  size r ≠ 0 →
  open_w W (output_path_of self audio_path output_format) = Ok tt →
  (∀ r', only_speakers_changed r r' →
         ∃ text, format_output W r' output_format include_speakers = Ok (RVal (VStr text))
                 ∧ file_write W (output_path_of self audio_path output_format) text = Ok tt) →
  ∃ r' st',
    after_engines W self audio_path output_format include_speakers processed
      (Some r) (Some engine) st
    = (Ok (success_outcome (output_path_of self audio_path output_format) engine r'), st')
    ∧ only_speakers_changed r r'.
Proof.
  intros Hsize Hopen Hformat. unfold after_engines. simpl.
  destruct (size r =? 0) eqn:E; [apply Nat.eqb_eq in E; contradiction |]. simpl.
  assert (Hdiar : ∃ r' st1,
             (if include_speakers then add_speaker_diarization W processed r else ret r) st
             = (Ok r', st1) ∧ only_speakers_changed r r').
  { destruct include_speakers.
    - destruct (add_speaker_diarization_quiet W processed r st)
        as (r' & st1 & new & Hrun & Hchanged & _). eauto.
    - exists r, st. split; [reflexivity | apply only_speakers_changed_refl]. }
  destruct Hdiar as (r' & st1 & Hrun & Hchanged).
  destruct (Hformat r' Hchanged) as (text & Hfmt & Hwrite).
  unfold bind at 1. rewrite Hrun. unfold write_output. unfold_monad. simpl.
  rewrite Hfmt, Hopen. simpl. rewrite Hwrite. simpl.
  eexists _, _. split; [reflexivity | exact Hchanged].
Qed.

(** The [try] block after preprocessing, as a whole. *)
Lemma transcribe_body_spec (audio_path output_format : string) (include_speakers : bool)
    (processed : string) (audio_data : ndarray) (sample_rate : Z) (st : State) :
  ∃ res st' new,
    transcribe_body W self audio_path output_format include_speakers processed
      audio_data sample_rate st = (res, st')
    ∧ trace st' = trace st ++ new
    ∧ temps new = []
    ∧ (fs st' = fs st ∨ fs st' = fs st ∪ {[output_path_of self audio_path output_format]})
    ∧ match res with
      | Ok o =>
          ∃ engine r,
            o = success_outcome (output_path_of self audio_path output_format) engine r
            ∧ (engine = "MLX Whisper" ∨ engine = "WhisperX")
      | Raise _ => True
      end.
Proof.
  destruct (try_engines_quiet processed audio_data sample_rate st)
    as (result & engine_used & st1 & new1 & Hrun1 & Hfs1 & Htrace1 & Htemps1 & Hengine).
  destruct (after_engines_spec audio_path output_format include_speakers processed
              result engine_used st1)
    as (res & st2 & new2 & Hrun2 & Htrace2 & [Htemps2 _] & Hfs2 & Hres).
  exists res, st2, (new1 ++ new2).
  unfold transcribe_body, bind. rewrite Hrun1, Hrun2.
  split; [reflexivity |].
  split; [rewrite Htrace2, Htrace1, app_assoc; reflexivity |].
  split; [rewrite temps_app, Htemps1, Htemps2; reflexivity |].
  split; [rewrite <- Hfs1; exact Hfs2 |].
  destruct res as [o | e]; [| exact I].
  destruct Hres as (engine & r & r' & -> & Htruthy & -> & _ & ->).
  exists engine, r'. split; [reflexivity |].
  destruct (Hengine Htruthy) as [H | H]; injection H as <-; auto.
Qed.

(** What [transcribe_file] returns: it never raises, and its value is
    the dict of the [try] block or the failure dict of the exception
    that ended preprocessing or the block. *)
Lemma transcribe_file_outcome (audio_path output_format : string)
    (include_speakers : bool) (st : State) :
  (transcribe_file W self audio_path output_format include_speakers st).1
  = Ok match preprocess_audio W audio_path
               (add_event (Log INFO ("🎙️  Starting transcription: " +:+ audio_path)) st)
       with
       | (Raise e, _) => failure_outcome e
       | (Ok (processed, audio_data, sample_rate), st1) =>
           match transcribe_body W self audio_path output_format include_speakers
                   processed audio_data sample_rate st1 with
           | (Ok o, _) => o
           | (Raise e, _) => failure_outcome e
           end
       end.
Proof.
  unfold transcribe_file, transcription_failed, cleanup, os_unlink.
  run_cases.
Qed.

(** A call in which preprocessing returned, cut after the engine
    attempts and after the rest of the [try] block: what is returned,
    and what the [except] and [finally] clauses still add to the trace. *)
Lemma transcribe_file_run (audio_path output_format : string) (include_speakers : bool)
    (st st1 st2 st3 : State) (processed : string) (audio_data : ndarray) (sample_rate : Z)
    (result : option result_dict) (engine_used : option string) (res : res outcome_dict) :
  preprocess_audio W audio_path
    (add_event (Log INFO ("🎙️  Starting transcription: " +:+ audio_path)) st)
  = (Ok (processed, audio_data, sample_rate), st1) →
  try_engines W self processed audio_data sample_rate st1
  = (Ok (result, engine_used), st2) →
  after_engines W self audio_path output_format include_speakers processed
    result engine_used st2 = (res, st3) →
  ∃ st' tail,
    transcribe_file W self audio_path output_format include_speakers st
    = (Ok match res with Ok o => o | Raise e => failure_outcome e end, st')
    ∧ trace st' = trace st3 ++ tail
    ∧ uneventful tail.
Proof.
  intros Hpre Hengines Hafter.
  unfold transcribe_file, transcribe_body, transcription_failed, cleanup, os_unlink.
  unfold_monad. simpl. rewrite Hpre. simpl. rewrite Hengines. simpl. rewrite Hafter.
  clear Hpre Hengines Hafter.
  destruct res; run_cases.
  all: eexists _, _; split; [reflexivity |]; split; [solve_trace |]; split; reflexivity.
Qed.

End Engines.

(** ** transcribe_file *)

Section TranscribeFile.

Context (W : World) (self : Config).

Lemma success_outcome_keys (output_path engine : string) (r : result_dict) :
  dom (success_outcome output_path engine r)
  = ({["success"; "output_path"; "engine"; "result"]} : gset string).
Proof. unfold success_outcome. rewrite !dom_insert_L, dom_empty_L. set_solver. Qed.

Lemma failure_outcome_keys (e : exn) :
  dom (failure_outcome e) = ({["success"; "error"]} : gset string).
Proof. unfold failure_outcome. rewrite !dom_insert_L, dom_empty_L. set_solver. Qed.

(** C10. [transcribe_file] returns a dict of one of two shapes. On
    success its keys are exactly success, output_path, engine and result,
    with success true; there is no error key. On failure its keys are
    exactly success and error, with success false and error the message
    of the exception; output_path, engine and result are absent. *)
Theorem C10_outcome_has_two_shapes (audio_path output_format : string)
    (include_speakers : bool) (st : State) :
  ∃ o st',
    transcribe_file W self audio_path output_format include_speakers st = (Ok o, st')
    ∧ ((∃ output_path engine r,
          o = success_outcome output_path engine r
          ∧ dom o = ({["success"; "output_path"; "engine"; "result"]} : gset string)
          ∧ o !! "success" = Some (OBool true)
          ∧ o !! "output_path" = Some (OStr output_path)
          ∧ o !! "engine" = Some (OStr engine)
          ∧ o !! "result" = Some (OResult r)
          ∧ o !! "error" = None)
       ∨ (∃ e,
            o = failure_outcome e
            ∧ dom o = ({["success"; "error"]} : gset string)
            ∧ o !! "success" = Some (OBool false)
            ∧ o !! "error" = Some (OStr (exn_str e))
            ∧ o !! "output_path" = None
            ∧ o !! "engine" = None
            ∧ o !! "result" = None)).
Proof.
  pose proof (transcribe_file_outcome W self audio_path output_format include_speakers st)
    as Hout.
  destruct (transcribe_file W self audio_path output_format include_speakers st)
    as [res st'] eqn:Hrun.
  simpl in Hout. subst res. eexists _, st'. split; [reflexivity |].
  assert (Hfail : ∀ e, ∃ e', failure_outcome e = failure_outcome e'
            ∧ dom (failure_outcome e) = ({["success"; "error"]} : gset string)
            ∧ failure_outcome e !! "success" = Some (OBool false)
            ∧ failure_outcome e !! "error" = Some (OStr (exn_str e'))
            ∧ failure_outcome e !! "output_path" = None
            ∧ failure_outcome e !! "engine" = None
            ∧ failure_outcome e !! "result" = None).
  { intros e. exists e. split; [reflexivity |]. split; [apply failure_outcome_keys |].
    repeat split; reflexivity. }
  destruct (preprocess_audio W audio_path _) as [[[[processed audio_data] sample_rate] | e] st1];
    [| right; apply Hfail].
  destruct (transcribe_body_spec W self audio_path output_format include_speakers
              processed audio_data sample_rate st1)
    as (res & st2 & new & -> & _ & _ & _ & Hres).
  destruct res as [o | e]; [| right; apply Hfail].
  destruct Hres as (engine & r & -> & _).
  left. exists (output_path_of self audio_path output_format), engine, r.
  split; [reflexivity |]. split; [apply success_outcome_keys |].
  repeat split; reflexivity.
Qed.

(** The files and the trace after a call of [transcribe_file]. *)
Lemma transcribe_file_files (audio_path output_format : string)
    (include_speakers : bool) (st : State) :
  ∃ new,
    trace (transcribe_file W self audio_path output_format include_speakers st).2
    = trace st ++ new
    ∧ (∀ t, t ∈ temps new →
            t ∉ fs (transcribe_file W self audio_path output_format include_speakers st).2)
    ∧ fs (transcribe_file W self audio_path output_format include_speakers st).2
      ⊆ fs st ∪ {[output_path_of self audio_path output_format]}.
Proof.
  destruct (transcribe_file W self audio_path output_format include_speakers st)
      as [out st'] eqn:Hrun. simpl.
    set (st0 := add_event (Log INFO ("🎙️  Starting transcription: " +:+ audio_path)) st).
    destruct (preprocess_audio_files W audio_path st0)
      as (new1 & Htrace1 & _ & _ & _ & Hfiles).
    unfold transcribe_file in Hrun. unfold bind at 1 in Hrun. unfold logger at 1 in Hrun.
    fold st0 in Hrun. unfold bind at 1, try_except at 1, bind at 1 in Hrun.
    destruct (preprocess_audio W audio_path st0)
      as [[[[processed audio_data] sample_rate] | e] st1]; simpl in Htrace1, Hfiles.
    + destruct Hfiles as [Hin Hfiles].
      destruct (transcribe_body_spec W self audio_path output_format include_speakers
                  processed audio_data sample_rate st1)
        as (res & st2 & new2 & Hbody & Htrace2 & Htemps2 & Hfs2 & _).
      unfold ret at 1 in Hrun. unfold try_finally, try_except at 1 in Hrun.
      rewrite Hbody in Hrun.
      assert (Hhandled : ∃ o st3 new3,
                match res with
                | Ok a => (Ok a, st2)
                | Raise e => transcription_failed W e st2
                end = (Ok o, st3)
                ∧ fs st3 = fs st2 ∧ trace st3 = trace st2 ++ new3 ∧ temps new3 = []).
      { destruct res as [o | e].
        - exists o, st2, []. rewrite app_nil_r. repeat split; reflexivity.
        - unfold transcription_failed. unfold_monad. simpl.
          eexists _, _, _. split; [reflexivity |]. split; [reflexivity |].
          split; [solve_trace | reflexivity]. }
      destruct Hhandled as (o & st3 & new3 & Hhandled & Hfs3 & Htrace3 & Htemps3).
      rewrite Hhandled in Hrun.
      assert (Htrace : trace st3 = trace st ++ ([Log INFO ("🎙️  Starting transcription: "
                                                           +:+ audio_path)]
                                                ++ new1 ++ new2 ++ new3)).
      { rewrite Htrace3, Htrace2, Htrace1. unfold st0. simpl.
        rewrite <- !app_assoc. reflexivity. }
      assert (Hsub : fs st3 ⊆ fs st1 ∪ {[output_path_of self audio_path output_format]}).
      { rewrite Hfs3. destruct Hfs2 as [-> | ->]; set_solver. }
      unfold cleanup, os_unlink in Hrun. unfold_monad. simpl in Hrun.
      destruct Hfiles as [(-> & Hfs1 & Htemps1) | (Hfresh & Hne & Hfs1 & Htemps1)].
      * rewrite (bool_decide_eq_true_2 (audio_path = audio_path)) in Hrun by reflexivity.
        rewrite andb_false_r in Hrun. simpl in Hrun. injection Hrun as <- <-.
        eexists. split; [exact Htrace |].
        rewrite !temps_app, Htemps1, Htemps2, Htemps3. simpl.
        split; [intros t Ht; inversion Ht |].
        rewrite Hfs1 in Hsub. exact Hsub.
      * assert (Hdiff : processed ≠ audio_path) by (intros ->; contradiction).
        rewrite (bool_decide_eq_false_2 _ Hne), (bool_decide_eq_false_2 _ Hdiff) in Hrun.
        simpl in Hrun.
        destruct (decide (processed ∈ fs st3)) as [Hthere | Hgone];
          simpl in Hrun; injection Hrun as <- <-; simpl.
        -- eexists. split; [rewrite Htrace, <- !app_assoc; reflexivity |].
           rewrite !temps_app, Htemps1, Htemps2, Htemps3. simpl.
           split; [intros t Ht; set_solver |].
           rewrite Hfs1 in Hsub. set_solver.
        -- eexists. split; [rewrite Htrace, <- !app_assoc; reflexivity |].
           rewrite !temps_app, Htemps1, Htemps2, Htemps3. simpl.
           split; [intros t Ht; set_solver |].
           rewrite Hfs1 in Hsub. set_solver.
    + destruct Hfiles as [Hfs1 Hgone].
      unfold transcription_failed, cleanup in Hrun. unfold_monad. simpl in Hrun.
      injection Hrun as <- <-. simpl.
      eexists. split; [rewrite Htrace1; unfold st0; solve_trace |].
      rewrite temps_cons, !temps_app. simpl. rewrite app_nil_r, Hfs1.
      split; [exact Hgone | set_solver].
Qed.

(** C7. Whatever way a call of [transcribe_file] ends (a transcript
    written, preprocessing failed, every engine failed, diarization
    failed, formatting or writing failed), every temporary file that was
    created during the call is gone when it returns, and the only file
    that the call may have added is the output file. So too for
    [preprocess_audio] alone: when it raises, the temporary file it had
    created is gone. ([os.unlink] of a file that exists removes it.) *)
Theorem C7_temporary_files_deleted (audio_path output_format : string)
    (include_speakers : bool) (st : State) :
  (∃ new,
     trace (transcribe_file W self audio_path output_format include_speakers st).2
     = trace st ++ new
     ∧ (∀ t, t ∈ temps new →
             t ∉ fs (transcribe_file W self audio_path output_format include_speakers st).2)
     ∧ fs (transcribe_file W self audio_path output_format include_speakers st).2
       ⊆ fs st ∪ {[output_path_of self audio_path output_format]})
  ∧ (∃ new,
       trace (preprocess_audio W audio_path st).2 = trace st ++ new
       ∧ ∀ e, (preprocess_audio W audio_path st).1 = Raise e →
              ∀ t, t ∈ temps new → t ∉ fs (preprocess_audio W audio_path st).2).
Proof.
  split; [apply transcribe_file_files |].
  - destruct (preprocess_audio_files W audio_path st) as (new & Htrace & _ & _ & _ & Hfiles).
    exists new. split; [exact Htrace |].
    intros e He t Ht. rewrite He in Hfiles. destruct Hfiles as [-> Hgone].
    apply Hgone, Ht.
Qed.

(** C1, as the code has it. When every installed engine raises, or no
    engine is installed, [transcribe_file] does not raise: it returns a
    failure dict, success false. If preprocessing had failed, the error
    is the message of that failure. Otherwise the error is the fixed
    text "All transcription engines failed": the reasons why the engines
    failed are not part of it; each of them went to the log as a
    warning. *)
Theorem C1_all_engines_failed (audio_path output_format : string)
    (include_speakers : bool) (st : State) :
  (MLX_AVAILABLE W = true →
   ∀ path, ∃ e, mlx_whisper_transcribe W path (mlx_model_name self) = Raise e) →
  (WHISPERX_AVAILABLE W = true →
   ∀ audio_data, ∃ e, whisperx_attempt W self st audio_data = Raise e) →
  ∃ o st' new,
    transcribe_file W self audio_path output_format include_speakers st = (Ok o, st')
    ∧ trace st' = trace st ++ new
    ∧ o !! "success" = Some (OBool false)
    ∧ match (preprocess_audio W audio_path
               (add_event (Log INFO ("🎙️  Starting transcription: " +:+ audio_path)) st)).1
      with
      | Raise e => o = failure_outcome e
      | Ok (processed, audio_data, _) =>
          o = failure_outcome (RuntimeError "All transcription engines failed")
          ∧ o !! "error" = Some (OStr "All transcription engines failed")
          ∧ (∀ e, MLX_AVAILABLE W = true →
                  mlx_whisper_transcribe W processed (mlx_model_name self) = Raise e →
                  Log WARNING ("MLX transcription failed, trying fallback: " +:+ exn_str e)
                  ∈ new)
          ∧ (∀ e, WHISPERX_AVAILABLE W = true →
                  whisperx_attempt W self st audio_data = Raise e →
                  Log WARNING ("WhisperX transcription failed: " +:+ exn_str e) ∈ new)
      end.
Proof.
  intros Hmlx Hwx.
  set (st0 := add_event (Log INFO ("🎙️  Starting transcription: " +:+ audio_path)) st).
  destruct (preprocess_audio_files W audio_path st0) as (new1 & Htrace1 & _ & Hmodel & _).
  destruct (preprocess_audio W audio_path st0)
    as [[[[processed audio_data] sample_rate] | e] st1] eqn:Hpre; simpl in Htrace1, Hmodel.
  - assert (Hsame : whisperx_attempt W self st1 audio_data
                    = whisperx_attempt W self st audio_data)
      by (apply whisperx_attempt_model; exact Hmodel).
    destruct (try_engines_all_fail W self processed audio_data sample_rate st1)
      as (st2 & new2 & Hengines & _ & Htrace2 & _ & Hlog1 & Hlog2).
    { intros Hm. apply (Hmlx Hm). }
    { intros Hx. rewrite Hsame. apply (Hwx Hx). }
    destruct (transcribe_file_run W self audio_path output_format include_speakers
                st st1 st2 st2 processed audio_data sample_rate None None
                (Raise (RuntimeError "All transcription engines failed")) Hpre Hengines)
      as (st' & tail & Hrun & Htrace & _); [reflexivity |].
    exists (failure_outcome (RuntimeError "All transcription engines failed")), st'.
    exists ([Log INFO ("🎙️  Starting transcription: " +:+ audio_path)]
            ++ new1 ++ new2 ++ tail).
    split; [exact Hrun |].
    split; [rewrite Htrace, Htrace2, Htrace1; unfold st0; simpl;
            rewrite <- !app_assoc; reflexivity |].
    split; [reflexivity |]. simpl.
    split; [reflexivity |]. split; [reflexivity |].
    split; intros err Havail Herr.
    + pose proof (Hlog1 err Havail Herr) as Hin.
      rewrite elem_of_cons, !elem_of_app. auto.
    + rewrite <- Hsame in Herr. pose proof (Hlog2 err Havail Herr) as Hin.
      rewrite elem_of_cons, !elem_of_app. auto.
  - pose proof (transcribe_file_outcome W self audio_path output_format include_speakers st)
      as Hout.
    fold st0 in Hout. rewrite Hpre in Hout.
    destruct (transcribe_file_files audio_path output_format include_speakers st)
      as (new & Htrace & _).
    destruct (transcribe_file W self audio_path output_format include_speakers st)
      as [out st'].
    simpl in Hout, Htrace. subst out.
    exists (failure_outcome e), st', new. simpl.
    repeat split; [exact Htrace].
Qed.

(** C6, as the code has it. In a call in which preprocessing returned,
    MLX Whisper is installed and raises, and WhisperX is installed and
    returns a result that is not empty, each engine is run exactly once,
    MLX first, and no engine is run after WhisperX returned. If the call
    succeeds, its engine field is "WhisperX" and its result is that of
    WhisperX (but for speaker labels); and it does succeed when the
    output file can be opened and formatting and writing raise nothing.
    A failure of formatting or writing still makes the call fail. *)
Theorem C6_fallback_engine_used (audio_path output_format : string)
    (include_speakers : bool) (st : State)
    (processed : string) (audio_data : ndarray) (sample_rate : Z)
    (e : exn) (r : result_dict) :
  (preprocess_audio W audio_path
     (add_event (Log INFO ("🎙️  Starting transcription: " +:+ audio_path)) st)).1
  = Ok (processed, audio_data, sample_rate) →
  MLX_AVAILABLE W = true →
  mlx_whisper_transcribe W processed (mlx_model_name self) = Raise e →
  WHISPERX_AVAILABLE W = true →
  whisperx_attempt W self st audio_data = Ok r →
  size r ≠ 0 →
  ∃ o st' new m,
    transcribe_file W self audio_path output_format include_speakers st = (Ok o, st')
    ∧ trace st' = trace st ++ new
    ∧ engine_calls new = [MlxTranscribe processed (mlx_model_name self);
                          WhisperxTranscribe m]
    ∧ (o !! "success" = Some (OBool true) →
       ∃ r', o = success_outcome (output_path_of self audio_path output_format)
                   "WhisperX" r'
             ∧ o !! "engine" = Some (OStr "WhisperX")
             ∧ only_speakers_changed r r')
    ∧ (open_w W (output_path_of self audio_path output_format) = Ok tt →
       (∀ r', only_speakers_changed r r' →
              ∃ text,
                format_output W r' output_format include_speakers = Ok (RVal (VStr text))
                ∧ file_write W (output_path_of self audio_path output_format) text = Ok tt) →
       o !! "success" = Some (OBool true) ∧ o !! "engine" = Some (OStr "WhisperX")).
Proof.
  intros Hpre Hmlx Hraise Hwx Hattempt Hsize.
  set (st0 := add_event (Log INFO ("🎙️  Starting transcription: " +:+ audio_path)) st) in *.
  destruct (preprocess_audio_files W audio_path st0)
    as (new1 & Htrace1 & Hcalls1 & Hmodel & _).
  destruct (preprocess_audio W audio_path st0) as [res1 st1] eqn:Hrun1.
  simpl in Hpre, Htrace1, Hmodel. subst res1.
  rewrite <- (whisperx_attempt_model W self st st1 audio_data Hmodel) in Hattempt.
  destruct (try_engines_fallback W self processed audio_data sample_rate st1 e r
              Hmlx Hraise Hwx Hattempt)
    as (st2 & new2 & m & Hengines & _ & Htrace2 & _ & Hcalls2).
  destruct (after_engines_spec W self audio_path output_format include_speakers processed
              (Some r) (Some "WhisperX") st2)
    as (res & st3 & new3 & Hafter & Htrace3 & [_ Hcalls3] & _ & Hres).
  destruct (transcribe_file_run W self audio_path output_format include_speakers
              st st1 st2 st3 processed audio_data sample_rate (Some r) (Some "WhisperX")
              res Hrun1 Hengines Hafter)
    as (st' & tail & Hrun & Htrace & [_ Hcalls]).
  eexists _, st', ([Log INFO ("🎙️  Starting transcription: " +:+ audio_path)]
                   ++ new1 ++ new2 ++ new3 ++ tail), m.
  split; [exact Hrun |].
  split; [rewrite Htrace, Htrace3, Htrace2, Htrace1; unfold st0; simpl;
          rewrite <- !app_assoc; reflexivity |].
  split; [rewrite !engine_calls_app, Hcalls1, Hcalls2, Hcalls3, Hcalls; reflexivity |].
  split.
  - intros Hsuccess. destruct res as [o | err]; [| discriminate].
    destruct Hres as (engine & r0 & r' & Hr & _ & Hengine & Hchanged & ->).
    injection Hr as <-. injection Hengine as <-.
    exists r'. split; [reflexivity |]. split; [reflexivity | exact Hchanged].
  - intros Hopen Hformat.
    destruct (after_engines_succeeds W self audio_path output_format include_speakers
                processed "WhisperX" r st2 Hsize Hopen Hformat)
      as (r' & st3' & Hok & _).
    rewrite Hok in Hafter. injection Hafter as <- _.
    split; reflexivity.
Qed.

End TranscribeFile.

Lemma C1_all_engines_witness :
  (MLX_AVAILABLE Scenario.both_crash = true →
   ∀ path, ∃ e, mlx_whisper_transcribe Scenario.both_crash path
                  (mlx_model_name Scenario.config) = Raise e)
  ∧ (WHISPERX_AVAILABLE Scenario.both_crash = true →
     ∀ audio_data, ∃ e, whisperx_attempt Scenario.both_crash Scenario.config
                          (Scenario.start ["talk.wav"]) audio_data = Raise e)
  ∧ ∃ o st',
      transcribe_file Scenario.both_crash Scenario.config "talk.wav" "txt" false
        (Scenario.start ["talk.wav"]) = (Ok o, st')
      ∧ o !! "success" = Some (OBool false).
Proof.
  assert (Hmlx : MLX_AVAILABLE Scenario.both_crash = true →
                 ∀ path, ∃ e, mlx_whisper_transcribe Scenario.both_crash path
                                (mlx_model_name Scenario.config) = Raise e).
  { intros _ path. eexists. reflexivity. }
  assert (Hwx : WHISPERX_AVAILABLE Scenario.both_crash = true →
                ∀ audio_data, ∃ e, whisperx_attempt Scenario.both_crash Scenario.config
                                     (Scenario.start ["talk.wav"]) audio_data = Raise e).
  { intros _ audio_data. eexists. reflexivity. }
  split; [exact Hmlx |]. split; [exact Hwx |].
  destruct (C1_all_engines_failed Scenario.both_crash Scenario.config "talk.wav" "txt" false
              (Scenario.start ["talk.wav"]) Hmlx Hwx)
    as (o & st' & new & Hrun & _ & Hsuccess & _).
  exists o, st'. split; [exact Hrun | exact Hsuccess].
Defined.

(** C1 as it is stated fails. MLX Whisper fails for want of memory and
    WhisperX because its decoder crashed. The call returns success false
    with the error "All transcription engines failed": neither reason is
    part of the error detail. The same dict comes back when no engine is
    installed at all. *)
Lemma C1_error_detail_names_no_reason :
  mlx_whisper_transcribe Scenario.both_crash "talk.wav" (mlx_model_name Scenario.config)
  = Raise (Exn "RuntimeError" "Metal device out of memory")
  ∧ whisperx_attempt Scenario.both_crash Scenario.config (Scenario.start ["talk.wav"])
      Scenario.mono_16k
    = Raise (Exn "ValueError" "decoder crashed")
  ∧ (λ o : outcome_dict, (o !! "success", o !! "error")) <$> returned
      (transcribe_file Scenario.both_crash Scenario.config "talk.wav" "txt" false
         (Scenario.start ["talk.wav"]))
    = Some (Some (OBool false), Some (OStr "All transcription engines failed"))
  ∧ Str.contains "Metal device out of memory" "All transcription engines failed" = false
  ∧ Str.contains "decoder crashed" "All transcription engines failed" = false
  ∧ (λ o : outcome_dict, (o !! "success", o !! "error")) <$> returned
      (transcribe_file Scenario.none_installed Scenario.config "talk.wav" "txt" false
         (Scenario.start ["talk.wav"]))
    = Some (Some (OBool false), Some (OStr "All transcription engines failed")).
Proof. repeat split; vm_compute; reflexivity. Qed.

Lemma C6_fallback_witness :
  (preprocess_audio Scenario.fallback_works "talk.mp3"
     (add_event (Log INFO ("🎙️  Starting transcription: " +:+ "talk.mp3"))
        (Scenario.start ["talk.mp3"]))).1
  = Ok ("/tmp/tmp0.wav", Scenario.mono_16k, 16000%Z)
  ∧ MLX_AVAILABLE Scenario.fallback_works = true
  ∧ mlx_whisper_transcribe Scenario.fallback_works "/tmp/tmp0.wav"
      (mlx_model_name Scenario.config)
    = Raise (Exn "RuntimeError" "Metal device out of memory")
  ∧ WHISPERX_AVAILABLE Scenario.fallback_works = true
  ∧ whisperx_attempt Scenario.fallback_works Scenario.config (Scenario.start ["talk.mp3"])
      Scenario.mono_16k = Ok Scenario.one_segment
  ∧ size Scenario.one_segment ≠ 0
  ∧ ∃ o st',
      transcribe_file Scenario.fallback_works Scenario.config "talk.mp3" "json" true
        (Scenario.start ["talk.mp3"]) = (Ok o, st')
      ∧ o !! "success" = Some (OBool true)
      ∧ o !! "engine" = Some (OStr "WhisperX").
Proof.
  assert (Hpre : (preprocess_audio Scenario.fallback_works "talk.mp3"
                    (add_event (Log INFO ("🎙️  Starting transcription: " +:+ "talk.mp3"))
                       (Scenario.start ["talk.mp3"]))).1
                 = Ok ("/tmp/tmp0.wav", Scenario.mono_16k, 16000%Z))
    by (vm_compute; reflexivity).
  assert (Hsize : size Scenario.one_segment ≠ 0) by (vm_compute; discriminate).
  split; [exact Hpre |]. repeat (split; [reflexivity |]). split; [exact Hsize |].
  destruct (C6_fallback_engine_used Scenario.fallback_works Scenario.config "talk.mp3" "json"
              true (Scenario.start ["talk.mp3"]) "/tmp/tmp0.wav" Scenario.mono_16k 16000%Z
              (Exn "RuntimeError" "Metal device out of memory") Scenario.one_segment
              Hpre eq_refl eq_refl eq_refl eq_refl Hsize)
    as (o & st' & new & m & Hrun & _ & _ & _ & Hsuccess).
  exists o, st'. split; [exact Hrun |].
  apply Hsuccess; [reflexivity |].
  intros r' _. exists "{}". split; reflexivity.
Defined.

(** C6 as it is stated fails. MLX Whisper raises, WhisperX transcribes,
    and the output file cannot be opened: the call returns success false,
    and its dict has no engine field. *)
Lemma C6_fallback_succeeds_call_fails :
  mlx_whisper_transcribe Scenario.read_only_output "/tmp/tmp0.wav"
    (mlx_model_name Scenario.config)
  = Raise (Exn "RuntimeError" "Metal device out of memory")
  ∧ whisperx_attempt Scenario.read_only_output Scenario.config (Scenario.start ["talk.mp3"])
      Scenario.mono_16k = Ok Scenario.one_segment
  ∧ (λ o : outcome_dict, (o !! "success", o !! "engine", o !! "error")) <$> returned
      (transcribe_file Scenario.read_only_output Scenario.config "talk.mp3" "txt" false
         (Scenario.start ["talk.mp3"]))
    = Some (Some (OBool false), None, Some (OStr "[Errno 13] Permission denied"))
  ∧ engine_calls (trace (transcribe_file Scenario.read_only_output Scenario.config
                           "talk.mp3" "txt" false (Scenario.start ["talk.mp3"])).2)
    = [MlxTranscribe "/tmp/tmp0.wav" "mlx-community/whisper-large-v3-turbo";
       WhisperxTranscribe 1].
Proof. repeat split; vm_compute; reflexivity. Qed.

(** ** Paths *)

Lemma contains_char (c : Ascii.ascii) (s : string) :
  Str.contains (String c "") s = has_char c s.
Proof.
  induction s as [| a s IH]; [reflexivity |].
  simpl. rewrite IH. destruct (Ascii.ascii_dec c a) as [-> | Hne].
  - rewrite bool_decide_eq_true_2 by reflexivity. destruct s; reflexivity.
  - rewrite bool_decide_eq_false_2 by congruence. reflexivity.
Qed.

Lemma has_char_app (c : Ascii.ascii) (s1 s2 : string) :
  has_char c (s1 +:+ s2) = has_char c s1 || has_char c s2.
Proof.
  induction s1 as [| a s1 IH]; [reflexivity |].
  simpl. rewrite IH, orb_assoc. reflexivity.
Qed.

Lemma append_inv_head (s t1 t2 : string) : s +:+ t1 = s +:+ t2 → t1 = t2.
Proof. induction s as [| a s IH]; simpl; [auto |]. intros H. injection H. auto. Qed.

Lemma rsplit_none (c : Ascii.ascii) (s : string) :
  has_char c s = false → Str.rsplit c s = None.
Proof.
  induction s as [| a s IH]; [reflexivity |]. simpl.
  intros [Ha Hs]%orb_false_elim. rewrite (IH Hs).
  apply bool_decide_eq_false in Ha. destruct (decide (a = c)); [contradiction | reflexivity].
Qed.

Lemma rsplit_last (c : Ascii.ascii) (b t : string) :
  has_char c t = false → Str.rsplit c (b +:+ String c t) = Some (b, t).
Proof.
  intros Ht. induction b as [| a b IH]; simpl.
  - rewrite (rsplit_none c t Ht). destruct (decide (c = c)); [reflexivity | contradiction].
  - rewrite IH. reflexivity.
Qed.

Lemma rsplit_some (c : Ascii.ascii) (s b t : string) :
  Str.rsplit c s = Some (b, t) → s = b +:+ String c t ∧ has_char c t = false.
Proof.
  revert b. induction s as [| a s IH]; intros b; simpl; [discriminate |].
  destruct (Str.rsplit c s) as [[b' t'] |] eqn:E.
  - intros H. injection H as <- <-. destruct (IH b' eq_refl) as [-> Ht]. auto.
  - destruct (decide (a = c)) as [-> |]; [| discriminate].
    intros H. injection H as <- <-. split; [reflexivity |].
    clear IH. induction s as [| a s IH]; [reflexivity |]. simpl in *.
    destruct (Str.rsplit c s) as [[b' t'] |]; [discriminate |].
    destruct (decide (a = c)); [discriminate |].
    rewrite bool_decide_eq_false_2 by assumption. auto.
Qed.

Lemma name_no_slash (p : string) : has_char "/" (Path.name p) = false.
Proof.
  unfold Path.name. destruct (Str.rsplit "/" p) as [[b t] |] eqn:E.
  - apply (rsplit_some _ _ _ _ E).
  - clear -E. induction p as [| a p IH]; [reflexivity |]. simpl in *.
    destruct (Str.rsplit "/" p) as [[b' t'] |]; [discriminate |].
    destruct (decide (a = "/"%char)); [discriminate |].
    rewrite bool_decide_eq_false_2 by assumption. auto.
Qed.

Lemma name_join (dir file : string) :
  has_char "/" file = false → Path.name (Path.join dir file) = file.
Proof.
  intros Hfile. unfold Path.join, Path.name.
  destruct (decide (dir = ".")); [rewrite (rsplit_none _ _ Hfile); reflexivity |].
  destruct (decide (dir = "/")).
  - change ("/" +:+ file) with ("" +:+ String "/"%char file).
    rewrite (rsplit_last "/" "" file Hfile). reflexivity.
  - change (dir +:+ "/" +:+ file) with (dir +:+ String "/"%char file).
    rewrite (rsplit_last "/" dir file Hfile). reflexivity.
Qed.

Lemma append_nil_r (s : string) : s +:+ "" = s.
Proof.
  induction s as [| a s IH]; [reflexivity |].
  change (String a (s +:+ "") = String a s). rewrite IH. reflexivity.
Qed.

(** The name of a file is its stem followed by its suffix, and a suffix
    starts with a dot. *)
Lemma stem_suffix (p : string) :
  Path.stem p +:+ Path.suffix p = Path.name p
  ∧ (Path.suffix p = "" ∨ ∃ t, Path.suffix p = String "." t).
Proof.
  unfold Path.stem, Path.suffix, Path.split_suffix.
  destruct (Str.rsplit "." (Path.name p)) as [[b t] |] eqn:E; simpl.
  - destruct (rsplit_some _ _ _ _ E) as [Hname _].
    destruct b as [| a b]; simpl.
    + split; [apply append_nil_r | left; reflexivity].
    + destruct t as [| a' t]; simpl.
      * split; [apply append_nil_r | left; reflexivity].
      * split; [symmetry; exact Hname | right; eauto].
  - split; [apply append_nil_r | left; reflexivity].
Qed.

Lemma stem_no_slash (p : string) : has_char "/" (Path.stem p) = false.
Proof.
  pose proof (name_no_slash p) as Hname.
  destruct (stem_suffix p) as [Heq _]. rewrite <- Heq, has_char_app in Hname.
  apply orb_false_elim in Hname as [H _]. exact H.
Qed.

Lemma has_char_join (c : Ascii.ascii) (dir file : string) :
  has_char c file = true → has_char c (Path.join dir file) = true.
Proof.
  intros Hfile. unfold Path.join.
  destruct (decide (dir = ".")); [assumption |].
  destruct (decide (dir = "/")).
  - rewrite has_char_app, Hfile. apply orb_true_r.
  - rewrite !has_char_app, Hfile, !orb_true_r. reflexivity.
Qed.

Lemma pretty_N_go_char (c : Ascii.ascii) (x : N) (s : string) :
  Str.is_digit c = false → has_char c s = false → has_char c (pretty_N_go x s) = false.
Proof.
  intros Hc. revert s. induction (N.lt_wf_0 x) as [x _ IH]. intros s Hs.
  destruct (decide (x = 0)%N) as [-> | Hx]; [rewrite pretty_N_go_0; exact Hs |].
  rewrite pretty_N_go_step by lia. apply IH.
  - apply N.div_lt; lia.
  - simpl. rewrite Hs, orb_false_r. apply bool_decide_eq_false. intros <-.
    revert Hc. unfold pretty_N_char.
    repeat case_match; vm_compute; discriminate.
Qed.

Lemma pretty_nat_char (c : Ascii.ascii) (n : nat) :
  Str.is_digit c = false → has_char c (pretty n) = false.
Proof.
  intros Hc. unfold pretty, pretty_nat, pretty, pretty_N.
  destruct (decide (N.of_nat n = 0)%N).
  - simpl. rewrite orb_false_r. apply bool_decide_eq_false. intros <-. discriminate.
  - apply pretty_N_go_char; [assumption | reflexivity].
Qed.

Section OutputPath.

Context (self : Config).

Lemma output_path_underscore (audio_path output_format : string) :
  has_char "_" (output_path_of self audio_path output_format) = true.
Proof.
  unfold output_path_of.
  assert (H : has_char "_" (Path.stem audio_path +:+ "_transcript." +:+ output_format)
              = true).
  { rewrite has_char_app. simpl. apply orb_true_r. }
  destruct (truthy_str (output_dir self)); apply has_char_join, H.
Qed.

(** The output file is never a temporary file of the conversion. *)
Lemma output_path_not_temp (audio_path output_format : string) (X : gset string) :
  output_path_of self audio_path output_format ≠ temp_name ".wav" X.
Proof.
  destruct (temp_name_find ".wav" X) as (n & -> & _). intros Heq.
  pose proof (output_path_underscore audio_path output_format) as Hout.
  rewrite Heq in Hout. unfold temp_candidate in Hout.
  rewrite !has_char_app, pretty_nat_char in Hout by reflexivity.
  discriminate.
Qed.

(** X24. The transcript is named after the stem of the audio file, and it is
    never the audio file itself: a format that is one path component
    gives a file name that differs from the name of the input. *)
Theorem output_path_beside_input (audio_path output_format : string) :
  Str.contains "/" output_format = false →
  Path.name (output_path_of self audio_path output_format)
  = Path.stem audio_path +:+ "_transcript." +:+ output_format
  ∧ output_path_of self audio_path output_format ≠ audio_path.
Proof.
  intros Hfmt. rewrite contains_char in Hfmt.
  assert (Hname : Path.name (output_path_of self audio_path output_format)
                  = Path.stem audio_path +:+ "_transcript." +:+ output_format).
  { unfold output_path_of.
    assert (H : has_char "/" (Path.stem audio_path +:+ "_transcript." +:+ output_format)
                = false).
    { rewrite !has_char_app, stem_no_slash, Hfmt. reflexivity. }
    destruct (truthy_str (output_dir self)); apply name_join, H. }
  split; [exact Hname |]. intros Heq. rewrite Heq in Hname.
  destruct (stem_suffix audio_path) as [Hsplit Hshape].
  rewrite <- Hsplit in Hname. apply append_inv_head in Hname.
  destruct Hshape as [Hnone | [t Hdot]]; rewrite ?Hnone, ?Hdot in Hname; discriminate.
Qed.

End OutputPath.

(** * Further properties *)

(** ** The merge loop *)

Section MergeLoop.

Context (order : list string → list string) (turns : list turn).

Lemma segment_speaker_relabelled (segment : segment_dict) (v : pyval) :
  segment_speaker order turns (<["speaker" := v]> segment)
  = segment_speaker order turns segment.
Proof.
  unfold segment_speaker, getitem.
  rewrite !lookup_insert_ne by discriminate. reflexivity.
Qed.

(** X7. Merging again changes nothing: the labels depend on the times and on
    the turns only, and a loop that stopped at a segment stops there
    again. *)
Theorem merge_speakers_idempotent (segments : list segment_dict) :
  merge_speakers order turns (merge_speakers order turns segments).1
  = merge_speakers order turns segments.
Proof.
  induction segments as [| segment segments IH]; [reflexivity |]. simpl.
  destruct (segment_speaker order turns segment) as [speaker | e] eqn:E.
  - destruct (merge_speakers order turns segments) as [rest err]. simpl in *.
    rewrite segment_speaker_relabelled, E, IH, insert_insert_eq. reflexivity.
  - simpl. rewrite E. reflexivity.
Qed.

(** The loop over a list in two pieces: the second piece is reached only
    when the first went through. *)
Lemma merge_speakers_app (l1 l2 : list segment_dict) :
  merge_speakers order turns (l1 ++ l2)
  = match (merge_speakers order turns l1).2 with
    | None => ((merge_speakers order turns l1).1 ++ (merge_speakers order turns l2).1,
               (merge_speakers order turns l2).2)
    | Some e => ((merge_speakers order turns l1).1 ++ l2, Some e)
    end.
Proof.
  induction l1 as [| segment l1 IH]; simpl.
  - destruct (merge_speakers order turns l2). reflexivity.
  - destruct (segment_speaker order turns segment) as [speaker | e]; [| reflexivity].
    rewrite IH. destruct (merge_speakers order turns l1) as [rest [e |]]; simpl;
      [reflexivity |].
    destruct (merge_speakers order turns l2). reflexivity.
Qed.

End MergeLoop.

(** X8. With no turn at all, no comparison is made: every segment that has a
    ['start'] and an ['end'], of whatever type, is labelled "UNKNOWN". *)
Theorem merge_speakers_no_turns (order : list string → list string)
    (segments : list segment_dict) :
  Forall has_times segments →
  merge_speakers order [] segments
  = ((λ segment : segment_dict, <["speaker" := VStr "UNKNOWN"]> segment) <$> segments, None).
Proof.
  intros Hall. induction Hall as [| segment segments [[a Ha] [b Hb]] Hall IH]; [reflexivity |].
  simpl. unfold segment_speaker, getitem. rewrite Ha, Hb. simpl. rewrite IH. reflexivity.
Qed.

Lemma merge_speakers_no_turns_witness :
  Forall has_times [Scenario.segment_of 0 3 "test"]
  ∧ merge_speakers remove_dups [] [Scenario.segment_of 0 3 "test"]
    = ([<["speaker" := VStr "UNKNOWN"]> (Scenario.segment_of 0 3 "test")], None).
Proof.
  assert (H : Forall has_times [Scenario.segment_of 0 3 "test"]).
  { repeat constructor; eexists; vm_compute; reflexivity. }
  split; [exact H |].
  rewrite (merge_speakers_no_turns remove_dups _ H). reflexivity.
Defined.

(** ** add_speaker_diarization *)

Section DiarizationMore.

Context (W : World).

(** X9. Diarization that cannot be had costs nothing but the labels: when
    pyannote is not installed and no pipeline is loaded, or when the
    pipeline raises whenever it is run, [add_speaker_diarization] returns
    the result it was given, as it is. *)
Theorem diarization_failure_keeps_result (audio_path : string) (r : result_dict)
    (st : State) :
  (diarization_pipeline st = None ∧ DIARIZATION_AVAILABLE W = false)
  ∨ (∀ p, ∃ e, pipeline_call W p audio_path = Raise e) →
  ∃ st', add_speaker_diarization W audio_path r st = (Ok r, st') ∧ fs st' = fs st.
Proof.
  intros Hfail. unfold add_speaker_diarization, load_diarization_model.
  destruct Hfail as [[Hnone Hoff] | Hraise].
  - rewrite Hoff. unfold_monad. simpl. rewrite Hnone. simpl.
    eexists. split; reflexivity.
  - run_cases; try (eexists; split; reflexivity).
    all: match goal with
         | H : pipeline_call _ ?p _ = Ok _ |- _ =>
             destruct (Hraise p) as [e He]; congruence
         end.
Qed.

(** X10. A segment without ['start'] ends the merge, and the error is
    swallowed: the segments before it keep the labels they were given,
    that segment and the ones after it are returned as they came. *)
Theorem diarization_stops_at_segment_without_start (audio_path : string)
    (r : result_dict) (st : State) (p : nat) (diarization : list turn)
    (good rest : list segment_dict) (bad : segment_dict) :
  diarization_pipeline st = Some p →
  pipeline_call W p audio_path = Ok diarization →
  r !! "segments" = Some (RSegments (good ++ bad :: rest)) →
  (merge_speakers (set_iter W) diarization good).2 = None →
  bad !! "start" = None →
  ∃ st',
    add_speaker_diarization W audio_path r st
    = (Ok (<["segments" :=
              RSegments ((merge_speakers (set_iter W) diarization good).1 ++ bad :: rest)]> r),
       st')
    ∧ Log ERROR "Speaker diarization failed: 'start'" ∈ trace st'.
Proof.
  intros Hpipe Hcall Hsegs Hgood Hbad.
  unfold add_speaker_diarization, merge_diarization, get_segments, put_segments.
  unfold_monad. simpl. rewrite Hpipe. simpl. rewrite Hpipe, Hcall. simpl.
  assert (Hspeaker : segment_speaker (set_iter W) diarization bad = Raise (KeyError "start")).
  { unfold segment_speaker, getitem. rewrite Hbad. reflexivity. }
  rewrite Hsegs, merge_speakers_app, Hgood. simpl. rewrite Hspeaker. simpl.
  eexists. split; [reflexivity |]. simpl. set_solver.
Qed.

End DiarizationMore.

Lemma diarization_failure_witness :
  ((diarization_pipeline (Scenario.start ["talk.wav"]) = None
    ∧ DIARIZATION_AVAILABLE Scenario.fallback_works = false)
   ∨ (∀ p, ∃ e, pipeline_call Scenario.fallback_works p "talk.wav" = Raise e))
  ∧ returned (add_speaker_diarization Scenario.fallback_works "talk.wav"
                Scenario.one_segment (Scenario.start ["talk.wav"]))
    = Some Scenario.one_segment.
Proof.
  assert (H : (diarization_pipeline (Scenario.start ["talk.wav"]) = None
               ∧ DIARIZATION_AVAILABLE Scenario.fallback_works = false)
              ∨ (∀ p, ∃ e, pipeline_call Scenario.fallback_works p "talk.wav" = Raise e)).
  { left. split; reflexivity. }
  split; [exact H |].
  destruct (diarization_failure_keeps_result Scenario.fallback_works "talk.wav"
              Scenario.one_segment
              (Scenario.start ["talk.wav"]) H) as (st' & Hrun & _).
  unfold returned. rewrite Hrun. reflexivity.
Defined.

(** ** load_diarization_model *)

Section LoadDiarization.

Context (W : World).



(** X12. A pipeline that was loaded is kept: the next call does not load it
    again, it runs the one that is there. *)
Theorem diarization_pipeline_kept (audio_path : string) (r : result_dict) (st : State)
    (p : nat) :
  diarization_pipeline st = Some p →
  ∃ r' st' new,
    add_speaker_diarization W audio_path r st = (Ok r', st')
    ∧ trace st' = trace st ++ new
    ∧ diarization_events new = [Diarize audio_path]
    ∧ diarization_pipeline st' = Some p.
Proof.
  intros Hpipe. unfold add_speaker_diarization.
  unfold_monad. simpl. rewrite Hpipe. simpl. rewrite Hpipe. simpl.
  destruct (pipeline_call W p audio_path) as [diarization | e]; simpl.
  - destruct (merge_diarization_changed W diarization r
                (add_event (Diarize audio_path)
                   (add_event (Log INFO "Adding speaker diarization...") st)))
      as (r' & st' & Hrun & _ & _ & [ev Htrace]).
    assert (Hpipe' : diarization_pipeline st' = Some p).
    { revert Hrun. unfold merge_diarization. run_cases; intros; simplify_eq; assumption. }
    rewrite Hrun.
    exists r', st', [Log INFO "Adding speaker diarization..."; Diarize audio_path;
                     Log ev.1 ev.2].
    split; [reflexivity |].
    split; [rewrite Htrace; solve_trace |]. split; [reflexivity | assumption].
  - eexists _, _, _. split; [reflexivity |]. split; [solve_trace |].
    split; [reflexivity | assumption].
Qed.

End LoadDiarization.


(** ** format_output *)

Section Subtitles.

Context (W : World).

Lemma timestamp_of_number (v : pyval) :
  (∀ q, v = VFloat q → binary64 q) →
  is_Some (as_number v) ↔ ∃ text, format_timestamp_srt v = Ok text.
Proof.
  intros Hbin. destruct v as [| b | z | q | negative | | s]; simpl; split;
    try (intros [x Hx]; discriminate);
    try (intros _; eexists; reflexivity).
  intros _. apply timestamp_of_float, Hbin. reflexivity.
Qed.

Lemma subtitle_ready_block (segment : segment_dict) :
  binary64_segment segment →
  subtitle_ready segment ↔
  ∃ start end_ text,
    rbind (getitem segment "start") format_timestamp_srt = Ok start
    ∧ rbind (getitem segment "end") format_timestamp_srt = Ok end_
    ∧ segment_text segment = Ok text.
Proof.
  intros Hbin.
  unfold subtitle_ready, segment_times, segment_text, getitem, rbind. split.
  - intros [[[s e] Ht] [text Htext]]. rewrite Htext.
    destruct (segment !! "start") as [a |] eqn:Sa; [| discriminate].
    destruct (segment !! "end") as [b |] eqn:Sb; [| discriminate].
    destruct (as_number a) as [qa |] eqn:Ea; [| discriminate].
    destruct (as_number b) as [qb |] eqn:Eb; [| discriminate].
    destruct (proj1 (timestamp_of_number a (λ q Hq, Hbin "start" q (eq_trans Sa (f_equal Some Hq)))))
      as [ta Hta]; [rewrite Ea; eauto |].
    destruct (proj1 (timestamp_of_number b (λ q Hq, Hbin "end" q (eq_trans Sb (f_equal Some Hq)))))
      as [tb Htb]; [rewrite Eb; eauto |].
    exists ta, tb, (Str.strip text). rewrite Hta, Htb. repeat split; reflexivity.
  - intros (start & end_ & text & Hs & He & Ht).
    destruct (segment !! "start") as [a |] eqn:Sa; [| discriminate].
    destruct (segment !! "end") as [b |] eqn:Sb; [| discriminate].
    destruct (proj2 (timestamp_of_number a (λ q Hq, Hbin "start" q (eq_trans Sa (f_equal Some Hq)))))
      as [qa Hqa]; [eauto |].
    destruct (proj2 (timestamp_of_number b (λ q Hq, Hbin "end" q (eq_trans Sb (f_equal Some Hq)))))
      as [qb Hqb]; [eauto |].
    rewrite Hqa, Hqb. split; [eauto |].
    destruct (segment !! "text") as [[| | | | | | s] |]; try discriminate. eauto.
Qed.

(** The subtitle lines come out exactly when every segment has finite
    numbers for its times and a string for its text; otherwise the
    formatter raises. *)
Lemma srt_content_ready (include_speakers : bool) (i : nat) (segments : list segment_dict) :
  Forall binary64_segment segments →
  Forall subtitle_ready segments
  ↔ ∃ lines, srt_content W include_speakers i segments = Ok lines.
Proof.
  intros Hbin. revert i.
  induction Hbin as [| segment segments Hseg Hbin IH]; intros i; simpl.
  - split; [eauto | constructor].
  - rewrite Forall_cons, (subtitle_ready_block segment Hseg), (IH (S i)). split.
    + intros [(start & end_ & text & -> & -> & ->) [lines ->]]. simpl. eauto.
    + intros [lines H].
      destruct (rbind (getitem segment "start") format_timestamp_srt); [| discriminate].
      destruct (rbind (getitem segment "end") format_timestamp_srt); [| discriminate].
      destruct (segment_text segment); [| discriminate]. simpl in H.
      destruct (srt_content W include_speakers (S i) segments); [| discriminate].
      split; eauto 6.
Qed.

(** Each segment gives four lines: its number, counted from [i], the two
    timestamps around an arrow, the text, and an empty line. *)
Lemma srt_content_blocks (include_speakers : bool) (segments : list segment_dict) :
  ∀ (i : nat) (lines : list string),
    srt_content W include_speakers i segments = Ok lines →
    length lines = 4 * length segments
    ∧ ∀ k segment,
        segments !! k = Some segment →
        ∃ start end_ text,
          rbind (getitem segment "start") format_timestamp_srt = Ok start
          ∧ rbind (getitem segment "end") format_timestamp_srt = Ok end_
          ∧ segment_text segment = Ok text
          ∧ lines !! (4 * k) = Some (pretty (i + k))
          ∧ lines !! (4 * k + 1) = Some (start +:+ " --> " +:+ end_)
          ∧ lines !! (4 * k + 2) = Some (with_speaker W include_speakers segment text)
          ∧ lines !! (4 * k + 3) = Some "".
Proof.
  induction segments as [| segment segments IH]; intros i lines H; simpl in H.
  - injection H as <-. split; [reflexivity |]. intros k segment Hk. inversion Hk.
  - destruct (rbind (getitem segment "start") format_timestamp_srt) as [start |] eqn:Es;
      [| discriminate].
    destruct (rbind (getitem segment "end") format_timestamp_srt) as [end_ |] eqn:Ee;
      [| discriminate].
    destruct (segment_text segment) as [text |] eqn:Et; [| discriminate]. simpl in H.
    destruct (srt_content W include_speakers (S i) segments) as [rest |] eqn:Er;
      [| discriminate].
    simpl in H. injection H as <-.
    destruct (IH (S i) rest Er) as [Hlen Hblocks].
    split; [simpl; rewrite Hlen; lia |].
    intros [| k] seg Hk; simpl in Hk.
    + injection Hk as <-. exists start, end_, text.
      rewrite Nat.add_0_r. repeat split; solve [assumption | reflexivity].
    + destruct (Hblocks k seg Hk) as (s & e & t & Hs & He & Ht & H0 & H1 & H2 & H3).
      exists s, e, t. repeat split; try assumption.
      * replace (4 * S k) with (S (S (S (S (4 * k))))) by lia.
        change (rest !! (4 * k) = Some (pretty (i + S k))).
        rewrite H0. f_equal. f_equal. lia.
      * replace (4 * S k + 1) with (S (S (S (S (4 * k + 1))))) by lia. exact H1.
      * replace (4 * S k + 2) with (S (S (S (S (4 * k + 2))))) by lia. exact H2.
      * replace (4 * S k + 3) with (S (S (S (S (4 * k + 3))))) by lia. exact H3.
Qed.

End Subtitles.

(** ** transcribe_with_whisperx *)

Section WhisperxModel.

Context (W : World) (self : Config).

(** With a model loaded, the call runs that model on the audio data and
    nothing else: no model is loaded, and the outcome, a result or an
    exception, is the model's own. *)
Lemma transcribe_with_whisperx_loaded (audio_path : string) (audio_data : ndarray)
    (sample_rate : Z) (st : State) (m : nat) :
  whisperx_model st = Some m →
  ∃ st' new,
    transcribe_with_whisperx W self audio_path audio_data sample_rate st
    = (whisperx_transcribe W m audio_data, st')
    ∧ trace st' = trace st ++ new
    ∧ engine_events new = [WhisperxTranscribe m]
    ∧ whisperx_model st' = Some m
    ∧ fs st' = fs st.
Proof.
  intros Hm. unfold transcribe_with_whisperx. unfold_monad. simpl.
  rewrite Hm. simpl. rewrite Hm.
  destruct (whisperx_transcribe W m audio_data); simpl;
    eexists; eexists; (split; [reflexivity |]); (split; [solve_trace |]);
    repeat split; assumption.
Qed.

(** A call that returned has left a model behind. *)
Lemma transcribe_with_whisperx_leaves_model (audio_path : string) (audio_data : ndarray)
    (sample_rate : Z) (st st' : State) (r : result_dict) :
  transcribe_with_whisperx W self audio_path audio_data sample_rate st = (Ok r, st') →
  is_Some (whisperx_model st').
Proof.
  unfold transcribe_with_whisperx, load_whisperx_model. intros Hrun.
  revert Hrun. run_cases; intros; simplify_eq; simpl; eauto.
Qed.

(** X5. The WhisperX model is loaded at most once: after a call that
    returned, every later call runs the model that is there, whatever
    file it is given, and loads nothing. *)
Theorem whisperx_model_loaded_once (audio_path : string) (audio_data : ndarray)
    (sample_rate : Z) (st st1 : State) (r : result_dict)
    (audio_path' : string) (audio_data' : ndarray) (sample_rate' : Z) :
  transcribe_with_whisperx W self audio_path audio_data sample_rate st = (Ok r, st1) →
  ∃ m st2 new,
    whisperx_model st1 = Some m
    ∧ transcribe_with_whisperx W self audio_path' audio_data' sample_rate' st1
      = (whisperx_transcribe W m audio_data', st2)
    ∧ trace st2 = trace st1 ++ new
    ∧ engine_events new = [WhisperxTranscribe m]
    ∧ whisperx_model st2 = Some m.
Proof.
  intros Hrun.
  destruct (transcribe_with_whisperx_leaves_model _ _ _ _ _ _ Hrun) as [m Hm].
  destruct (transcribe_with_whisperx_loaded audio_path' audio_data' sample_rate' st1 m Hm)
    as (st2 & new & Hrun2 & Htrace & Hevents & Hm2 & _).
  exists m, st2, new. auto.
Qed.

(** X6. When the model cannot be had (WhisperX is not installed, or loading
    raises), the call raises the fixed "Failed to load WhisperX model"
    without running anything; the reason of a failed load goes to the
    log only. No model is kept, so the next call tries again. *)
Theorem whisperx_model_load_fails (audio_path : string) (audio_data : ndarray)
    (sample_rate : Z) (st : State) :
  whisperx_model st = None →
  WHISPERX_AVAILABLE W = false
  ∨ (∃ e, whisperx_load_model W (model_size self) "cpu" = Raise e) →
  ∃ st' new,
    transcribe_with_whisperx W self audio_path audio_data sample_rate st
    = (Raise (RuntimeError "Failed to load WhisperX model"), st')
    ∧ trace st' = trace st ++ new
    ∧ (∀ m, WhisperxTranscribe m ∉ new)
    ∧ (∀ e, WHISPERX_AVAILABLE W = true →
            whisperx_load_model W (model_size self) "cpu" = Raise e →
            Log ERROR ("Failed to load WhisperX model: " +:+ exn_str e) ∈ new)
    ∧ whisperx_model st' = None
    ∧ fs st' = fs st.
Proof.
  intros Hnone Hfail. unfold transcribe_with_whisperx, load_whisperx_model.
  unfold_monad. simpl. rewrite Hnone.
  destruct (WHISPERX_AVAILABLE W) eqn:Hon; simpl.
  - destruct Hfail as [Hoff | [e He]]; [discriminate |]. rewrite He. simpl.
    eexists; eexists. split; [reflexivity |]. split; [solve_trace |].
    split; [| split; [| split; [assumption | reflexivity]]].
    + intros m Hin. repeat (apply elem_of_cons in Hin as [Hin | Hin]; [discriminate |]).
      inversion Hin.
    + intros e' _ He'. injection He' as <-. find_event.
  - eexists; exists []. split; [reflexivity |]. split; [solve_trace |].
    split; [| split; [| split; [assumption | reflexivity]]].
    + intros m Hin. inversion Hin.
    + intros e' Hon'. discriminate.
Qed.

End WhisperxModel.

(** ** The order of the work in transcribe_file *)

Lemma filter_kind (P : event → bool) (l : list event) :
  Forall (λ ev, is_log ev || P ev) l →
  Forall (λ ev, P ev) (actions l).
Proof.
  induction 1 as [| ev l Hev Hl IH]; simpl; [constructor |].
  destruct (is_log ev); simpl in *; [exact IH |]. constructor; assumption.
Qed.

Lemma actions_app (l1 l2 : list event) : actions (l1 ++ l2) = actions l1 ++ actions l2.
Proof. apply List.filter_app. Qed.

(** Closes [Forall P l] for a list that is written out. *)
Ltac all_events := repeat first [apply Forall_nil_2 | apply Forall_cons_2; [exact I |]].

Section Phases.

Context (W : World) (self : Config).

Lemma preprocess_audio_events (audio_path : string) (st : State) :
  ∃ new,
    trace (preprocess_audio W audio_path st).2 = trace st ++ new
    ∧ Forall (λ ev, is_log ev || is_audio_event ev) new.
Proof.
  unfold preprocess_audio, direct_load, convert_audio, preprocess_failed,
    NamedTemporaryFile, os_unlink.
  cbv zeta; run_cases; trace_tail; all_events.
Qed.

Lemma try_engines_events (processed : string) (audio_data : ndarray) (sample_rate : Z)
    (st : State) :
  ∃ new,
    trace (try_engines W self processed audio_data sample_rate st).2 = trace st ++ new
    ∧ Forall (λ ev, is_log ev || is_engine_event ev) new.
Proof.
  unfold try_engines, transcribe_with_mlx, transcribe_with_whisperx, load_whisperx_model.
  run_cases; trace_tail; all_events.
Qed.

Lemma add_speaker_diarization_events (audio_path : string) (r : result_dict) (st : State) :
  ∃ new,
    trace (add_speaker_diarization W audio_path r st).2 = trace st ++ new
    ∧ Forall (λ ev, is_log ev || is_diarization_event ev) new.
Proof.
  unfold add_speaker_diarization, load_diarization_model, merge_diarization.
  run_cases; trace_tail; all_events.
Qed.

Lemma add_speaker_diarization_steps (audio_path : string) (r : result_dict) (st : State)
    (include_speakers : bool) :
  ∃ r' st1 new1,
    (if include_speakers then add_speaker_diarization W audio_path r else ret r) st
    = (Ok r', st1)
    ∧ only_speakers_changed r r'
    ∧ fs st1 = fs st
    ∧ trace st1 = trace st ++ new1
    ∧ Forall (λ ev, is_diarization_event ev) (actions new1)
    ∧ (include_speakers = false → new1 = []).
Proof.
  destruct include_speakers.
  - destruct (add_speaker_diarization_quiet W audio_path r st)
      as (r' & st1 & new1 & Hrun & Hchanged & Hfs & Htrace & _).
    destruct (add_speaker_diarization_events audio_path r st) as (new & Htrace' & Hkinds).
    rewrite Hrun in Htrace'. simpl in Htrace'. rewrite Htrace in Htrace'.
    apply app_inv_head in Htrace' as ->.
    exists r', st1, new. split; [assumption |]. split; [assumption |].
    split; [assumption |]. split; [assumption |].
    split; [exact (filter_kind _ _ Hkinds) | discriminate].
  - exists r, st, []. split; [reflexivity |]. split; [apply only_speakers_changed_refl |].
    split; [reflexivity |]. split; [symmetry; apply app_nil_r |].
    split; [constructor | reflexivity].
Qed.

(** What the part of [transcribe_file] after the engines does: the
    diarization, if asked for, then at most the opening of the output
    file and one write to it; and what a success means. *)
Lemma after_engines_steps (audio_path output_format : string) (include_speakers : bool)
    (processed : string) (result : option result_dict) (engine_used : option string)
    (st : State) :
  let out := output_path_of self audio_path output_format in
  ∃ res st' new d o,
    after_engines W self audio_path output_format include_speakers processed
      result engine_used st = (res, st')
    ∧ trace st' = trace st ++ new
    ∧ actions new = d ++ o
    ∧ Forall (λ ev, is_diarization_event ev) d
    ∧ (include_speakers = false → d = [])
    ∧ (o = [] ∨ o = [OpenW out] ∨ ∃ text, o = [OpenW out; FileWrite out text])
    ∧ whisperx_model st' = whisperx_model st
    ∧ match res with
      | Ok outcome =>
          ∃ engine r r' text,
            result = Some r ∧ engine_used = Some engine
            ∧ only_speakers_changed r r'
            ∧ outcome = success_outcome out engine r'
            ∧ format_output W r' output_format include_speakers = Ok (RVal (VStr text))
            ∧ o = [OpenW out; FileWrite out text]
            ∧ open_w W out = Ok tt
            ∧ file_write W out text = Ok tt
            ∧ fs st' = fs st ∪ {[out]}
      | Raise e =>
          (o = [] → fs st' = fs st)
          ∧ (truthy_result result = false →
             e = RuntimeError "All transcription engines failed" ∧ new = [])
      end.
Proof.
  intros out. unfold after_engines.
  destruct (truthy_result result) eqn:Htruthy; simpl.
  2: { unfold_monad.
       exists (Raise (RuntimeError "All transcription engines failed")), st, [], [], [].
       split; [reflexivity |]. split; [symmetry; apply app_nil_r |].
       split; [reflexivity |]. split; [constructor |]. split; [reflexivity |].
       split; [left; reflexivity |]. split; [reflexivity |]. split; auto. }
  destruct result as [r |]; [| discriminate]. simpl.
  destruct (add_speaker_diarization_steps processed r st include_speakers)
    as (r' & st1 & new1 & Hrun & Hchanged & Hfs & Htrace & Hkinds & Hnone).
  assert (Hmodel : whisperx_model st1 = whisperx_model st).
  { destruct include_speakers; [| unfold ret in Hrun; congruence].
    revert Hrun. unfold add_speaker_diarization, load_diarization_model, merge_diarization.
    clear. run_cases; intros; simplify_eq; reflexivity. }
  unfold bind at 1. rewrite Hrun. clear Hrun. unfold write_output. fold out.
  run_cases.
  all: eexists _, _, _, (actions new1), _; split; [reflexivity |].
  all: split; [simpl; rewrite Htrace, <- ?app_assoc; simpl; reflexivity |].
  all: split; [first [rewrite actions_app; simpl; reflexivity
                     | rewrite <- (app_nil_r (actions new1)) at 1; reflexivity] |].
  all: split; [exact Hkinds |].
  all: split; [intros Hoff; rewrite (Hnone Hoff); reflexivity |].
  all: split; [first [left; reflexivity | right; left; reflexivity
                     | right; right; eexists; reflexivity] |].
  all: split; [exact Hmodel |].
  all: simpl; rewrite ?Hfs.
  all: try (split; [first [reflexivity | discriminate] | discriminate]).
  all: repeat match goal with u : unit |- _ => destruct u end.
  all: eexists _, _, _, _; repeat (split; [first [reflexivity | eassumption] |]);
    first [reflexivity | eassumption].
Qed.

End Phases.

Lemma temps_actions (l : list event) : temps (actions l) = temps l.
Proof.
  induction l as [| ev l IH]; [reflexivity |].
  destruct ev; simpl; rewrite ?temps_cons, IH; reflexivity.
Qed.

Section Steps.

Context (W : World) (self : Config).

(** A converted file is a temporary file. *)
Lemma preprocess_audio_temp (audio_path : string) (st : State) :
  match (preprocess_audio W audio_path st).1 with
  | Ok (processed, _, _) => processed = audio_path ∨ processed = temp_name ".wav" (fs st)
  | Raise _ => True
  end.
Proof.
  unfold preprocess_audio, direct_load, convert_audio, preprocess_failed,
    NamedTemporaryFile, os_unlink.
  cbv zeta; run_cases; auto.
Qed.

(** The end of [transcribe_file], after the three steps: the outcome is
    returned, a failure is logged, and the processed file is deleted
    when it is not the input. *)
Lemma transcribe_file_tail (audio_path output_format : string) (include_speakers : bool)
    (st st1 st2 st3 : State) (processed : string) (audio_data : ndarray) (sample_rate : Z)
    (result : option result_dict) (engine_used : option string) (res : res outcome_dict) :
  preprocess_audio W audio_path
    (add_event (Log INFO ("🎙️  Starting transcription: " +:+ audio_path)) st)
  = (Ok (processed, audio_data, sample_rate), st1) →
  try_engines W self processed audio_data sample_rate st1
  = (Ok (result, engine_used), st2) →
  after_engines W self audio_path output_format include_speakers processed
    result engine_used st2 = (res, st3) →
  ∃ st',
    transcribe_file W self audio_path output_format include_speakers st
    = (Ok match res with Ok o => o | Raise e => failure_outcome e end, st')
    ∧ trace st'
      = trace st3
        ++ match res with
           | Ok _ => []
           | Raise e => [Log ERROR ("❌ Transcription failed: " +:+ exn_str e);
                         Log ERROR (format_exc W e)]
           end
        ++ (if cleanup_needed audio_path processed then [Unlink processed] else [])
    ∧ fs st' = (if cleanup_needed audio_path processed then fs st3 ∖ {[processed]}
                else fs st3)
    ∧ whisperx_model st' = whisperx_model st3.
Proof.
  intros Hpre Hengines Hafter.
  unfold transcribe_file, transcribe_body, transcription_failed, cleanup, os_unlink.
  unfold_monad. simpl. rewrite Hpre. simpl. rewrite Hengines. simpl. rewrite Hafter.
  clear Hpre Hengines Hafter. unfold cleanup_needed. simpl.
  destruct (negb (bool_decide (processed = "")) && negb (bool_decide (processed = audio_path)));
    destruct res as [o | e]; simpl;
    try destruct (decide (processed ∈ fs st3)) as [Hin | Hout]; simpl.
  all: eexists; split; [reflexivity |]; simpl.
  all: split; [rewrite <- ?app_assoc, ?app_nil_r; reflexivity |].
  all: split; [| reflexivity].
  all: first [reflexivity | set_solver].
Qed.

(** The whole of [transcribe_file]: what it does, in order, apart from
    the log lines, and what its outcome means. *)
Lemma transcribe_file_steps (audio_path output_format : string) (include_speakers : bool)
    (st : State) :
  let out := output_path_of self audio_path output_format in
  ∃ o st' new a e d w c,
    transcribe_file W self audio_path output_format include_speakers st = (Ok o, st')
    ∧ trace st' = trace st ++ new
    ∧ actions new = a ++ e ++ d ++ w ++ c
    ∧ Forall (λ ev, is_audio_event ev) a
    ∧ Forall (λ ev, is_engine_event ev) e
    ∧ Forall (λ ev, is_diarization_event ev) d
    ∧ (include_speakers = false → d = [])
    ∧ (w = [] ∨ w = [OpenW out] ∨ ∃ text, w = [OpenW out; FileWrite out text])
    ∧ (c = [] ∨ ∃ p, c = [Unlink p] ∧ temps a = [p])
    ∧ (fs st' = fs st ∨ (fs st' = fs st ∪ {[out]} ∧ w ≠ []))
    ∧ ((∃ err, o = failure_outcome err)
       ∨ (∃ engine r' text,
            o = success_outcome out engine r'
            ∧ (engine = "MLX Whisper" ∨ engine = "WhisperX")
            ∧ format_output W r' output_format include_speakers = Ok (RVal (VStr text))
            ∧ w = [OpenW out; FileWrite out text]
            ∧ open_w W out = Ok tt
            ∧ file_write W out text = Ok tt
            ∧ out ∈ fs st')).
Proof.
  intros out.
  set (st0 := add_event (Log INFO ("🎙️  Starting transcription: " +:+ audio_path)) st).
  destruct (preprocess_audio_files W audio_path st0)
    as (new1 & Htrace1 & _ & _ & _ & Hfiles).
  destruct (preprocess_audio_events W audio_path st0) as (new1' & Htrace1' & Hkinds1).
  rewrite Htrace1 in Htrace1'. apply app_inv_head in Htrace1' as <-.
  pose proof (preprocess_audio_temp audio_path st0) as Htemp.
  destruct (preprocess_audio W audio_path st0)
    as [[[[processed audio_data] sample_rate] | err] st1] eqn:Hpre;
    simpl in Htrace1, Hfiles, Htemp.
  - destruct Hfiles as [Hin Hfiles].
    destruct (try_engines_quiet W self processed audio_data sample_rate st1)
      as (result & engine_used & st2 & new2 & Hrun2 & Hfs2 & Htrace2 & _ & Hengine).
    destruct (try_engines_events W self processed audio_data sample_rate st1)
      as (new2' & Htrace2' & Hkinds2).
    rewrite Hrun2 in Htrace2'. simpl in Htrace2'. rewrite Htrace2 in Htrace2'.
    apply app_inv_head in Htrace2' as <-.
    destruct (after_engines_steps W self audio_path output_format include_speakers
                processed result engine_used st2)
      as (res & st3 & new3 & d & w & Hrun3 & Htrace3 & Hactions3 & Hkinds3 & Hoff
          & Hw & _ & Hres).
    fold out in Hw, Hres.
    destruct (transcribe_file_tail audio_path output_format include_speakers
                st st1 st2 st3 processed audio_data sample_rate result engine_used res
                Hpre Hrun2 Hrun3)
      as (st' & Hrun & Htrace & Hfs & _).
    assert (Hfs3 : fs st3 = fs st2 ∨ (fs st3 = fs st2 ∪ {[out]} ∧ w ≠ [])).
    { destruct (after_engines_spec W self audio_path output_format include_speakers
                  processed result engine_used st2)
        as (res' & st3' & new3' & Hrun3' & _ & _ & Hfs3 & _).
      rewrite Hrun3 in Hrun3'. injection Hrun3' as <- <-.
      destruct Hfs3 as [Hsame | Hmore]; [left; exact Hsame |].
      destruct (decide (w = [])) as [-> | Hne]; [| right; split; assumption].
      left. destruct res as [o | err].
      - destruct Hres as (? & ? & ? & ? & _ & _ & _ & _ & _ & Hnil & _). discriminate.
      - destruct Hres as [Hnil _]. auto. }
    eexists _, st', _, (actions new1), (actions new2), d, w,
      (if cleanup_needed audio_path processed then [Unlink processed] else []).
    split; [exact Hrun |].
    split; [rewrite Htrace, Htrace3, Htrace2, Htrace1; unfold st0; simpl;
            rewrite <- !app_assoc; reflexivity |].
    split.
    { change (?x :: ?l) with ([x] ++ l) at 1.
      rewrite !actions_app, Hactions3. simpl.
      assert (Hlogs : actions match res with
                              | Ok _ => []
                              | Raise e => [Log ERROR ("❌ Transcription failed: "
                                                       +:+ exn_str e);
                                            Log ERROR (format_exc W e)]
                              end = []) by (destruct res; reflexivity).
      rewrite Hlogs. simpl.
      destruct (cleanup_needed audio_path processed); simpl;
        rewrite <- ?app_assoc; reflexivity. }
    split; [exact (filter_kind _ _ Hkinds1) |].
    split; [exact (filter_kind _ _ Hkinds2) |].
    split; [exact Hkinds3 |]. split; [exact Hoff |]. split; [exact Hw |].
    assert (Hneeded : cleanup_needed audio_path processed = true
                      → (processed ∉ fs st) ∧ processed ≠ out
                        ∧ fs st1 = fs st ∪ {[processed]} ∧ temps new1 = [processed]).
    { intros Hyes. unfold cleanup_needed in Hyes.
      apply andb_prop in Hyes as [_ Hdiff]. apply negb_true_iff in Hdiff.
      apply bool_decide_eq_false in Hdiff.
      destruct Hfiles as [(-> & _) | (Hfresh & _ & Hfs1 & Htemps1)]; [contradiction |].
      destruct Htemp as [-> | ->]; [contradiction |].
      repeat split; try assumption.
      intros Heq. symmetry in Heq. exact (output_path_not_temp self _ _ _ Heq). }
    assert (Hnot : cleanup_needed audio_path processed = false → fs st1 = fs st).
    { intros Hno. unfold cleanup_needed in Hno. simpl in Hno.
      destruct Hfiles as [(-> & Hfs1 & _) | (Hfresh & Hne & Hfs1 & Htemps1)];
        [exact Hfs1 |].
      rewrite (bool_decide_eq_false_2 _ Hne) in Hno. simpl in Hno.
      apply negb_false_iff, bool_decide_eq_true in Hno. subst processed.
      contradiction. }
    split.
    { destruct (cleanup_needed audio_path processed); [| left; reflexivity].
      destruct (Hneeded eq_refl) as (_ & _ & _ & Htemps1).
      right. exists processed. rewrite temps_actions. auto. }
    split.
    { rewrite Hfs. destruct (cleanup_needed audio_path processed).
      - destruct (Hneeded eq_refl) as (Hfresh & Hdiff & Hfs1 & _).
        destruct Hfs3 as [-> | [-> Hne]]; rewrite Hfs2, Hfs1;
          [left | right; split; [| exact Hne]]; set_solver.
      - rewrite (Hnot eq_refl) in Hfs2.
        destruct Hfs3 as [-> | [-> Hne]]; rewrite Hfs2; auto. }
    destruct res as [o | err]; [right | left; eauto].
    destruct Hres as (engine & r & r' & text & -> & -> & _ & -> & Hformat & -> & Hopen
                      & Hwrite & Hfs3').
    exists engine, r', text. split; [reflexivity |].
    split.
    { assert (Htruthy : truthy_result (Some r) = true).
      { destruct (truthy_result (Some r)) eqn:E; [reflexivity |].
        unfold after_engines in Hrun3. rewrite E in Hrun3. discriminate. }
      destruct (Hengine Htruthy) as [H | H]; injection H as <-; auto. }
    repeat (split; [assumption |]).
    rewrite Hfs, Hfs3'. destruct (cleanup_needed audio_path processed); [| set_solver].
    destruct (Hneeded eq_refl) as (_ & Hdiff & _). set_solver.
  - destruct Hfiles as [Hfs1 _].
    eexists (failure_outcome err), _, _, (actions new1), [], [], [], [].
    unfold transcribe_file, transcription_failed, cleanup.
    unfold bind at 1. unfold logger at 1. fold st0.
    unfold bind at 1, try_except at 1, bind at 1. rewrite Hpre.
    unfold_monad. simpl.
    split; [reflexivity |]. simpl.
    split; [rewrite Htrace1; unfold st0; solve_trace |].
    split.
    { change (?x :: ?l) with ([x] ++ l) at 1. rewrite !actions_app. simpl.
      rewrite !app_nil_r. reflexivity. }
    split; [exact (filter_kind _ _ Hkinds1) |].
    split; [constructor |]. split; [constructor |]. split; [reflexivity |].
    split; [left; reflexivity |]. split; [left; reflexivity |].
    split; [left; exact Hfs1 |]. left. eauto.
Qed.

End Steps.

Lemma filter_actions (Q : event → bool) (l : list event) :
  (∀ ev, Q ev = true → is_log ev = false) →
  List.filter Q (actions l) = List.filter Q l.
Proof.
  intros HQ. induction l as [| ev l IH]; [reflexivity |]. simpl.
  destruct (is_log ev) eqn:Hlog; simpl; rewrite IH; [| reflexivity].
  destruct (Q ev) eqn:HQev; [| reflexivity].
  rewrite (HQ ev HQev) in Hlog. discriminate.
Qed.


Lemma filter_disjoint (P Q : event → bool) (l : list event) :
  (∀ ev, Q ev = true → P ev = false) →
  Forall (λ ev, P ev) l → List.filter Q l = [].
Proof.
  intros Hdisjoint. induction 1 as [| ev l Hev Hl IH]; simpl; [reflexivity |].
  destruct (Q ev) eqn:HQ; [| exact IH].
  rewrite (Hdisjoint ev HQ) in Hev. contradiction.
Qed.

(** Splits a filter over a list that is written as a concatenation. *)
Ltac filter_pieces :=
  unfold engine_events, diarization_events, output_events;
  rewrite ?List.filter_app.

Section Engines.

Context (W : World) (self : Config).

(** What [transcribe_file] makes of the engine attempts: apart from
    them no engine is touched, an attempt without a result gives the
    failure "All transcription engines failed", and a success names the
    engine whose result was kept. *)
Lemma transcribe_file_engines (audio_path output_format : string)
    (include_speakers : bool) (st st1 st2 : State)
    (processed : string) (audio_data : ndarray) (sample_rate : Z)
    (result : option result_dict) (engine_used : option string) (new2 : list event) :
  preprocess_audio W audio_path
    (add_event (Log INFO ("🎙️  Starting transcription: " +:+ audio_path)) st)
  = (Ok (processed, audio_data, sample_rate), st1) →
  try_engines W self processed audio_data sample_rate st1
  = (Ok (result, engine_used), st2) →
  trace st2 = trace st1 ++ new2 →
  ∃ o st' new,
    transcribe_file W self audio_path output_format include_speakers st = (Ok o, st')
    ∧ trace st' = trace st ++ new
    ∧ engine_events new = engine_events new2
    ∧ whisperx_model st' = whisperx_model st2
    ∧ (truthy_result result = false →
       o = failure_outcome (RuntimeError "All transcription engines failed"))
    ∧ (o !! "success" = Some (OBool true) →
       ∃ engine, engine_used = Some engine ∧ o !! "engine" = Some (OStr engine)).
Proof.
  intros Hpre Hrun2 Htrace2.
  set (st0 := add_event (Log INFO ("🎙️  Starting transcription: " +:+ audio_path)) st)
    in *.
  destruct (preprocess_audio_events W audio_path st0) as (new1 & Htrace1 & Hkinds1).
  rewrite Hpre in Htrace1. simpl in Htrace1.
  destruct (after_engines_steps W self audio_path output_format include_speakers
              processed result engine_used st2)
    as (res & st3 & new3 & d & w & Hrun3 & Htrace3 & Hactions3 & Hkinds3 & _
        & Hw & Hmodel3 & Hres).
  destruct (transcribe_file_tail W self audio_path output_format include_speakers
              st st1 st2 st3 processed audio_data sample_rate result engine_used res
              Hpre Hrun2 Hrun3)
    as (st' & Hrun & Htrace & _ & Hmodel).
  eexists _, st', _. split; [exact Hrun |].
  split; [rewrite Htrace, Htrace3, Htrace2, Htrace1; unfold st0; simpl;
          rewrite <- !app_assoc; reflexivity |].
  split.
  { change (?x :: ?l) with ([x] ++ l) at 1. filter_pieces. simpl.
    rewrite <- (filter_actions is_engine_event new1) by (intros []; done).
    rewrite (filter_disjoint is_audio_event is_engine_event _)
      by first [exact (filter_kind _ _ Hkinds1) | intros []; done].
    rewrite <- (filter_actions is_engine_event new3) by (intros []; done).
    rewrite Hactions3, List.filter_app.
    rewrite (filter_disjoint is_diarization_event is_engine_event d)
      by first [exact Hkinds3 | intros []; done].
    assert (Hnone : List.filter is_engine_event w = []).
    { destruct Hw as [-> | [-> | [text ->]]]; reflexivity. }
    rewrite Hnone. simpl.
    assert (Hend : List.filter is_engine_event
                     match res with
                     | Ok _ => []
                     | Raise e => [Log ERROR ("❌ Transcription failed: " +:+ exn_str e);
                                   Log ERROR (format_exc W e)]
                     end = []) by (destruct res; reflexivity).
    rewrite Hend. simpl.
    destruct (cleanup_needed audio_path processed); simpl; rewrite ?app_nil_r; reflexivity. }
  split; [congruence |].
  destruct res as [o | err].
  - destruct Hres as (engine & r & r' & text & -> & -> & _ & -> & _).
    split; [intros Hfalse | intros _; exists engine; split; reflexivity].
    unfold after_engines in Hrun3. rewrite Hfalse in Hrun3. discriminate.
  - destruct Hres as [_ Hfailed]. split; [| intros H; discriminate].
    intros Hfalse. destruct (Hfailed Hfalse) as [-> _]. reflexivity.
Qed.

(** The first engine's answer is kept when it is a result that counts:
    a dict that is not empty, or any dict once the configured language
    has been written into it. WhisperX is then left alone. *)
Lemma try_engines_mlx (processed : string) (audio_data : ndarray) (sample_rate : Z)
    (st : State) (r : result_dict) :
  MLX_AVAILABLE W = true →
  mlx_whisper_transcribe W processed (mlx_model_name self) = Ok r →
  size r ≠ 0 ∨ truthy_str (language self) = true →
  ∃ r' st',
    try_engines W self processed audio_data sample_rate st
    = (Ok (Some r', Some "MLX Whisper"), st')
    ∧ r' = (if truthy_str (language self)
            then <["language" := RVal (VStr (default "" (language self)))]> r else r)
    ∧ trace st' = trace st ++ [Log INFO "Transcribing with MLX Whisper...";
                               MlxTranscribe processed (mlx_model_name self);
                               Log INFO "✅ MLX transcription completed"]
    ∧ whisperx_model st' = whisperx_model st.
Proof.
  intros Hon Hmlx Htruthy.
  unfold try_engines, transcribe_with_mlx. unfold_monad. simpl.
  rewrite Hon, Hmlx. simpl.
  assert (Hsize : (size (if truthy_str (language self)
                         then <["language" := RVal (VStr (default "" (language self)))]> r
                         else r) =? 0) = false).
  { apply Nat.eqb_neq. destruct (truthy_str (language self)).
    - intros Hzero. apply map_size_empty_iff in Hzero.
      apply (insert_non_empty _ _ _ Hzero).
    - destruct Htruthy as [Hne | ?]; [exact Hne | discriminate]. }
  rewrite Hsize. simpl.
  eexists _, _. split; [reflexivity |]. split; [reflexivity |].
  split; [solve_trace | reflexivity].
Qed.

(** An empty dict from the first engine is no result: without a
    configured language it is dropped without a log line, and without
    WhisperX the attempts end there. *)
Lemma try_engines_mlx_empty (processed : string) (audio_data : ndarray) (sample_rate : Z)
    (st : State) :
  MLX_AVAILABLE W = true →
  mlx_whisper_transcribe W processed (mlx_model_name self) = Ok ∅ →
  truthy_str (language self) = false →
  WHISPERX_AVAILABLE W = false →
  ∃ st',
    try_engines W self processed audio_data sample_rate st
    = (Ok (Some ∅, Some "MLX Whisper"), st')
    ∧ trace st' = trace st ++ [Log INFO "Transcribing with MLX Whisper...";
                               MlxTranscribe processed (mlx_model_name self);
                               Log INFO "✅ MLX transcription completed"].
Proof.
  intros Hon Hmlx Hlang Hoff.
  unfold try_engines, transcribe_with_mlx. unfold_monad. simpl.
  rewrite Hon, Hmlx, Hlang, Hoff. simpl.
  eexists. split; [reflexivity | solve_trace].
Qed.

End Engines.

(** ** transcribe_file *)

Section TranscribeFileMore.

Context (W : World) (self : Config).


(** X18. The call deletes no file that was there before it, the input
    included, and leaves at most one new file: the transcript. *)
Theorem transcribe_file_keeps_files (audio_path output_format : string)
    (include_speakers : bool) (st : State) :
  fs (transcribe_file W self audio_path output_format include_speakers st).2 = fs st
  ∨ fs (transcribe_file W self audio_path output_format include_speakers st).2
    = fs st ∪ {[output_path_of self audio_path output_format]}.
Proof.
  destruct (transcribe_file_steps W self audio_path output_format include_speakers st)
    as (o & st' & new & a & e & d & w & c & Hrun & _ & _ & _ & _ & _ & _ & _ & _ & Hfs & _).
  rewrite Hrun. simpl. destruct Hfs as [H | [H _]]; auto.
Qed.

(** X19. The order of the work: first the audio is read and converted, then
    the engines run, then the diarization (only when speakers are asked
    for), then the output file is opened and written once, and last the
    temporary file of the conversion, if there is one, is deleted. *)
Theorem transcribe_file_order (audio_path output_format : string)
    (include_speakers : bool) (st : State) :
  ∃ o st' new a e d w c,
    transcribe_file W self audio_path output_format include_speakers st = (Ok o, st')
    ∧ trace st' = trace st ++ new
    ∧ actions new = a ++ e ++ d ++ w ++ c
    ∧ Forall (λ ev, is_audio_event ev) a
    ∧ Forall (λ ev, is_engine_event ev) e
    ∧ Forall (λ ev, is_diarization_event ev) d
    ∧ (include_speakers = false → d = [])
    ∧ (w = [] ∨ w = [OpenW (output_path_of self audio_path output_format)]
       ∨ ∃ text, w = [OpenW (output_path_of self audio_path output_format);
                      FileWrite (output_path_of self audio_path output_format) text])
    ∧ (c = [] ∨ ∃ p, c = [Unlink p] ∧ temps a = [p]).
Proof.
  destruct (transcribe_file_steps W self audio_path output_format include_speakers st)
    as (o & st' & new & a & e & d & w & c & Hrun & Htrace & Hactions & Ha & He & Hd
        & Hoff & Hw & Hc & _).
  exists o, st', new, a, e, d, w, c. auto 10.
Qed.

(** X20. A success means that the transcript was written: the output file was
    opened and written once, with the formatting of the very result that
    the outcome carries, both calls returned, and the file is there when
    the call ends. *)
Theorem transcribe_file_success_written (audio_path output_format : string)
    (include_speakers : bool) (st st' : State) (o : outcome_dict) :
  transcribe_file W self audio_path output_format include_speakers st = (Ok o, st') →
  o !! "success" = Some (OBool true) →
  ∃ engine r' text new,
    o = success_outcome (output_path_of self audio_path output_format) engine r'
    ∧ (engine = "MLX Whisper" ∨ engine = "WhisperX")
    ∧ format_output W r' output_format include_speakers = Ok (RVal (VStr text))
    ∧ trace st' = trace st ++ new
    ∧ output_events new
      = [OpenW (output_path_of self audio_path output_format);
         FileWrite (output_path_of self audio_path output_format) text]
    ∧ open_w W (output_path_of self audio_path output_format) = Ok tt
    ∧ file_write W (output_path_of self audio_path output_format) text = Ok tt
    ∧ output_path_of self audio_path output_format ∈ fs st'.
Proof.
  destruct (transcribe_file_steps W self audio_path output_format include_speakers st)
    as (o' & st2 & new & a & e & d & w & c & Hrun & Htrace & Hactions & Ha & He & Hd
        & _ & _ & Hc & _ & Hres).
  rewrite Hrun. intros Ho Hsuccess. injection Ho as -> ->.
  destruct Hres as [[err ->] | (engine & r' & text & -> & Hengine & Hformat & -> & Hopen
                                & Hwrite & Hin)]; [discriminate |].
  exists engine, r', text, new. repeat (split; [assumption || reflexivity |]).
  split; [| auto].
  unfold output_events.
  rewrite <- (filter_actions is_output_event new) by (intros []; done).
  rewrite Hactions, !List.filter_app.
  rewrite (filter_disjoint is_audio_event is_output_event a)
    by first [exact Ha | intros []; done].
  rewrite (filter_disjoint is_engine_event is_output_event e)
    by first [exact He | intros []; done].
  rewrite (filter_disjoint is_diarization_event is_output_event d)
    by first [exact Hd | intros []; done].
  destruct Hc as [-> | (p & -> & _)]; reflexivity.
Qed.

(** X21. A text transcript is the ['text'] entry of the result, as the engine
    gave it: when the result has one, the segments are not looked at and
    no speaker label is written, whether speakers were asked for or not. *)
Theorem transcribe_file_txt_is_text_entry (audio_path : string)
    (include_speakers : bool) (st st' : State) (o : outcome_dict)
    (r' : result_dict) (text : string) :
  transcribe_file W self audio_path "txt" include_speakers st = (Ok o, st') →
  o !! "result" = Some (OResult r') →
  r' !! "text" = Some (RVal (VStr text)) →
  ∃ new, trace st' = trace st ++ new
         ∧ output_events new = [OpenW (output_path_of self audio_path "txt");
                                FileWrite (output_path_of self audio_path "txt") text].
Proof.
  destruct (transcribe_file_steps W self audio_path "txt" include_speakers st)
    as (o' & st2 & new & a & e & d & w & c & Hrun & Htrace & Hactions & Ha & He & Hd
        & _ & _ & Hc & _ & Hres).
  rewrite Hrun. intros Ho Hresult Htext. injection Ho as -> ->.
  destruct Hres as [[err ->] | (engine & r & text' & -> & _ & Hformat & -> & _)];
    [discriminate |].
  unfold success_outcome in Hresult. rewrite lookup_insert_eq in Hresult.
  injection Hresult as ->.
  unfold format_output in Hformat. simpl in Hformat. rewrite Htext in Hformat.
  injection Hformat as <-.
  exists new. split; [exact Htrace |].
  unfold output_events.
  rewrite <- (filter_actions is_output_event new) by (intros []; done).
  rewrite Hactions, !List.filter_app.
  rewrite (filter_disjoint is_audio_event is_output_event a)
    by first [exact Ha | intros []; done].
  rewrite (filter_disjoint is_engine_event is_output_event e)
    by first [exact He | intros []; done].
  rewrite (filter_disjoint is_diarization_event is_output_event d)
    by first [exact Hd | intros []; done].
  destruct Hc as [-> | (p & -> & _)]; reflexivity.
Qed.

(** X22. The first engine has priority: when MLX Whisper returns a result
    that counts, WhisperX is neither loaded nor run, and a success names
    "MLX Whisper" as the engine. *)
Theorem transcribe_file_prefers_mlx (audio_path output_format : string)
    (include_speakers : bool) (st : State)
    (processed : string) (audio_data : ndarray) (sample_rate : Z) (r : result_dict) :
  (preprocess_audio W audio_path
     (add_event (Log INFO ("🎙️  Starting transcription: " +:+ audio_path)) st)).1
  = Ok (processed, audio_data, sample_rate) →
  MLX_AVAILABLE W = true →
  mlx_whisper_transcribe W processed (mlx_model_name self) = Ok r →
  size r ≠ 0 ∨ truthy_str (language self) = true →
  ∃ o st' new,
    transcribe_file W self audio_path output_format include_speakers st = (Ok o, st')
    ∧ trace st' = trace st ++ new
    ∧ engine_events new = [MlxTranscribe processed (mlx_model_name self)]
    ∧ whisperx_model st' = whisperx_model st
    ∧ (o !! "success" = Some (OBool true) → o !! "engine" = Some (OStr "MLX Whisper")).
Proof.
  intros Hpre Hon Hmlx Htruthy.
  destruct (preprocess_audio_files W audio_path
              (add_event (Log INFO ("🎙️  Starting transcription: " +:+ audio_path)) st))
    as (new1 & _ & _ & Hmodel1 & _).
  destruct (preprocess_audio W audio_path
              (add_event (Log INFO ("🎙️  Starting transcription: " +:+ audio_path)) st))
    as [res1 st1] eqn:Hrun1.
  simpl in Hpre, Hmodel1. subst res1.
  destruct (try_engines_mlx W self processed audio_data sample_rate st1 r Hon Hmlx Htruthy)
    as (r' & st2 & Hrun2 & _ & Htrace2 & Hmodel2).
  destruct (transcribe_file_engines W self audio_path output_format include_speakers
              st st1 st2 processed audio_data sample_rate _ _ _ Hrun1 Hrun2 Htrace2)
    as (o & st' & new & Hrun & Htrace & Hevents & Hmodel & _ & Hengine).
  exists o, st', new. split; [exact Hrun |]. split; [exact Htrace |].
  split; [exact Hevents |]. split; [congruence |].
  intros Hsuccess. destruct (Hengine Hsuccess) as (engine & Heq & ->).
  injection Heq as <-. reflexivity.
Qed.

(** X23. An empty result counts as no result: when MLX Whisper returns an
    empty dict, no language is configured and WhisperX is not installed,
    the outcome is the failure "All transcription engines failed",
    though no engine raised. *)
Theorem transcribe_file_empty_result (audio_path output_format : string)
    (include_speakers : bool) (st : State)
    (processed : string) (audio_data : ndarray) (sample_rate : Z) :
  (preprocess_audio W audio_path
     (add_event (Log INFO ("🎙️  Starting transcription: " +:+ audio_path)) st)).1
  = Ok (processed, audio_data, sample_rate) →
  MLX_AVAILABLE W = true →
  mlx_whisper_transcribe W processed (mlx_model_name self) = Ok ∅ →
  truthy_str (language self) = false →
  WHISPERX_AVAILABLE W = false →
  ∃ o st' new,
    transcribe_file W self audio_path output_format include_speakers st = (Ok o, st')
    ∧ trace st' = trace st ++ new
    ∧ engine_events new = [MlxTranscribe processed (mlx_model_name self)]
    ∧ o !! "success" = Some (OBool false)
    ∧ o !! "error" = Some (OStr "All transcription engines failed").
Proof.
  intros Hpre Hon Hmlx Hlang Hoff.
  destruct (preprocess_audio W audio_path
              (add_event (Log INFO ("🎙️  Starting transcription: " +:+ audio_path)) st))
    as [res1 st1] eqn:Hrun1.
  simpl in Hpre. subst res1.
  destruct (try_engines_mlx_empty W self processed audio_data sample_rate st1
              Hon Hmlx Hlang Hoff) as (st2 & Hrun2 & Htrace2).
  destruct (transcribe_file_engines W self audio_path output_format include_speakers
              st st1 st2 processed audio_data sample_rate _ _ _ Hrun1 Hrun2 Htrace2)
    as (o & st' & new & Hrun & Htrace & Hevents & _ & Hfailed & _).
  exists o, st', new. split; [exact Hrun |]. split; [exact Htrace |].
  split; [exact Hevents |].
  rewrite (Hfailed eq_refl). split; reflexivity.
Qed.

End TranscribeFileMore.

(** ** preprocess_audio, on what it returns *)

(** X29. What the engines are handed: when [preprocess_audio] returns,
    the processed file exists, it is the input itself or a file that did
    not exist before, the input and every other file of before are still
    there, and, with librosa installed, the sample rate is 16000. *)
Theorem preprocess_audio_result (W : World) (audio_path : string) (st st' : State)
    (processed : string) (audio_data : ndarray) (sample_rate : Z) :
  preprocess_audio W audio_path st = (Ok (processed, audio_data, sample_rate), st') →
  processed ∈ fs st'
  ∧ audio_path ∈ fs st'
  ∧ fs st ⊆ fs st'
  ∧ (processed = audio_path ∨ processed ∉ fs st)
  ∧ (LIBROSA_AVAILABLE W = true → sample_rate = 16000%Z).
Proof.
  intros Hrun.
  destruct (preprocess_audio_files W audio_path st) as (new & _ & _ & _ & _ & Hfiles).
  pose proof (preprocess_audio_rate W audio_path st processed audio_data sample_rate)
    as Hrate.
  rewrite Hrun in Hfiles, Hrate. simpl in Hfiles, Hrate.
  destruct Hfiles as [Hin [(-> & Hfs & _) | (Hfresh & _ & Hfs & _)]]; rewrite Hfs.
  - repeat split; auto.
  - repeat split; auto; set_solver.
Qed.

(** ** format_output, on the whole result *)

Section Formats.

Context (W : World).

(** X13. Subtitles can be made exactly of the results whose segments all have
    finite numbers for ['start'] and ['end'] and a string for ['text']
    (the floats among them being binary64 values); one segment that lacks
    one of them, or whose ['start'] or ['end'] is a NaN or an infinity,
    makes the formatting raise. *)
Theorem format_srt_ready (r : result_dict) (segments : list segment_dict)
    (include_speakers : bool) :
  r !! "segments" = Some (RSegments segments) →
  Forall binary64_segment segments →
  Forall subtitle_ready segments
  ↔ ∃ text, format_output W r "srt" include_speakers = Ok (RVal (VStr text)).
Proof.
  intros Hsegments Hbin. unfold format_output, get_segments. simpl. rewrite Hsegments. simpl.
  rewrite (srt_content_ready W include_speakers 1 segments Hbin). split.
  - intros [lines ->]. simpl. eauto.
  - intros [text Htext].
    destruct (srt_content W include_speakers 1 segments) as [lines |];
      [eauto | discriminate].
Qed.

(** X14. When every segment has finite numbers for ['start'] and ['end'] and
    a string for ['text'] (the floats among them being binary64 values),
    the subtitle file has four lines for each segment, in the order of
    the segments: the number of the segment, counted from 1, the start
    and the end of the segment as timestamps around an arrow, the
    stripped text (after the speaker, when speakers are asked for and
    the segment has one), and an empty line. *)
Theorem format_srt_blocks (r : result_dict) (segments : list segment_dict)
    (include_speakers : bool) :
  r !! "segments" = Some (RSegments segments) →
  Forall binary64_segment segments →
  Forall subtitle_ready segments →
  ∃ lines,
    format_output W r "srt" include_speakers = Ok (RVal (VStr (Str.join newline lines)))
    ∧ length lines = 4 * length segments
    ∧ ∀ k segment,
        segments !! k = Some segment →
        ∃ a b s start end_,
          segment !! "start" = Some a ∧ segment !! "end" = Some b
          ∧ segment !! "text" = Some (VStr s)
          ∧ format_timestamp_srt a = Ok start
          ∧ format_timestamp_srt b = Ok end_
          ∧ lines !! (4 * k) = Some (pretty (1 + k))
          ∧ lines !! (4 * k + 1) = Some (start +:+ " --> " +:+ end_)
          ∧ lines !! (4 * k + 2)
            = Some (with_speaker W include_speakers segment (Str.strip s))
          ∧ lines !! (4 * k + 3) = Some "".
Proof.
  intros Hsegments Hbin Hready.
  destruct (proj1 (srt_content_ready W include_speakers 1 segments Hbin) Hready)
    as [lines Hlines].
  exists lines. unfold format_output, get_segments. simpl.
  rewrite Hsegments. simpl. rewrite Hlines. simpl. split; [reflexivity |].
  destruct (srt_content_blocks W include_speakers segments 1 lines Hlines)
    as [Hlen Hblocks].
  split; [exact Hlen |]. intros k segment Hk.
  destruct (Hblocks k segment Hk)
    as (start & end_ & text & Hs & He & Ht & H0 & H1 & H2 & H3).
  unfold getitem, rbind in Hs, He. unfold segment_text, getitem, rbind in Ht.
  destruct (segment !! "start") as [a |]; [| discriminate].
  destruct (segment !! "end") as [b |]; [| discriminate].
  destruct (segment !! "text") as [[| | | | | | s] |]; try discriminate.
  injection Ht as <-. exists a, b, s, start, end_. auto 10.
Qed.

Lemma txt_lines_map (include_speakers : bool) (segments : list segment_dict) :
  Forall (λ segment : segment_dict, ∃ s, segment !! "text" = Some (VStr s)) segments →
  txt_lines W include_speakers segments = Ok (txt_line W include_speakers <$> segments).
Proof.
  induction 1 as [| segment segments [s Hs] Hall IH]; [reflexivity |].
  simpl. unfold segment_text, getitem, txt_line. rewrite Hs. simpl. rewrite IH.
  reflexivity.
Qed.

(** X15. Without a ['text'] entry in the result, the text transcript is made
    of the segments: one line for each, in their order. *)
Theorem format_txt_from_segments (r : result_dict) (segments : list segment_dict)
    (include_speakers : bool) :
  r !! "text" = None →
  r !! "segments" = Some (RSegments segments) →
  Forall (λ segment : segment_dict, ∃ s, segment !! "text" = Some (VStr s)) segments →
  format_output W r "txt" include_speakers
  = Ok (RVal (VStr (Str.join newline (txt_line W include_speakers <$> segments)))).
Proof.
  intros Htext Hsegments Hall. unfold format_output, get_segments. simpl.
  rewrite Htext, Hsegments. simpl. rewrite (txt_lines_map _ _ Hall). reflexivity.
Qed.

(** X16. After a merge that went through, every line of a transcript with
    speakers starts with the label that the merge gave to the segment. *)
Theorem merged_lines_are_labelled (order : list string → list string)
    (turns : list turn) (segments segments' : list segment_dict) :
  merge_speakers order turns segments = (segments', None) →
  Forall2 (λ segment line,
             ∃ speaker, segment_speaker order turns segment = Ok speaker
                        ∧ line = "[" +:+ speaker +:+ "] "
                                 +:+ txt_line W false segment)
          segments (txt_line W true <$> segments').
Proof.
  revert segments'. induction segments as [| segment segments IH]; intros segments'; simpl.
  - intros H. injection H as <-. constructor.
  - destruct (segment_speaker order turns segment) as [speaker | e] eqn:E;
      [| discriminate].
    destruct (merge_speakers order turns segments) as [rest [e |]]; [discriminate |].
    intros H. injection H as <-. simpl. constructor; [| apply IH; reflexivity].
    exists speaker. split; [exact E |].
    unfold txt_line, with_speaker. rewrite lookup_insert_eq.
    rewrite lookup_insert_ne by discriminate. reflexivity.
Qed.

End Formats.
(** ** load_config *)

Lemma prefix_cons (a : Ascii.ascii) (s1 s2 : string) :
  String.prefix (String a s1) s2 = true →
  ∃ s2', s2 = String a s2' ∧ String.prefix s1 s2' = true.
Proof.
  destruct s2 as [| b s2]; simpl; [discriminate |].
  destruct (Ascii.ascii_dec a b) as [<- |]; [eauto | discriminate].
Qed.

Lemma split_1_prefix (line : string) :
  String.prefix "HF_TOKEN=" line = true →
  ∃ value, line = "HF_TOKEN=" +:+ value ∧ split_1 "=" line = Ok value.
Proof.
  intros H.
  do 9 (apply prefix_cons in H as (? & -> & H)).
  eexists. split; reflexivity.
Qed.

Lemma prefix_app (s t : string) : String.prefix s (s +:+ t) = true.
Proof.
  induction s as [| a s IH]; [destruct t; reflexivity |].
  simpl. destruct (Ascii.ascii_dec a a); [exact IH | contradiction].
Qed.

Lemma scan_config_first (before after : list string) (value : string) (stop : option exn) :
  Forall (λ line, String.prefix "HF_TOKEN=" line = false) before →
  scan_config (before ++ ("HF_TOKEN=" +:+ value) :: after) stop
  = Ok (Some (Str.strip value)).
Proof.
  induction 1 as [| line before Hline Hbefore IH].
  - simpl. rewrite (prefix_app "" value). reflexivity.
  - simpl. rewrite Hline. exact IH.
Qed.

Lemma scan_config_none (lines : list string) (stop : option exn) :
  Forall (λ line, String.prefix "HF_TOKEN=" line = false) lines →
  scan_config lines stop = match stop with Some e => Raise e | None => Ok None end.
Proof.
  induction 1 as [| line lines Hline Hlines IH]; [reflexivity |].
  simpl. rewrite Hline. exact IH.
Qed.

(** The loop over the config file stops at the first line that starts
    with [HF_TOKEN=]; such a line has a part after its first [=]. Without
    such a line, the loop ends as the reading of the file does. *)
Lemma scan_config_cases (lines : list string) :
  (∃ before value after,
     lines = before ++ ("HF_TOKEN=" +:+ value) :: after
     ∧ Forall (λ line, String.prefix "HF_TOKEN=" line = false) before)
  ∨ Forall (λ line, String.prefix "HF_TOKEN=" line = false) lines.
Proof.
  induction lines as [| line lines IH]; [right; constructor |].
  destruct (String.prefix "HF_TOKEN=" line) eqn:Hprefix.
  - left. destruct (split_1_prefix line Hprefix) as (value & -> & _).
    exists [], value, lines. split; [reflexivity | constructor].
  - destruct IH as [(before & value & after & -> & Hbefore) | Hnone].
    + left. exists (line :: before), value, after. split; [reflexivity |].
      constructor; assumption.
    + right. constructor; assumption.
Qed.

Lemma setenv_cases (key value : string) (environ : gmap string string) :
  (has_char "000" value = true
   ∧ setenv key value environ = Raise (ValueError "embedded null byte"))
  ∨ (has_char "000" value = false
     ∧ setenv key value environ = Ok (<[key := value]> environ)).
Proof. unfold setenv. destruct (has_char "000" value); auto. Qed.

Lemma has_char_nonempty (c : Ascii.ascii) (s : string) : has_char c s = true → s ≠ "".
Proof. intros H ->. discriminate. Qed.

Section LoadConfig.

Context (W : ConfigWorld).

(** [load_config] with a token in the environment. *)
Lemma load_config_environment (environ : gmap string string) (token : string) :
  environ !! "HF_TOKEN" = Some token → token ≠ "" →
  load_config W environ
  = match setenv "HUGGING_FACE_HUB_TOKEN" token environ with
    | Ok environ' => (Ok tt, (environ', [Log INFO "✅ Hugging Face token configured"]))
    | Raise e => (Raise e, (environ, []))
    end.
Proof.
  intros Htoken Hfull. unfold load_config, find_token. rewrite Htoken. simpl.
  rewrite bool_decide_eq_false_2 by assumption. simpl.
  rewrite bool_decide_eq_false_2 by assumption. reflexivity.
Qed.

(** [load_config] without a token, from the first half on. *)
Lemma load_config_found (environ : gmap string string) (found : res (option string)) :
  truthy_str (environ !! "HF_TOKEN") = false →
  find_token W environ
  = (let? found := found in
     match found with
     | Some token =>
         let? environ := setenv "HF_TOKEN" token environ in
         Ok (Some token, environ)
     | None => Ok (environ !! "HF_TOKEN", environ)
     end) →
  load_config W environ
  = match found with
    | Raise e => (Raise e, (environ, []))
    | Ok None =>
        (Ok tt,
         (environ,
          [Log WARNING "⚠️  No Hugging Face token found - some models may not download"]))
    | Ok (Some token) =>
        if has_char "000" token then (Raise (ValueError "embedded null byte"), (environ, []))
        else if bool_decide (token = "") then
          (Ok tt,
           (<["HF_TOKEN" := token]> environ,
            [Log WARNING "⚠️  No Hugging Face token found - some models may not download"]))
        else
          (Ok tt,
           (<["HUGGING_FACE_HUB_TOKEN" := token]> (<["HF_TOKEN" := token]> environ),
            [Log INFO "✅ Hugging Face token configured"]))
    end.
Proof.
  intros Henv Hfind. unfold load_config. rewrite Hfind.
  destruct found as [[token |] | e]; simpl; [| rewrite Henv; reflexivity | reflexivity].
  unfold setenv. destruct (has_char "000" token) eqn:Hnul; simpl; [reflexivity |].
  destruct (bool_decide (token = "")); simpl; [reflexivity |].
  rewrite Hnul. reflexivity.
Qed.

Lemma load_config_home_raises (environ : gmap string string) (e : exn) :
  truthy_str (environ !! "HF_TOKEN") = false →
  Path_home W = Raise e →
  load_config W environ = (Raise e, (environ, [])).
Proof.
  intros Henv Hhome. rewrite (load_config_found environ (Raise e) Henv); [reflexivity |].
  unfold find_token. rewrite Henv, Hhome. reflexivity.
Qed.

Lemma load_config_exists_raises (environ : gmap string string) (home : string) (e : exn) :
  truthy_str (environ !! "HF_TOKEN") = false →
  Path_home W = Ok home →
  config_exists W (config_file home) = Raise e →
  load_config W environ = (Raise e, (environ, [])).
Proof.
  intros Henv Hhome Hthere. rewrite (load_config_found environ (Raise e) Henv); [reflexivity |].
  unfold find_token. rewrite Henv, Hhome. simpl. rewrite Hthere. reflexivity.
Qed.

Lemma load_config_no_file (environ : gmap string string) (home : string) :
  truthy_str (environ !! "HF_TOKEN") = false →
  Path_home W = Ok home →
  config_exists W (config_file home) = Ok false →
  load_config W environ
  = (Ok tt,
     (environ,
      [Log WARNING "⚠️  No Hugging Face token found - some models may not download"])).
Proof.
  intros Henv Hhome Hthere. rewrite (load_config_found environ (Ok None) Henv); [reflexivity |].
  unfold find_token. rewrite Henv, Hhome. simpl. rewrite Hthere. reflexivity.
Qed.

Lemma load_config_open_raises (environ : gmap string string) (home : string) (e : exn) :
  truthy_str (environ !! "HF_TOKEN") = false →
  Path_home W = Ok home →
  config_exists W (config_file home) = Ok true →
  config_open W (config_file home) = Raise e →
  load_config W environ = (Raise e, (environ, [])).
Proof.
  intros Henv Hhome Hthere Hopen.
  rewrite (load_config_found environ (Raise e) Henv); [reflexivity |].
  unfold find_token. rewrite Henv, Hhome. simpl. rewrite Hthere, Hopen. reflexivity.
Qed.

Lemma load_config_file (environ : gmap string string) (home : string)
    (lines : list string) (stop : option exn) :
  truthy_str (environ !! "HF_TOKEN") = false →
  Path_home W = Ok home →
  config_exists W (config_file home) = Ok true →
  config_open W (config_file home) = Ok (lines, stop) →
  find_token W environ
  = (let? found := scan_config lines stop in
     match found with
     | Some token =>
         let? environ := setenv "HF_TOKEN" token environ in
         Ok (Some token, environ)
     | None => Ok (environ !! "HF_TOKEN", environ)
     end).
Proof.
  intros Henv Hhome Hthere Hopen.
  unfold find_token. rewrite Henv, Hhome. simpl. rewrite Hthere, Hopen. reflexivity.
Qed.

(** X1. What [load_config] leaves behind whenever it returns: only the two
    token variables can have changed; a token in the environment is never
    replaced; and either a token that is not empty is configured, then
    both variables hold it and the success is logged, or none is, then
    [HUGGING_FACE_HUB_TOKEN] is as it was and the warning is logged. *)
Theorem load_config_tokens (environ environ' : gmap string string) (logs : list event) :
  load_config W environ = (Ok tt, (environ', logs)) →
  (∀ key, key ≠ "HF_TOKEN" → key ≠ "HUGGING_FACE_HUB_TOKEN" →
          environ' !! key = environ !! key)
  ∧ (truthy_str (environ !! "HF_TOKEN") = true →
     environ' !! "HF_TOKEN" = environ !! "HF_TOKEN")
  ∧ ((∃ token, token ≠ ""
               ∧ environ' !! "HF_TOKEN" = Some token
               ∧ environ' !! "HUGGING_FACE_HUB_TOKEN" = Some token
               ∧ logs = [Log INFO "✅ Hugging Face token configured"])
     ∨ (truthy_str (environ' !! "HF_TOKEN") = false
        ∧ environ' !! "HUGGING_FACE_HUB_TOKEN" = environ !! "HUGGING_FACE_HUB_TOKEN"
        ∧ logs = [Log WARNING
                    "⚠️  No Hugging Face token found - some models may not download"])).
Proof.
  assert (Hnone : ∀ environ' logs,
    truthy_str (environ !! "HF_TOKEN") = false →
    (Ok tt,
     (environ,
      [Log WARNING "⚠️  No Hugging Face token found - some models may not download"]))
    = (Ok tt : res unit, (environ', logs)) →
    (∀ key, key ≠ "HF_TOKEN" → key ≠ "HUGGING_FACE_HUB_TOKEN" →
            environ' !! key = environ !! key)
    ∧ (truthy_str (environ !! "HF_TOKEN") = true →
       environ' !! "HF_TOKEN" = environ !! "HF_TOKEN")
    ∧ ((∃ token, token ≠ ""
                 ∧ environ' !! "HF_TOKEN" = Some token
                 ∧ environ' !! "HUGGING_FACE_HUB_TOKEN" = Some token
                 ∧ logs = [Log INFO "✅ Hugging Face token configured"])
       ∨ (truthy_str (environ' !! "HF_TOKEN") = false
          ∧ environ' !! "HUGGING_FACE_HUB_TOKEN" = environ !! "HUGGING_FACE_HUB_TOKEN"
          ∧ logs = [Log WARNING
                      "⚠️  No Hugging Face token found - some models may not download"]))).
  { intros env' logs' Henv H. injection H as <- <-.
    split; [reflexivity |]. split; [reflexivity |]. right. auto. }
  destruct (truthy_str (environ !! "HF_TOKEN")) eqn:Henv.
  - destruct (environ !! "HF_TOKEN") as [token |] eqn:Htoken; [| discriminate].
    assert (Hfull : token ≠ "").
    { simpl in Henv. intros ->. discriminate. }
    rewrite (load_config_environment environ token Htoken Hfull).
    destruct (setenv_cases "HUGGING_FACE_HUB_TOKEN" token environ) as [[_ ->] | [_ ->]];
      [discriminate |].
    intros H. injection H as <- <-.
    split; [intros key H1 H2; rewrite lookup_insert_ne by congruence; reflexivity |].
    split; [intros _; rewrite lookup_insert_ne by discriminate; exact Htoken |].
    left. exists token. split; [assumption |].
    rewrite lookup_insert_ne by discriminate. rewrite lookup_insert_eq. auto.
  - destruct (Path_home W) as [home | e] eqn:Hhome;
      [| rewrite (load_config_home_raises environ e Henv Hhome); discriminate].
    destruct (config_exists W (config_file home)) as [[|] | e] eqn:Hthere;
      [| rewrite (load_config_no_file environ home Henv Hhome Hthere); apply Hnone; reflexivity
       | rewrite (load_config_exists_raises environ home e Henv Hhome Hthere); discriminate].
    destruct (config_open W (config_file home)) as [[lines stop] | e] eqn:Hopen;
      [| rewrite (load_config_open_raises environ home e Henv Hhome Hthere Hopen);
         discriminate].
    rewrite (load_config_found environ (scan_config lines stop) Henv
               (load_config_file environ home lines stop Henv Hhome Hthere Hopen)).
    destruct (scan_config lines stop) as [[token |] | e];
      [| apply Hnone; reflexivity | discriminate].
    destruct (has_char "000" token); [discriminate |].
    destruct (decide (token = "")) as [Hempty | Hfull].
    + rewrite bool_decide_eq_true_2 by assumption.
      intros H; injection H as <- <-.
      split; [intros key H1 H2; rewrite !lookup_insert_ne by congruence; reflexivity |].
      split; [discriminate |]. right.
      rewrite lookup_insert_eq, lookup_insert_ne by discriminate.
      simpl. rewrite bool_decide_eq_true_2 by assumption. auto.
    + rewrite bool_decide_eq_false_2 by assumption.
      intros H; injection H as <- <-.
      split; [intros key H1 H2; rewrite !lookup_insert_ne by congruence; reflexivity |].
      split; [discriminate |]. left. exists token.
      split; [assumption |].
      rewrite lookup_insert_ne by discriminate. rewrite !lookup_insert_eq. auto.
Qed.

(** X2. The call raises in these cases only, and then it leaves the
    environment as it was and logs nothing: the token of the environment
    has a NUL byte, which the assignment to [HUGGING_FACE_HUB_TOKEN]
    refuses; or the environment has no token and [Path.home()] raises, or
    [exists()] raises, or opening the config file raises, or reading it
    raises before a line that starts with [HF_TOKEN=], or the stripped
    value of the first such line has a NUL byte, which the assignment to
    [HF_TOKEN] refuses. *)
Theorem load_config_raises (environ : gmap string string) (e : exn) :
  ((load_config W environ).1 = Raise e ↔ config_fault W environ e)
  ∧ ((load_config W environ).1 = Raise e → (load_config W environ).2 = (environ, [])).
Proof.
  assert (Hforward : (load_config W environ).1 = Raise e →
                     config_fault W environ e ∧ (load_config W environ).2 = (environ, [])).
  { destruct (truthy_str (environ !! "HF_TOKEN")) eqn:Henv.
    - destruct (environ !! "HF_TOKEN") as [token |] eqn:Htoken; [| discriminate].
      assert (Hfull : token ≠ "").
      { simpl in Henv. intros ->. discriminate. }
      rewrite (load_config_environment environ token Htoken Hfull).
      destruct (setenv_cases "HUGGING_FACE_HUB_TOKEN" token environ)
        as [[Hnul ->] | [_ ->]]; [| discriminate].
      simpl. intros H. injection H as <-.
      split; [exact (fault_environment W environ token Htoken Hnul) | reflexivity].
    - destruct (Path_home W) as [home | e'] eqn:Hhome.
      2:{ rewrite (load_config_home_raises environ e' Henv Hhome). simpl.
          intros H. injection H as <-.
          split; [exact (fault_home W environ e' Henv Hhome) | reflexivity]. }
      destruct (config_exists W (config_file home)) as [[|] | e'] eqn:Hthere.
      2:{ rewrite (load_config_no_file environ home Henv Hhome Hthere). discriminate. }
      2:{ rewrite (load_config_exists_raises environ home e' Henv Hhome Hthere). simpl.
          intros H. injection H as <-.
          split; [exact (fault_exists W environ home e' Henv Hhome Hthere) | reflexivity]. }
      destruct (config_open W (config_file home)) as [[lines stop] | e'] eqn:Hopen.
      2:{ rewrite (load_config_open_raises environ home e' Henv Hhome Hthere Hopen). simpl.
          intros H. injection H as <-.
          split; [exact (fault_open W environ home e' Henv Hhome Hthere Hopen) | reflexivity]. }
      rewrite (load_config_found environ (scan_config lines stop) Henv
                 (load_config_file environ home lines stop Henv Hhome Hthere Hopen)).
      destruct (scan_config_cases lines)
        as [(before & value & after & -> & Hbefore) | Hnone].
      + rewrite (scan_config_first before after value stop Hbefore).
        destruct (has_char "000" (Str.strip value)) eqn:Hnul.
        * simpl. intros H. injection H as <-.
          split; [| reflexivity].
          exact (fault_token W environ home before after value stop
                   Henv Hhome Hthere Hopen Hbefore Hnul).
        * destruct (bool_decide (Str.strip value = "")); discriminate.
      + rewrite (scan_config_none lines stop Hnone).
        destruct stop as [e' |]; [| discriminate].
        simpl. intros H. injection H as <-.
        split; [| reflexivity].
        exact (fault_read W environ home lines e' Henv Hhome Hthere Hopen Hnone). }
  split; [split; [apply Hforward |] | apply Hforward].
  intros Hfault.
  destruct Hfault as [token Htoken Hnul | e Henv Hhome | home e Henv Hhome Hthere
                     | home e Henv Hhome Hthere Hopen
                     | home lines e Henv Hhome Hthere Hopen Hnone
                     | home before after value stop Henv Hhome Hthere Hopen Hbefore Hnul].
  - rewrite (load_config_environment environ token Htoken (has_char_nonempty _ _ Hnul)).
    unfold setenv. rewrite Hnul. reflexivity.
  - rewrite (load_config_home_raises environ e Henv Hhome). reflexivity.
  - rewrite (load_config_exists_raises environ home e Henv Hhome Hthere). reflexivity.
  - rewrite (load_config_open_raises environ home e Henv Hhome Hthere Hopen). reflexivity.
  - rewrite (load_config_found environ (scan_config lines (Some e)) Henv
               (load_config_file environ home lines (Some e) Henv Hhome Hthere Hopen)).
    rewrite (scan_config_none lines (Some e) Hnone). reflexivity.
  - rewrite (load_config_found environ (scan_config _ stop) Henv
               (load_config_file environ home _ stop Henv Hhome Hthere Hopen)).
    rewrite (scan_config_first before after value stop Hbefore), Hnul. reflexivity.
Qed.

(** X3. Without a token in the environment, when the config file is there and
    can be read up to its first line that starts with [HF_TOKEN=], this
    line decides, whatever follows it: unless its stripped value has a
    NUL byte, the call returns, the stripped value is [HF_TOKEN] and,
    unless it is empty, [HUGGING_FACE_HUB_TOKEN] as well. *)
Theorem load_config_first_line (environ : gmap string string) (home : string)
    (before after : list string) (value : string) (stop : option exn) :
  truthy_str (environ !! "HF_TOKEN") = false →
  Path_home W = Ok home →
  config_exists W (config_file home) = Ok true →
  config_open W (config_file home)
  = Ok (before ++ ("HF_TOKEN=" +:+ value) :: after, stop) →
  Forall (λ line, String.prefix "HF_TOKEN=" line = false) before →
  has_char "000" (Str.strip value) = false →
  ∃ environ' logs,
    load_config W environ = (Ok tt, (environ', logs))
    ∧ environ' !! "HF_TOKEN" = Some (Str.strip value)
    ∧ environ' !! "HUGGING_FACE_HUB_TOKEN"
      = (if decide (Str.strip value = "") then environ !! "HUGGING_FACE_HUB_TOKEN"
         else Some (Str.strip value)).
Proof.
  intros Henv Hhome Hthere Hopen Hbefore Hnul.
  rewrite (load_config_found environ (scan_config _ stop) Henv
             (load_config_file environ home _ stop Henv Hhome Hthere Hopen)).
  rewrite (scan_config_first before after value stop Hbefore), Hnul.
  destruct (decide (Str.strip value = "")) as [Hempty | Hfull].
  - rewrite bool_decide_eq_true_2 by assumption.
    eexists _, _. split; [reflexivity |].
    rewrite lookup_insert_eq, lookup_insert_ne by discriminate. auto.
  - rewrite bool_decide_eq_false_2 by assumption.
    eexists _, _. split; [reflexivity |].
    rewrite lookup_insert_ne by discriminate. rewrite !lookup_insert_eq. auto.
Qed.

End LoadConfig.

(** ** npz_loading_fix *)

Section NpzFix.

Context (W : Npz.World).

(** X25. The patched load is numpy's own load, with the same outcome and no
    effect at all, unless the environment is a bundle, the argument is
    the path of an existing [.npz] file, and numpy's load of it raises
    an error that mentions zip or file-like. *)
Theorem npz_load_untouched (file : Npz.file_arg) (st : Npz.State) :
  Npz.copies W file st = false →
  Npz._patched_numpy_load W file st = (Npz.numpy_load W file, st).
Proof.
  unfold Npz.copies, Npz._patched_numpy_load.
  destruct (Npz._is_bundled_environment W); simpl; [| reflexivity].
  destruct file as [file_path | id]; [| reflexivity].
  destruct (bool_decide (Str.lower (Path.suffix file_path) = ".npz")
            && bool_decide (file_path ∈ Npz.fs st)); simpl; [| reflexivity].
  destruct (Npz.numpy_load W (Npz.FilePath file_path)) as [a | e]; [reflexivity |].
  intros ->. reflexivity.
Qed.

(** X26. In that case the file is loaded from a copy: a new temporary file,
    which is put on the list for the cleanup; the outcome is that of
    numpy's load of the copy, and the original error is dropped. *)
Theorem npz_load_from_copy (file_path : string) (st : Npz.State) :
  Npz.copies W (Npz.FilePath file_path) st = true →
  Npz.tempfile_error W = None →
  Npz.shutil_copy2 W file_path (temp_name ".npz" (Npz.fs st)) = Ok tt →
  ∃ st',
    Npz._patched_numpy_load W (Npz.FilePath file_path) st
    = (Npz.numpy_load W (Npz.FilePath (temp_name ".npz" (Npz.fs st))), st')
    ∧ (temp_name ".npz" (Npz.fs st) ∉ Npz.fs st)
    ∧ Npz.fs st' = Npz.fs st ∪ {[temp_name ".npz" (Npz.fs st)]}
    ∧ Npz._temp_files st' = Npz._temp_files st ++ [temp_name ".npz" (Npz.fs st)].
Proof.
  unfold Npz.copies, Npz._patched_numpy_load, Npz._copy_to_temp.
  intros Hcopies Htemp Hcopy.
  apply andb_prop in Hcopies as [-> Hcopies]. simpl.
  apply andb_prop in Hcopies as [-> Hcopies].
  destruct (Npz.numpy_load W (Npz.FilePath file_path)) as [a | e]; [discriminate |].
  rewrite Hcopies, Htemp. simpl. rewrite Hcopy.
  eexists. split; [reflexivity |]. split; [apply temp_name_fresh |].
  split; reflexivity.
Qed.

Lemma unlink_all_spec (temp_files : list string) (files : gset string) :
  Npz.unlink_all temp_files files = files ∖ list_to_set temp_files.
Proof.
  revert files. induction temp_files as [| temp_file rest IH]; intros files; simpl.
  - set_solver.
  - rewrite IH. case_bool_decide; set_solver.
Qed.

(** X27. The cleanup deletes the files on the list, those of them that are
    still there, and no other file; the list is empty afterwards. *)
Theorem npz_cleanup (st : Npz.State) :
  Npz.fs (Npz.cleanup_temp_files st) = Npz.fs st ∖ list_to_set (Npz._temp_files st)
  ∧ Npz._temp_files (Npz.cleanup_temp_files st) = [].
Proof. split; [apply unlink_all_spec | reflexivity]. Qed.

(** What holds between the loads when every copy succeeds: the files
    are those of the start and the temporary files on the list, and no
    file of the start is on the list. *)
Lemma npz_load_invariant (files : gset string) (file : Npz.file_arg) (st : Npz.State) :
  (∀ source target, Npz.shutil_copy2 W source target = Ok tt) →
  Npz.fs st = files ∪ list_to_set (Npz._temp_files st) →
  list_to_set (Npz._temp_files st) ## files →
  let st' := (Npz._patched_numpy_load W file st).2 in
  Npz.fs st' = files ∪ list_to_set (Npz._temp_files st')
  ∧ list_to_set (Npz._temp_files st') ## files.
Proof.
  intros Hcopy Hfs Hdisjoint.
  pose proof (temp_name_fresh ".npz" (Npz.fs st)) as Hfresh.
  unfold Npz._patched_numpy_load, Npz._copy_to_temp.
  destruct (Npz._is_bundled_environment W); simpl; [| auto].
  destruct file as [file_path | id]; [| auto].
  destruct (bool_decide (Str.lower (Path.suffix file_path) = ".npz")
            && bool_decide (file_path ∈ Npz.fs st)); simpl; [| auto].
  destruct (Npz.numpy_load W (Npz.FilePath file_path)) as [a | e]; [auto |].
  destruct (Npz.zip_error e); simpl; [| auto].
  destruct (Npz.tempfile_error W); simpl; [auto |].
  rewrite Hcopy. simpl. rewrite list_to_set_app_L. simpl.
  remember (temp_name ".npz" (Npz.fs st)) as name eqn:Ename. clear Ename.
  rewrite Hfs in *. set_solver.
Qed.

(** X28. A session leaves no file behind: after any loads and the cleanup,
    the files are those of the start, when the list was empty at the
    start and copying never fails. *)
Theorem npz_session_leaves_no_file (files : list Npz.file_arg) (st : Npz.State) :
  Npz._temp_files st = [] →
  (∀ source target, Npz.shutil_copy2 W source target = Ok tt) →
  Npz.fs (Npz.cleanup_temp_files (Npz.loads W files st)) = Npz.fs st.
Proof.
  intros Hempty Hcopy.
  assert (Hinv : ∀ st',
             Npz.fs st' = Npz.fs st ∪ list_to_set (Npz._temp_files st') →
             list_to_set (Npz._temp_files st') ## Npz.fs st →
             Npz.fs (Npz.cleanup_temp_files (Npz.loads W files st')) = Npz.fs st).
  { induction files as [| file files IH]; intros st' Hfs Hdisjoint; simpl.
    - rewrite unlink_all_spec, Hfs. set_solver.
    - destruct (npz_load_invariant (Npz.fs st) file st' Hcopy Hfs Hdisjoint) as [H1 H2].
      apply IH; assumption. }
  apply Hinv; rewrite Hempty; set_solver.
Qed.

End NpzFix.

(** ** The further properties at work *)

Lemma diarization_stops_witness :
  diarization_pipeline Cases.pipeline_loaded = Some 2
  ∧ pipeline_call Cases.all_work 2 "talk.wav" = Ok Scenario.two_turns
  ∧ Cases.three_segments !! "segments"
    = Some (RSegments ([Scenario.segment_of 1 2 "a"]
                       ++ Cases.no_times :: [Scenario.segment_of 6 8 "c"]))
  ∧ (merge_speakers (set_iter Cases.all_work) Scenario.two_turns
       [Scenario.segment_of 1 2 "a"]).2 = None
  ∧ Cases.no_times !! "start" = None
  ∧ returned (add_speaker_diarization Cases.all_work "talk.wav" Cases.three_segments
                Cases.pipeline_loaded)
    = Some (<["segments" :=
               RSegments [<["speaker" := VStr "SPEAKER_00"]> (Scenario.segment_of 1 2 "a");
                          Cases.no_times; Scenario.segment_of 6 8 "c"]]>
              Cases.three_segments).
Proof.
  assert (H4 : (merge_speakers (set_iter Cases.all_work) Scenario.two_turns
                  [Scenario.segment_of 1 2 "a"]).2 = None) by (vm_compute; reflexivity).
  repeat (split; [first [exact H4 | reflexivity] |]).
  destruct (diarization_stops_at_segment_without_start Cases.all_work "talk.wav"
              Cases.three_segments Cases.pipeline_loaded 2 Scenario.two_turns
              [Scenario.segment_of 1 2 "a"] [Scenario.segment_of 6 8 "c"] Cases.no_times
              eq_refl eq_refl eq_refl H4 eq_refl) as (st' & Hrun & _).
  unfold returned. rewrite Hrun. vm_compute. reflexivity.
Defined.



Lemma diarization_pipeline_kept_witness :
  diarization_pipeline Cases.pipeline_loaded = Some 2
  ∧ ∃ r' st' new,
      add_speaker_diarization Cases.all_work "talk.wav" Scenario.one_segment
        Cases.pipeline_loaded = (Ok r', st')
      ∧ trace st' = trace Cases.pipeline_loaded ++ new
      ∧ diarization_events new = [Diarize "talk.wav"]
      ∧ diarization_pipeline st' = Some 2.
Proof.
  split; [reflexivity |].
  exact (diarization_pipeline_kept Cases.all_work "talk.wav" Scenario.one_segment
           Cases.pipeline_loaded 2 eq_refl).
Defined.

Lemma whisperx_model_loaded_once_witness :
  transcribe_with_whisperx Scenario.fallback_works Scenario.config "a.wav"
    Scenario.mono_16k 16000 (Scenario.start [])
  = (Ok Scenario.one_segment,
     (transcribe_with_whisperx Scenario.fallback_works Scenario.config "a.wav"
        Scenario.mono_16k 16000 (Scenario.start [])).2)
  ∧ engine_events
      (trace (transcribe_with_whisperx Scenario.fallback_works Scenario.config "b.wav"
                Scenario.mono_16k 16000
                (transcribe_with_whisperx Scenario.fallback_works Scenario.config "a.wav"
                   Scenario.mono_16k 16000 (Scenario.start [])).2).2)
    = [WhisperxLoadModel "large-v3-turbo"; WhisperxTranscribe 1; WhisperxTranscribe 1].
Proof.
  assert (H : transcribe_with_whisperx Scenario.fallback_works Scenario.config "a.wav"
                Scenario.mono_16k 16000 (Scenario.start [])
              = (Ok Scenario.one_segment,
                 (transcribe_with_whisperx Scenario.fallback_works Scenario.config "a.wav"
                    Scenario.mono_16k 16000 (Scenario.start [])).2))
    by (vm_compute; reflexivity).
  split; [exact H |].
  destruct (whisperx_model_loaded_once Scenario.fallback_works Scenario.config "a.wav"
              Scenario.mono_16k 16000 (Scenario.start []) _ Scenario.one_segment
              "b.wav" Scenario.mono_16k 16000 H)
    as (m & st2 & new & Hm & Hrun & Htrace & Hevents & _).
  rewrite Hrun. simpl. rewrite Htrace. unfold engine_events in *.
  rewrite List.filter_app, Hevents. vm_compute in Hm. injection Hm as <-.
  vm_compute. reflexivity.
Defined.

Lemma whisperx_model_load_fails_witness :
  whisperx_model (Scenario.start []) = None
  ∧ (WHISPERX_AVAILABLE Scenario.none_installed = false
     ∨ ∃ e, whisperx_load_model Scenario.none_installed (model_size Scenario.config) "cpu"
            = Raise e)
  ∧ raised (transcribe_with_whisperx Scenario.none_installed Scenario.config "a.wav"
              Scenario.mono_16k 16000 (Scenario.start []))
    = Some (RuntimeError "Failed to load WhisperX model").
Proof.
  assert (H : WHISPERX_AVAILABLE Scenario.none_installed = false
              ∨ ∃ e, whisperx_load_model Scenario.none_installed
                       (model_size Scenario.config) "cpu" = Raise e)
    by (left; reflexivity).
  split; [reflexivity |]. split; [exact H |].
  destruct (whisperx_model_load_fails Scenario.none_installed Scenario.config "a.wav"
              Scenario.mono_16k 16000 (Scenario.start []) eq_refl H)
    as (st' & new & Hrun & _).
  unfold raised. rewrite Hrun. reflexivity.
Defined.

Lemma output_path_witness :
  Str.contains "/" "srt" = false
  ∧ output_path_of Scenario.config "/data/talk.final.mp3" "srt"
    = "/data/talk.final_transcript.srt"
  ∧ Path.name (output_path_of Scenario.config "/data/talk.final.mp3" "srt")
    = Path.stem "/data/talk.final.mp3" +:+ "_transcript." +:+ "srt"
  ∧ output_path_of Scenario.config "/data/talk.final.mp3" "srt" ≠ "/data/talk.final.mp3".
Proof.
  split; [reflexivity |]. split; [reflexivity |].
  exact (output_path_beside_input Scenario.config "/data/talk.final.mp3" "srt" eq_refl).
Defined.


Lemma transcribe_file_success_witness :
  transcribe_file Scenario.fallback_works Scenario.config "talk.mp3" "json" true
    (Scenario.start ["talk.mp3"])
  = (Ok (success_outcome "talk_transcript.json" "WhisperX" Scenario.one_segment),
     (transcribe_file Scenario.fallback_works Scenario.config "talk.mp3" "json" true
        (Scenario.start ["talk.mp3"])).2)
  ∧ success_outcome "talk_transcript.json" "WhisperX" Scenario.one_segment !! "success"
    = Some (OBool true)
  ∧ "talk_transcript.json"
    ∈ fs (transcribe_file Scenario.fallback_works Scenario.config "talk.mp3" "json" true
            (Scenario.start ["talk.mp3"])).2.
Proof.
  assert (H : transcribe_file Scenario.fallback_works Scenario.config "talk.mp3" "json" true
                (Scenario.start ["talk.mp3"])
              = (Ok (success_outcome "talk_transcript.json" "WhisperX" Scenario.one_segment),
                 (transcribe_file Scenario.fallback_works Scenario.config "talk.mp3" "json"
                    true (Scenario.start ["talk.mp3"])).2))
    by (vm_compute; reflexivity).
  split; [exact H |]. split; [reflexivity |].
  destruct (transcribe_file_success_written Scenario.fallback_works Scenario.config
              "talk.mp3" "json" true (Scenario.start ["talk.mp3"]) _ _ H eq_refl)
    as (engine & r' & text & new & _ & _ & _ & _ & _ & _ & _ & Hin).
  exact Hin.
Defined.

Lemma transcribe_file_txt_witness :
  transcribe_file Cases.all_work Scenario.config "talk.wav" "txt" true
    (Scenario.start ["talk.wav"])
  = (Ok (success_outcome "talk_transcript.txt" "MLX Whisper"
           (<["segments" :=
                RSegments [<["speaker" := VStr "SPEAKER_00"]>
                             (Scenario.segment_of 0 3 "test")]]> Scenario.one_segment)),
     (transcribe_file Cases.all_work Scenario.config "talk.wav" "txt" true
        (Scenario.start ["talk.wav"])).2)
  ∧ output_events
      (trace (transcribe_file Cases.all_work Scenario.config "talk.wav" "txt" true
                (Scenario.start ["talk.wav"])).2)
    = [OpenW "talk_transcript.txt"; FileWrite "talk_transcript.txt" "test"].
Proof.
  assert (H : transcribe_file Cases.all_work Scenario.config "talk.wav" "txt" true
                (Scenario.start ["talk.wav"])
              = (Ok (success_outcome "talk_transcript.txt" "MLX Whisper"
                       (<["segments" :=
                            RSegments [<["speaker" := VStr "SPEAKER_00"]>
                                         (Scenario.segment_of 0 3 "test")]]>
                          Scenario.one_segment)),
                 (transcribe_file Cases.all_work Scenario.config "talk.wav" "txt" true
                    (Scenario.start ["talk.wav"])).2))
    by (vm_compute; reflexivity).
  split; [exact H |].
  destruct (transcribe_file_txt_is_text_entry Cases.all_work Scenario.config "talk.wav"
              true (Scenario.start ["talk.wav"]) _ _ _ "test" H eq_refl eq_refl)
    as (new & Htrace & Hevents).
  rewrite Htrace. exact Hevents.
Defined.

Lemma transcribe_file_prefers_mlx_witness :
  (preprocess_audio Cases.all_work "talk.wav"
     (add_event (Log INFO ("🎙️  Starting transcription: " +:+ "talk.wav"))
        (Scenario.start ["talk.wav"]))).1
  = Ok ("talk.wav", Scenario.mono_16k, 16000%Z)
  ∧ MLX_AVAILABLE Cases.all_work = true
  ∧ mlx_whisper_transcribe Cases.all_work "talk.wav" (mlx_model_name Scenario.config)
    = Ok Scenario.one_segment
  ∧ (size Scenario.one_segment ≠ 0 ∨ truthy_str (language Scenario.config) = true)
  ∧ ∃ o st' new,
      transcribe_file Cases.all_work Scenario.config "talk.wav" "srt" false
        (Scenario.start ["talk.wav"]) = (Ok o, st')
      ∧ trace st' = trace (Scenario.start ["talk.wav"]) ++ new
      ∧ engine_events new = [MlxTranscribe "talk.wav" (mlx_model_name Scenario.config)]
      ∧ whisperx_model st' = whisperx_model (Scenario.start ["talk.wav"])
      ∧ (o !! "success" = Some (OBool true) → o !! "engine" = Some (OStr "MLX Whisper")).
Proof.
  assert (Hpre : (preprocess_audio Cases.all_work "talk.wav"
                    (add_event (Log INFO ("🎙️  Starting transcription: " +:+ "talk.wav"))
                       (Scenario.start ["talk.wav"]))).1
                 = Ok ("talk.wav", Scenario.mono_16k, 16000%Z))
    by (vm_compute; reflexivity).
  assert (Hsize : size Scenario.one_segment ≠ 0 ∨ truthy_str (language Scenario.config) = true)
    by (left; vm_compute; discriminate).
  split; [exact Hpre |]. split; [reflexivity |]. split; [reflexivity |].
  split; [exact Hsize |].
  exact (transcribe_file_prefers_mlx Cases.all_work Scenario.config "talk.wav" "srt" false
           (Scenario.start ["talk.wav"]) "talk.wav" Scenario.mono_16k 16000%Z
           Scenario.one_segment Hpre eq_refl eq_refl Hsize).
Defined.

Lemma transcribe_file_empty_result_witness :
  (preprocess_audio Cases.mlx_empty "talk.wav"
     (add_event (Log INFO ("🎙️  Starting transcription: " +:+ "talk.wav"))
        (Scenario.start ["talk.wav"]))).1
  = Ok ("talk.wav", Scenario.mono_16k, 16000%Z)
  ∧ MLX_AVAILABLE Cases.mlx_empty = true
  ∧ mlx_whisper_transcribe Cases.mlx_empty "talk.wav" (mlx_model_name Scenario.config)
    = Ok ∅
  ∧ truthy_str (language Scenario.config) = false
  ∧ WHISPERX_AVAILABLE Cases.mlx_empty = false
  ∧ (λ o : outcome_dict, (o !! "success", o !! "error")) <$> returned
      (transcribe_file Cases.mlx_empty Scenario.config "talk.wav" "txt" false
         (Scenario.start ["talk.wav"]))
    = Some (Some (OBool false), Some (OStr "All transcription engines failed")).
Proof.
  assert (Hpre : (preprocess_audio Cases.mlx_empty "talk.wav"
                    (add_event (Log INFO ("🎙️  Starting transcription: " +:+ "talk.wav"))
                       (Scenario.start ["talk.wav"]))).1
                 = Ok ("talk.wav", Scenario.mono_16k, 16000%Z))
    by (vm_compute; reflexivity).
  split; [exact Hpre |]. repeat (split; [reflexivity |]).
  destruct (transcribe_file_empty_result Cases.mlx_empty Scenario.config "talk.wav" "txt"
              false (Scenario.start ["talk.wav"]) "talk.wav" Scenario.mono_16k 16000%Z
              Hpre eq_refl eq_refl eq_refl eq_refl)
    as (o & st' & new & Hrun & _ & _ & Hsuccess & Herror).
  unfold returned. rewrite Hrun. simpl. rewrite Hsuccess, Herror. reflexivity.
Defined.

Lemma binary64_segment_of (start_time end_time : Z) (text : string) :
  (Z.abs start_time <= 2 ^ 53)%Z → (Z.abs end_time <= 2 ^ 53)%Z →
  binary64_segment
    (Scenario.segment_of (inject_Z start_time) (inject_Z end_time) text).
Proof.
  intros Hs He key q. unfold Scenario.segment_of.
  destruct (decide (key = "start")) as [-> | Hstart].
  { rewrite lookup_insert_eq. intros [= <-]. apply binary64_integer, Hs. }
  rewrite lookup_insert_ne by congruence.
  destruct (decide (key = "end")) as [-> | Hend].
  { rewrite lookup_insert_eq. intros [= <-]. apply binary64_integer, He. }
  rewrite lookup_insert_ne by congruence.
  destruct (decide (key = "text")) as [-> | Htext].
  { rewrite lookup_insert_eq. discriminate. }
  rewrite lookup_insert_ne by congruence. rewrite lookup_empty. discriminate.
Qed.

Lemma binary64_no_times : binary64_segment Cases.no_times.
Proof.
  intros key q. unfold Cases.no_times.
  destruct (decide (key = "text")) as [-> | Htext].
  { rewrite lookup_insert_eq. discriminate. }
  rewrite lookup_insert_ne by congruence. rewrite lookup_empty. discriminate.
Qed.

Lemma format_srt_ready_witness :
  Cases.three_segments !! "segments"
  = Some (RSegments ([Scenario.segment_of 1 2 "a"]
                     ++ Cases.no_times :: [Scenario.segment_of 6 8 "c"]))
  ∧ Forall binary64_segment ([Scenario.segment_of 1 2 "a"]
                             ++ Cases.no_times :: [Scenario.segment_of 6 8 "c"])
  ∧ ¬ Forall subtitle_ready ([Scenario.segment_of 1 2 "a"]
                             ++ Cases.no_times :: [Scenario.segment_of 6 8 "c"])
  ∧ format_output Cases.all_work Cases.three_segments "srt" false
    = Raise (KeyError "start").
Proof.
  assert (Hbin : Forall binary64_segment
                   ([Scenario.segment_of 1 2 "a"]
                    ++ Cases.no_times :: [Scenario.segment_of 6 8 "c"])).
  { repeat constructor.
    - apply (binary64_segment_of 1 2); vm_compute; discriminate.
    - apply binary64_no_times.
    - apply (binary64_segment_of 6 8); vm_compute; discriminate. }
  split; [reflexivity |]. split; [exact Hbin |]. split; [| vm_compute; reflexivity].
  intros Hready.
  apply (format_srt_ready Cases.all_work Cases.three_segments _ false eq_refl Hbin) in Hready
    as [text Htext].
  vm_compute in Htext. discriminate.
Defined.

Lemma format_srt_blocks_witness :
  Cases.segments_only !! "segments" = Some (RSegments Cases.two_segments)
  ∧ Forall binary64_segment Cases.two_segments
  ∧ Forall subtitle_ready Cases.two_segments
  ∧ format_output Cases.all_work Cases.segments_only "srt" false
    = Ok (RVal (VStr (Str.join newline
                        ["1"; "00:00:01,000 --> 00:00:02,000"; "Good morning."; "";
                         "2"; "00:00:06,000 --> 00:00:08,000"; "Hello."; ""]))).
Proof.
  assert (Hbin : Forall binary64_segment Cases.two_segments).
  { repeat constructor.
    - apply (binary64_segment_of 1 2); vm_compute; discriminate.
    - apply (binary64_segment_of 6 8); vm_compute; discriminate. }
  assert (H : Forall subtitle_ready Cases.two_segments).
  { repeat constructor; eexists; vm_compute; reflexivity. }
  split; [reflexivity |]. split; [exact Hbin |]. split; [exact H |].
  destruct (format_srt_blocks Cases.all_work Cases.segments_only Cases.two_segments false
              eq_refl Hbin H) as (lines & Hformat & _).
  vm_compute. reflexivity.
Defined.

Lemma format_txt_witness :
  Cases.segments_only !! "text" = None
  ∧ Cases.segments_only !! "segments" = Some (RSegments Cases.two_segments)
  ∧ Forall (λ segment : segment_dict, ∃ s, segment !! "text" = Some (VStr s))
      Cases.two_segments
  ∧ format_output Cases.all_work Cases.segments_only "txt" true
    = Ok (RVal (VStr ("Good morning." +:+ newline +:+ "Hello."))).
Proof.
  assert (H : Forall (λ segment : segment_dict, ∃ s, segment !! "text" = Some (VStr s))
                Cases.two_segments).
  { repeat constructor; eexists; vm_compute; reflexivity. }
  split; [reflexivity |]. split; [reflexivity |]. split; [exact H |].
  rewrite (format_txt_from_segments Cases.all_work Cases.segments_only Cases.two_segments
             true eq_refl eq_refl H).
  vm_compute. reflexivity.
Defined.

Lemma merged_lines_witness :
  merge_speakers remove_dups Scenario.two_turns Cases.two_segments
  = ([<["speaker" := VStr "SPEAKER_00"]> (Scenario.segment_of 1 2 " Good morning. ");
      <["speaker" := VStr "SPEAKER_01"]> (Scenario.segment_of 6 8 "Hello.")], None)
  ∧ txt_line Cases.all_work true
    <$> [<["speaker" := VStr "SPEAKER_00"]> (Scenario.segment_of 1 2 " Good morning. ");
         <["speaker" := VStr "SPEAKER_01"]> (Scenario.segment_of 6 8 "Hello.")]
    = ["[SPEAKER_00] Good morning."; "[SPEAKER_01] Hello."].
Proof.
  assert (H : merge_speakers remove_dups Scenario.two_turns Cases.two_segments
              = ([<["speaker" := VStr "SPEAKER_00"]>
                    (Scenario.segment_of 1 2 " Good morning. ");
                  <["speaker" := VStr "SPEAKER_01"]> (Scenario.segment_of 6 8 "Hello.")],
                 None)) by (vm_compute; reflexivity).
  split; [exact H |].
  pose proof (merged_lines_are_labelled Cases.all_work remove_dups Scenario.two_turns
                Cases.two_segments _ H) as Hlines.
  vm_compute. reflexivity.
Defined.

Lemma load_config_tokens_witness :
  load_config Cases.config_machine ∅
  = (Ok tt,
     (<["HUGGING_FACE_HUB_TOKEN" := "hf_abc"]> (<["HF_TOKEN" := "hf_abc"]> ∅),
      [Log INFO "✅ Hugging Face token configured"]))
  ∧ (<["HUGGING_FACE_HUB_TOKEN" := "hf_abc"]> (<["HF_TOKEN" := "hf_abc"]> ∅)
     : gmap string string) !! "PATH" = None.
Proof.
  assert (H : load_config Cases.config_machine ∅
              = (Ok tt,
                 (<["HUGGING_FACE_HUB_TOKEN" := "hf_abc"]> (<["HF_TOKEN" := "hf_abc"]> ∅),
                  [Log INFO "✅ Hugging Face token configured"])))
    by (vm_compute; reflexivity).
  split; [exact H |].
  destruct (load_config_tokens Cases.config_machine ∅ _ _ H) as [Hkeys _].
  rewrite (Hkeys "PATH") by discriminate. reflexivity.
Defined.

Lemma load_config_raises_witness :
  config_fault Cases.locked_machine ∅
    (Exn "PermissionError" "[Errno 13] Permission denied")
  ∧ load_config Cases.locked_machine ∅
    = (Raise (Exn "PermissionError" "[Errno 13] Permission denied"), (∅, [])).
Proof.
  assert (Hfault : config_fault Cases.locked_machine ∅
                     (Exn "PermissionError" "[Errno 13] Permission denied")).
  { apply (fault_open Cases.locked_machine ∅ "/Users/me"); reflexivity. }
  split; [exact Hfault |].
  destruct (load_config_raises Cases.locked_machine ∅
              (Exn "PermissionError" "[Errno 13] Permission denied"))
    as [[_ Hraise] Hstate].
  specialize (Hstate (Hraise Hfault)). specialize (Hraise Hfault).
  destruct (load_config Cases.locked_machine ∅) as [r st]. simpl in *. congruence.
Defined.

Lemma load_config_first_line_witness :
  truthy_str ((∅ : gmap string string) !! "HF_TOKEN") = false
  ∧ Path_home Cases.config_machine = Ok "/Users/me"
  ∧ config_exists Cases.config_machine (config_file "/Users/me") = Ok true
  ∧ config_open Cases.config_machine (config_file "/Users/me")
    = Ok (["# settings" +:+ newline]
          ++ ("HF_TOKEN=" +:+ (" hf_abc " +:+ newline)) :: ["HF_TOKEN=hf_other"], None)
  ∧ Forall (λ line, String.prefix "HF_TOKEN=" line = false) ["# settings" +:+ newline]
  ∧ has_char "000" (Str.strip (" hf_abc " +:+ newline)) = false
  ∧ ∃ environ' logs,
      load_config Cases.config_machine ∅ = (Ok tt, (environ', logs))
      ∧ environ' !! "HF_TOKEN" = Some "hf_abc".
Proof.
  assert (H : Forall (λ line, String.prefix "HF_TOKEN=" line = false)
                ["# settings" +:+ newline]) by (repeat constructor).
  assert (Henv : truthy_str ((∅ : gmap string string) !! "HF_TOKEN") = false)
    by reflexivity.
  assert (Hthere : config_exists Cases.config_machine (config_file "/Users/me") = Ok true)
    by reflexivity.
  assert (Hopen : config_open Cases.config_machine (config_file "/Users/me")
                  = Ok (["# settings" +:+ newline]
                        ++ ("HF_TOKEN=" +:+ (" hf_abc " +:+ newline))
                           :: ["HF_TOKEN=hf_other"], None)) by reflexivity.
  assert (Hnul : has_char "000" (Str.strip (" hf_abc " +:+ newline)) = false)
    by (vm_compute; reflexivity).
  split; [exact Henv |]. split; [reflexivity |]. split; [exact Hthere |].
  split; [exact Hopen |]. split; [exact H |]. split; [exact Hnul |].
  destruct (load_config_first_line Cases.config_machine ∅ "/Users/me"
              ["# settings" +:+ newline] ["HF_TOKEN=hf_other"] (" hf_abc " +:+ newline) None
              Henv eq_refl Hthere Hopen H Hnul) as (environ' & logs & Hrun & Htoken & _).
  exists environ', logs. split; [exact Hrun |]. rewrite Htoken. vm_compute. reflexivity.
Defined.

Lemma npz_load_untouched_witness :
  Npz.copies Cases.bundle (Npz.FilePath "other.npz") Cases.bundle_start = false
  ∧ Npz._patched_numpy_load Cases.bundle (Npz.FilePath "other.npz") Cases.bundle_start
    = (Ok 7, Cases.bundle_start).
Proof.
  assert (H : Npz.copies Cases.bundle (Npz.FilePath "other.npz") Cases.bundle_start = false)
    by (vm_compute; reflexivity).
  split; [exact H |].
  rewrite (npz_load_untouched Cases.bundle _ _ H). reflexivity.
Defined.

Lemma npz_load_from_copy_witness :
  Npz.copies Cases.bundle (Npz.FilePath "weights.npz") Cases.bundle_start = true
  ∧ Npz.tempfile_error Cases.bundle = None
  ∧ Npz.shutil_copy2 Cases.bundle "weights.npz"
      (temp_name ".npz" (Npz.fs Cases.bundle_start)) = Ok tt
  ∧ (Npz._patched_numpy_load Cases.bundle (Npz.FilePath "weights.npz")
       Cases.bundle_start).1 = Ok 7.
Proof.
  assert (H : Npz.copies Cases.bundle (Npz.FilePath "weights.npz") Cases.bundle_start
              = true) by (vm_compute; reflexivity).
  split; [exact H |]. split; [reflexivity |]. split; [reflexivity |].
  destruct (npz_load_from_copy Cases.bundle "weights.npz" Cases.bundle_start H
              eq_refl eq_refl) as (st' & Hrun & _).
  rewrite Hrun. vm_compute. reflexivity.
Defined.

Lemma npz_session_witness :
  Npz._temp_files Cases.bundle_start = []
  ∧ (∀ source target, Npz.shutil_copy2 Cases.bundle source target = Ok tt)
  ∧ Npz.fs (Npz.cleanup_temp_files
              (Npz.loads Cases.bundle
                 [Npz.FilePath "weights.npz"; Npz.FileObject 0; Npz.FilePath "weights.npz"]
                 Cases.bundle_start))
    = Npz.fs Cases.bundle_start.
Proof.
  assert (H : ∀ source target, Npz.shutil_copy2 Cases.bundle source target = Ok tt)
    by reflexivity.
  split; [reflexivity |]. split; [exact H |].
  exact (npz_session_leaves_no_file Cases.bundle _ Cases.bundle_start eq_refl H).
Defined.

Lemma preprocess_audio_result_witness :
  preprocess_audio Scenario.fallback_works "talk.mp3" (Scenario.start ["talk.mp3"])
  = (Ok ("/tmp/tmp0.wav", Scenario.mono_16k, 16000%Z),
     (preprocess_audio Scenario.fallback_works "talk.mp3" (Scenario.start ["talk.mp3"])).2)
  ∧ "/tmp/tmp0.wav"
    ∈ fs (preprocess_audio Scenario.fallback_works "talk.mp3"
            (Scenario.start ["talk.mp3"])).2
  ∧ "talk.mp3"
    ∈ fs (preprocess_audio Scenario.fallback_works "talk.mp3"
            (Scenario.start ["talk.mp3"])).2.
Proof.
  assert (H : preprocess_audio Scenario.fallback_works "talk.mp3"
                (Scenario.start ["talk.mp3"])
              = (Ok ("/tmp/tmp0.wav", Scenario.mono_16k, 16000%Z),
                 (preprocess_audio Scenario.fallback_works "talk.mp3"
                    (Scenario.start ["talk.mp3"])).2))
    by (vm_compute; reflexivity).
  split; [exact H |].
  destruct (preprocess_audio_result Scenario.fallback_works "talk.mp3"
              (Scenario.start ["talk.mp3"]) _ _ _ _ H) as (Hprocessed & Hinput & _).
  split; assumption.
Defined.
